(** * convert-postman-to-md: a shallow embedding of the conversion engine

    The program turns a Postman 2.1 collection into one Markdown page per
    request.  Python [str] values are modelled as lists of Unicode code
    points, exceptions as an explicit [result] type, the decoded input
    document as records with optional fields, and the storage as a finite
    map from paths to file contents with a set of directories; opening,
    writing and printing raise as the interpreter does. *)

From Stdlib Require Import ZArith NArith List Bool Lia String Ascii.
From Stdlib Require Import Sorting.Sorted Sorting.Permutation.
From Stdlib Require Import DecimalString.
From Stdlib Require DecimalFacts DecimalPos DecimalZ.
From stdpp Require Import base option list gmap.

Local Open Scope N_scope.

(** ** Python strings *)

(** A [str] is a sequence of code points. *)
Definition pystr : Type := list N.

Fixpoint s2p (s : string) : pystr :=
  match s with
  | EmptyString => []
  | String a r => N_of_ascii a :: s2p r
  end.

Notation "'py:' s" := (s2p s%string) (at level 9, format "'py:' s").

Definition DQUOTE : N := 34.
Definition BACKSLASH : N := 92.
Definition LF : N := 10.
Definition CR : N := 13.
Definition SPACE : N := 32.

(** [s.startswith(p)] *)
Fixpoint startswith (p s : pystr) : bool :=
  match p, s with
  | [], _ => true
  | _ :: _, [] => false
  | a :: p', b :: s' => (a =? b) && startswith p' s'
  end.

(** [s.endswith(p)] *)
Definition endswith (p s : pystr) : bool := startswith (rev p) (rev s).

(** [old in s] *)
Fixpoint contains (old s : pystr) : bool :=
  startswith old s || match s with [] => false | _ :: r => contains old r end.

(** [s.replace(old, new)] for a non-empty [old]: the matches are found from
    left to right and do not overlap.  [skip] counts the characters of the
    current match that are still to be dropped. *)
Fixpoint replace_from (old new : pystr) (skip : nat) (s : pystr) : pystr :=
  match s with
  | [] => []
  | c :: r =>
      match skip with
      | S k => replace_from old new k r
      | O =>
          if startswith old s
          then new ++ replace_from old new (length old - 1) r
          else c :: replace_from old new O r
      end
  end.

(** [s.replace(old, new)]; for the empty [old] Python puts [new] before every
    character and at the end. *)
Definition replace (old new s : pystr) : pystr :=
  match old with
  | [] => new ++ flat_map (fun c => c :: new) s
  | _ :: _ => replace_from old new O s
  end.

(** [s[1:-1]] *)
Definition slice_1_m1 (s : pystr) : pystr := removelast (tl s).

(** ** Exceptions *)

Inductive exn : Type :=
| KeyError (k : pystr)
| UnicodeEncodeError
| UnicodeDecodeError
| JSONDecodeError
| RecursionError
| ValueError
(** [FileNotFoundError], [NotADirectoryError] or [IsADirectoryError], as the
    storage decides. *)
| OSError
(** No exception of Python: the loops of the JSON scanner below count down
    a bound on their iterations, and this is what they answer should the
    bound ever be reached; it never is ([json_loads_bound]). *)
| LoopBound.

Inductive result (A : Type) : Type :=
| Ok (a : A)
| Raise (e : exn).
Arguments Ok {A} a.
Arguments Raise {A} e.

#[global] Instance result_ret : MRet result := fun _ a => Ok a.
#[global] Instance result_bind : MBind result := fun _ _ f m =>
  match m with Ok a => f a | Raise e => Raise e end.
#[global] Instance result_fmap : FMap result := fun _ _ f m =>
  match m with Ok a => Ok (f a) | Raise e => Raise e end.

(** [try: body except: handler] with a bare [except], which catches every
    exception. *)
Definition try_except {A} (body : result A) (handler : A) : A :=
  match body with Ok a => a | Raise _ => handler end.

Definition raises {A} (m : result A) : bool :=
  match m with Ok _ => false | Raise _ => true end.

(** ** The codecs used by [clean] *)

(** [s.encode('latin1')]: defined on code points up to U+00FF only.  A byte
    string is modelled as the list of its byte values. *)
Definition encode_latin1 (s : pystr) : result (list N) :=
  if forallb (fun c => c <=? 255) s then Ok s else Raise UnicodeEncodeError.

Definition is_octal (c : N) : bool := (48 <=? c) && (c <=? 55).
Definition is_digit (c : N) : bool := (48 <=? c) && (c <=? 57).

Definition hex_val (c : N) : option N :=
  if (48 <=? c) && (c <=? 57) then Some (c - 48)
  else if (97 <=? c) && (c <=? 102) then Some (c - 87)
  else if (65 <=? c) && (c <=? 70) then Some (c - 55)
  else None.

(** The value of exactly [count] hexadecimal digits at the head of [s]. *)
Fixpoint hex_digits (count : nat) (acc : N) (s : list N) : option N :=
  match count with
  | O => Some acc
  | S k =>
      match s with
      | [] => None
      | c :: r =>
          match hex_val c with
          | Some d => hex_digits k (N.shiftl acc 4 + d) r
          | None => None
          end
      end
  end.

Definition MAX_UNICODE : N := 1114111.

(** The state of the [unicode_escape] decoder between two bytes. *)
Inductive ue_state : Type :=
| UNormal
| USkip (n : nat)
| UName (acc : list N).

Definition rcons (c : N) (m : result pystr) : result pystr := (cons c) <$> m.

Section UnicodeEscape.
(** The Unicode character-name table behind [\N{...}] is data of the
    interpreter, not of the program: it is a parameter of the model. *)
Variable ucnhash_getcode : list N -> option N.

(** [b.decode('unicode_escape')] with the default strict error handling.
    In state [USkip n] the next [n] bytes are the digits of a hexadecimal
    escape that has been decoded already; in state [UName acc] the decoder
    is inside the braces of [\N{...}]. *)
Fixpoint unicode_escape_from (st : ue_state) (b : list N) : result pystr :=
  match b with
  | [] =>
      match st with
      | UName _ => Raise UnicodeDecodeError
      | _ => Ok []
      end
  | c :: r =>
      match st with
      | USkip (S k) => unicode_escape_from (USkip k) r
      | UName acc =>
          if c =? 125 then
            match acc with
            | [] => Raise UnicodeDecodeError
            | _ :: _ =>
                match ucnhash_getcode (rev acc) with
                | Some ch => rcons ch (unicode_escape_from UNormal r)
                | None => Raise UnicodeDecodeError
                end
            end
          else unicode_escape_from (UName (c :: acc)) r
      | _ =>
          if negb (c =? BACKSLASH) then rcons c (unicode_escape_from UNormal r)
          else
            match r with
            | [] => Raise UnicodeDecodeError
            | e :: r' =>
                let simple v := rcons v (unicode_escape_from UNormal r') in
                let hexescape count :=
                  match hex_digits count 0 r' with
                  | Some ch =>
                      if ch <=? MAX_UNICODE
                      then rcons ch (unicode_escape_from (USkip count) r')
                      else Raise UnicodeDecodeError
                  | None => Raise UnicodeDecodeError
                  end in
                if e =? LF then unicode_escape_from UNormal r'
                else if e =? BACKSLASH then simple BACKSLASH
                else if e =? 39 then simple 39
                else if e =? DQUOTE then simple DQUOTE
                else if e =? 98 then simple 8
                else if e =? 102 then simple 12
                else if e =? 116 then simple 9
                else if e =? 110 then simple LF
                else if e =? 114 then simple CR
                else if e =? 118 then simple 11
                else if e =? 97 then simple 7
                else if is_octal e then
                  match r' with
                  | d2 :: r2 =>
                      if is_octal d2 then
                        match r2 with
                        | d3 :: r3 =>
                            if is_octal d3
                            then rcons (((e - 48) * 8 + (d2 - 48)) * 8 + (d3 - 48))
                                       (unicode_escape_from UNormal r3)
                            else rcons ((e - 48) * 8 + (d2 - 48))
                                       (unicode_escape_from UNormal r2)
                        | [] => rcons ((e - 48) * 8 + (d2 - 48))
                                      (unicode_escape_from UNormal r2)
                        end
                      else simple (e - 48)
                  | [] => simple (e - 48)
                  end
                else if e =? 120 then hexescape 2%nat
                else if e =? 117 then hexescape 4%nat
                else if e =? 85 then hexescape 8%nat
                else if e =? 78 then
                  match r' with
                  | b1 :: r2 =>
                      if b1 =? 123 then unicode_escape_from (UName []) r2
                      else Raise UnicodeDecodeError
                  | [] => Raise UnicodeDecodeError
                  end
                else rcons BACKSLASH (rcons e (unicode_escape_from UNormal r'))
            end
      end
  end.

Definition decode_unicode_escape (b : list N) : result pystr :=
  unicode_escape_from UNormal b.

(** [clean], lines 18-24. *)
Definition clean (s : pystr) : result pystr :=
  b ← encode_latin1 s;
  s ← decode_unicode_escape b;
  let s := replace [CR; LF] []
             (replace py:"}}" [] (replace py:"{{" py:"$" s)) in
  if startswith [DQUOTE] s && endswith [DQUOTE] s
  then Ok (slice_1_m1 s)
  else Ok s.
End UnicodeEscape.

(** [s.split(sep)] for a separator of one character. *)
Fixpoint split_on (sep : N) (s : pystr) : list pystr :=
  match s with
  | [] => [[]]
  | c :: r =>
      if c =? sep then [] :: split_on sep r
      else
        match split_on sep r with
        | p :: ps => (c :: p) :: ps
        | [] => [[c]]
        end
  end.

(** [clean_list], lines 27-28, for an argument that is a [str]:
    [str(a_list)] is then the argument itself. *)
Definition clean_list (ucnhash_getcode : list N -> option N) (a_list : pystr)
    : result (list pystr) :=
  mapM (clean ucnhash_getcode) (split_on 44 a_list).

(** ** Value transformers *)

(** [escape_markup], lines 31-32: a backslash before each of the four
    brackets. *)
Definition is_markup_bracket (c : N) : bool :=
  (c =? 123) || (c =? 125) || (c =? 91) || (c =? 93).

Definition escape_markup (value : pystr) : pystr :=
  flat_map (fun c => if is_markup_bracket c then [BACKSLASH; c] else [c]) value.

(** The characters the [re] module's [\s] matches in a [str] pattern. *)
Definition is_space (c : N) : bool :=
  ((9 <=? c) && (c <=? 13)) || ((28 <=? c) && (c <=? 32))
  || (c =? 133) || (c =? 160) || (c =? 5760)
  || ((8192 <=? c) && (c <=? 8202))
  || (c =? 8232) || (c =? 8233) || (c =? 8239) || (c =? 8287) || (c =? 12288).

(** [re.sub(r"\s+", " ", url)]: every maximal run of white space becomes one
    space.  [in_run] tells whether the previous character was white space. *)
Fixpoint collapse_ws (in_run : bool) (s : pystr) : pystr :=
  match s with
  | [] => []
  | c :: r =>
      if is_space c
      then (if in_run then collapse_ws true r else SPACE :: collapse_ws true r)
      else c :: collapse_ws false r
  end.

Definition re_sub_spaces (url : pystr) : pystr := collapse_ws false url.

(** [encode_full_url], lines 35-42. *)
Definition encode_full_url (url : pystr) : pystr :=
  replace py:"]" py:"%5D"
    (replace py:"[" py:"%5B"
      (replace py:" " py:"%20"
        (replace [DQUOTE] py:"%22"
          (replace py:"}" py:"%7D"
            (replace py:"{" py:"%7B"
              (replace py:"'" py:"%27"
                (replace py:"%" py:"%25"
                  (replace py:"}}" []
                    (replace py:"{{" py:"$"
                      (re_sub_spaces url)))))))))).

(** The file-safe name of a resource, lines 195-197. *)
Definition safe_name (name : pystr) : pystr :=
  replace py:"|" py:"-"
    (replace py:">" py:"-"
      (replace py:"<" py:"-"
        (replace [DQUOTE] py:"-"
          (replace py:"?" py:"-"
            (replace py:"*" py:"-"
              (replace py:":" py:"-"
                (replace [BACKSLASH] py:"-"
                  (replace py:"/" [] name)))))))).

(** ** The [json] module

    [json.loads] and [json.dumps] belong to the interpreter's library.  They
    are modelled after CPython's decoder and encoder.  What they do depends
    on data of the interpreter, which the model takes as parameters:

    - a float is kept as the text of its literal, and the text the encoder
      prints for it, [float.__repr__(float(literal))], is computed in binary
      floating point;
    - the decoder and the encoders enter a nested list or object only while
      the interpreter's recursion limit allows it, and raise [RecursionError]
      otherwise; the scanner and the compact encoder are C code, the encoder
      that indents is Python code, and each has its own depth;
    - [int] refuses to read or to print more than
      [sys.get_int_max_str_digits()] decimal digits (4300 unless set
      otherwise, 0 for no limit) and raises [ValueError]. *)
Record Interpreter : Type := {
  floatstr_of_literal : pystr -> pystr;
  decoder_depth : nat;
  compact_encoder_depth : nat;
  indent_encoder_depth : nat;
  int_max_str_digits : nat
}.

(** The test of [int] on the number of digits of a decimal text; it is
    made for more than 640 digits only. *)
Definition int_too_long (py : Interpreter) (digits : nat) : bool :=
  Nat.ltb 640 digits && Nat.ltb 0 (int_max_str_digits py)
  && Nat.ltb (int_max_str_digits py) digits.

#[local] Set Warnings "-register-all".

Inductive json : Type :=
| JNull
| JBool (b : bool)
| JInt (z : Z)
| JFloat (literal : pystr)
| JStr (s : pystr)
| JArr (items : list json)
| JObj (members : list (pystr * json)).

Fixpoint str_eqb (a b : pystr) : bool :=
  match a, b with
  | [], [] => true
  | x :: a', y :: b' => (x =? y) && str_eqb a' b'
  | _, _ => false
  end.

(** [d[k] = v] on a [dict], which keeps the position of the first insertion
    of a key. *)
Fixpoint dict_set {V} (k : pystr) (v : V) (d : list (pystr * V)) : list (pystr * V) :=
  match d with
  | [] => [(k, v)]
  | (k', v') :: r => if str_eqb k k' then (k, v) :: r else (k', v') :: dict_set k v r
  end.

Definition is_json_ws (c : N) : bool :=
  (c =? 32) || (c =? 9) || (c =? 10) || (c =? 13).

Fixpoint skip_ws (s : pystr) : pystr :=
  match s with
  | c :: r => if is_json_ws c then skip_ws r else s
  | [] => []
  end.

Fixpoint span_digits (s : pystr) : pystr * pystr :=
  match s with
  | c :: r =>
      if is_digit c then let '(d, rest) := span_digits r in (c :: d, rest)
      else ([], s)
  | [] => ([], [])
  end.

(** [int(digits)] for ASCII decimal digits. *)
Definition int_of_digits (d : pystr) : Z :=
  fold_left (fun acc c => (acc * 10 + Z.of_N (c - 48))%Z) d 0%Z.

(** The number pattern of the scanner: an optional minus sign and either a
    single zero or a non-zero digit with further digits; then, optionally, a
    dot with at least one digit; then, optionally, an exponent letter, a
    sign and at least one digit. *)
Definition match_integer (s : pystr) : option (pystr * pystr) :=
  let '(sign, s1) :=
    match s with
    | c :: r => if c =? 45 then ([45], r) else ([], s)
    | [] => ([], s)
    end in
  match s1 with
  | c :: r =>
      if c =? 48 then Some (sign ++ [c], r)
      else if is_digit c then
        let '(d, rest) := span_digits r in Some (sign ++ c :: d, rest)
      else None
  | [] => None
  end.

Definition match_frac (s : pystr) : pystr * pystr :=
  match s with
  | c :: r =>
      if c =? 46 then
        match span_digits r with
        | ([], _) => ([], s)
        | (d, rest) => (46 :: d, rest)
        end
      else ([], s)
  | [] => ([], s)
  end.

Definition match_exp (s : pystr) : pystr * pystr :=
  match s with
  | e :: r =>
      if (e =? 101) || (e =? 69) then
        let '(sign, r1) :=
          match r with
          | c :: r' => if (c =? 45) || (c =? 43) then ([c], r') else ([], r)
          | [] => ([], r)
          end in
        match span_digits r1 with
        | ([], _) => ([], s)
        | (d, rest) => (e :: sign ++ d, rest)
        end
      else ([], s)
  | [] => ([], s)
  end.

Definition match_number (py : Interpreter) (s : pystr)
    : option (result (json * pystr)) :=
  match match_integer s with
  | None => None
  | Some (integer, r1) =>
      let '(frac, r2) := match_frac r1 in
      let '(exp, r3) := match_exp r2 in
      match frac, exp with
      | [], [] =>
          let '(negative, digits) :=
            match integer with
            | c :: d => if c =? 45 then (true, d) else (false, integer)
            | [] => (false, integer)
            end in
          if int_too_long py (length digits) then Some (Raise ValueError)
          else
            let z := if negative then (- int_of_digits digits)%Z
                     else int_of_digits digits in
            Some (Ok (JInt z, r3))
      | _, _ => Some (Ok (JFloat (integer ++ frac ++ exp), r3))
      end
  end.

Definition json_simple_escape (e : N) : option N :=
  if e =? DQUOTE then Some DQUOTE
  else if e =? BACKSLASH then Some BACKSLASH
  else if e =? 47 then Some 47
  else if e =? 98 then Some 8
  else if e =? 102 then Some 12
  else if e =? 110 then Some LF
  else if e =? 114 then Some CR
  else if e =? 116 then Some 9
  else None.

Definition is_high_surrogate (c : N) : bool := (55296 <=? c) && (c <=? 56319).
Definition is_low_surrogate (c : N) : bool := (56320 <=? c) && (c <=? 57343).
Definition join_surrogates (hi lo : N) : N :=
  65536 + N.lor (N.shiftl (hi - 55296) 10) (lo - 56320).

Definition push_char {B} (c : N) (m : result (pystr * B)) : result (pystr * B) :=
  (fun p => (c :: fst p, snd p)) <$> m.

(** [scanstring] in strict mode, entered after the opening quote: the decoded
    string and the text after the closing quote.  [skip] counts characters of
    an escape that has been decoded already. *)
Fixpoint scanstring_from (skip : nat) (s : pystr) : result (pystr * pystr) :=
  match s with
  | [] => Raise JSONDecodeError
  | c :: r =>
      match skip with
      | S k => scanstring_from k r
      | O =>
          if c =? DQUOTE then Ok ([], r)
          else if c =? BACKSLASH then
            match r with
            | [] => Raise JSONDecodeError
            | e :: r' =>
                if e =? 117 then
                  match hex_digits 4 0 r' with
                  | None => Raise JSONDecodeError
                  | Some uni =>
                      if is_high_surrogate uni
                         && startswith [BACKSLASH; 117] (skipn 4 r')
                      then
                        match hex_digits 4 0 (skipn 6 r') with
                        | None => Raise JSONDecodeError
                        | Some uni2 =>
                            if is_low_surrogate uni2
                            then push_char (join_surrogates uni uni2)
                                           (scanstring_from 11 r)
                            else push_char uni (scanstring_from 5 r)
                        end
                      else push_char uni (scanstring_from 5 r)
                  end
                else
                  match json_simple_escape e with
                  | Some v => push_char v (scanstring_from O r')
                  | None => Raise JSONDecodeError
                  end
            end
          else if c <=? 31 then Raise JSONDecodeError
          else push_char c (scanstring_from O r)
      end
  end.

Definition scanstring (s : pystr) : result (pystr * pystr) := scanstring_from O s.

Section Scanner.
(** The scanner of the enclosed values. *)
Variable scan : pystr -> result (json * pystr).

(** The loop of [JSONArray]; [s] starts at a value.  [fuel] bounds the
    number of elements. *)
Fixpoint array_loop (fuel : nat) (s : pystr) (acc : list json)
    : result (json * pystr) :=
  match fuel with
  | O => Raise LoopBound
  | S n =>
      '(v, r) ← scan s;
      match skip_ws r with
      | c :: r2 =>
          if c =? 93 then Ok (JArr (rev (v :: acc)), r2)
          else if c =? 44 then array_loop n (skip_ws r2) (v :: acc)
          else Raise JSONDecodeError
      | [] => Raise JSONDecodeError
      end
  end.

Definition JSONArray (fuel : nat) (s : pystr) : result (json * pystr) :=
  match skip_ws s with
  | c :: r => if c =? 93 then Ok (JArr [], r) else array_loop fuel (c :: r) []
  | [] => array_loop fuel [] []
  end.

(** The loop of [JSONObject]; [s] starts after the opening quote of a
    key.  [fuel] bounds the number of members. *)
Fixpoint object_loop (fuel : nat) (s : pystr) (acc : list (pystr * json))
    : result (json * pystr) :=
  match fuel with
  | O => Raise LoopBound
  | S n =>
      '(key, r) ← scanstring s;
      match skip_ws r with
      | c1 :: r1 =>
          if c1 =? 58 then
            '(v, r2) ← scan (skip_ws r1);
            let acc := dict_set key v acc in
            match skip_ws r2 with
            | c3 :: r3 =>
                if c3 =? 125 then Ok (JObj acc, r3)
                else if c3 =? 44 then
                  match skip_ws r3 with
                  | c4 :: r4 =>
                      if c4 =? DQUOTE then object_loop n r4 acc
                      else Raise JSONDecodeError
                  | [] => Raise JSONDecodeError
                  end
                else Raise JSONDecodeError
            | [] => Raise JSONDecodeError
            end
          else Raise JSONDecodeError
      | [] => Raise JSONDecodeError
      end
  end.

Definition JSONObject (fuel : nat) (s : pystr) : result (json * pystr) :=
  match skip_ws s with
  | c :: r =>
      if c =? 125 then Ok (JObj [], r)
      else if c =? DQUOTE then object_loop fuel r []
      else Raise JSONDecodeError
  | [] => Raise JSONDecodeError
  end.
End Scanner.

(** [scan_once]: one JSON value at the head of [s].  [depth] is the number
    of lists and objects the scanner may still enter, one inside the other;
    a list or an object has fewer elements than characters, which bounds its
    loop. *)
Fixpoint scan_once (py : Interpreter) (depth : nat) (s : pystr) {struct depth}
    : result (json * pystr) :=
  match s with
  | [] => Raise JSONDecodeError
  | c :: r =>
      if c =? DQUOTE then
        '(str, rest) ← scanstring r; Ok (JStr str, rest)
      else if c =? 123 then
        match depth with
        | O => Raise RecursionError
        | S d => JSONObject (scan_once py d) (S (length r)) r
        end
      else if c =? 91 then
        match depth with
        | O => Raise RecursionError
        | S d => JSONArray (scan_once py d) (S (length r)) r
        end
      else if startswith py:"null" s then Ok (JNull, skipn 4 s)
      else if startswith py:"true" s then Ok (JBool true, skipn 4 s)
      else if startswith py:"false" s then Ok (JBool false, skipn 5 s)
      else
        match match_number py s with
        | Some res => res
        | None =>
            if startswith py:"NaN" s then Ok (JFloat py:"NaN", skipn 3 s)
            else if startswith py:"Infinity" s
            then Ok (JFloat py:"Infinity", skipn 8 s)
            else if startswith py:"-Infinity" s
            then Ok (JFloat py:"-Infinity", skipn 9 s)
            else Raise JSONDecodeError
        end
  end.

(** [json.loads(s)] for a [str] argument. *)
Definition json_loads (py : Interpreter) (s : pystr) : result json :=
  if startswith [65279] s then Raise JSONDecodeError
  else
    '(v, rest) ← scan_once py (decoder_depth py) (skip_ws s);
    match skip_ws rest with
    | [] => Ok v
    | _ :: _ => Raise JSONDecodeError
    end.

(** [repr] of an [int] that has few enough digits. *)
Definition repr_int (z : Z) : pystr := s2p (NilZero.string_of_int (Z.to_int z)).

(** [int.__repr__(z)] *)
Definition int_repr (py : Interpreter) (z : Z) : result pystr :=
  let digits :=
    match repr_int z with
    | c :: d => if c =? 45 then d else repr_int z
    | [] => []
    end in
  if int_too_long py (length digits) then Raise ValueError else Ok (repr_int z).

Definition hex_char (d : N) : N := if d <? 10 then 48 + d else 87 + d.

(** ['\\u{0:04x}'.format(n)] for [n] below 65536. *)
Definition u_escape (n : N) : pystr :=
  [BACKSLASH; 117;
   hex_char (N.shiftr n 12 mod 16); hex_char (N.shiftr n 8 mod 16);
   hex_char (N.shiftr n 4 mod 16); hex_char (n mod 16)].

(** One character of [encode_basestring_ascii]. *)
Definition escape_ascii_char (c : N) : pystr :=
  if c =? DQUOTE then [BACKSLASH; DQUOTE]
  else if c =? BACKSLASH then [BACKSLASH; BACKSLASH]
  else if c =? LF then [BACKSLASH; 110]
  else if c =? CR then [BACKSLASH; 114]
  else if c =? 9 then [BACKSLASH; 116]
  else if c =? 12 then [BACKSLASH; 102]
  else if c =? 8 then [BACKSLASH; 98]
  else if (32 <=? c) && (c <=? 126) then [c]
  else if c <? 65536 then u_escape c
  else
    let n := c - 65536 in
    u_escape (N.lor 55296 (N.land (N.shiftr n 10) 1023))
    ++ u_escape (N.lor 56320 (N.land n 1023)).

Definition encode_basestring_ascii (s : pystr) : pystr :=
  DQUOTE :: flat_map escape_ascii_char s ++ [DQUOTE].

(** [sep.join(parts)] *)
Fixpoint join (sep : pystr) (parts : list pystr) : pystr :=
  match parts with
  | [] => []
  | [p] => p
  | p :: rest => p ++ sep ++ join sep rest
  end.

Section Encoder.
Variable py : Interpreter.
(** [None] for the compact form, [Some n] for [indent=n]. *)
Variable indent : option nat.

Definition newline_indent (level : nat) : pystr :=
  match indent with
  | Some n => LF :: repeat SPACE (n * level)
  | None => []
  end.

Definition item_separator : pystr :=
  match indent with
  | Some _ => py:","
  | None => py:", "
  end.

(** The encoder at nesting depth [level]; [depth] is the number of lists
    and objects it may still enter, one inside the other. *)
Fixpoint iterencode (depth : nat) (level : nat) (o : json) {struct o}
    : result pystr :=
  match o with
  | JNull => Ok py:"null"
  | JBool true => Ok py:"true"
  | JBool false => Ok py:"false"
  | JInt z => int_repr py z
  | JFloat lit => Ok (floatstr_of_literal py lit)
  | JStr s => Ok (encode_basestring_ascii s)
  | JArr items =>
      match depth with
      | O => Raise RecursionError
      | S d =>
          match items with
          | [] => Ok py:"[]"
          | _ :: _ =>
              parts ← mapM (iterencode d (S level)) items;
              Ok (py:"[" ++ newline_indent (S level)
                  ++ join (item_separator ++ newline_indent (S level)) parts
                  ++ newline_indent level ++ py:"]")
          end
      end
  | JObj members =>
      match depth with
      | O => Raise RecursionError
      | S d =>
          match members with
          | [] => Ok py:"{}"
          | _ :: _ =>
              parts ← mapM (fun kv : pystr * json =>
                              v ← iterencode d (S level) (snd kv);
                              Ok (encode_basestring_ascii (fst kv) ++ py:": " ++ v))
                           members;
              Ok (py:"{" ++ newline_indent (S level)
                  ++ join (item_separator ++ newline_indent (S level)) parts
                  ++ newline_indent level ++ py:"}")
          end
      end
  end.

(** [json.dumps(o, indent=indent)] *)
Definition json_dumps (o : json) : result pystr :=
  iterencode (match indent with
              | None => compact_encoder_depth py
              | Some _ => indent_encoder_depth py
              end) O o.
End Encoder.

(** ** Payload formatting *)

(** [format_raw_data], lines 45-49. *)
Definition format_raw_data (py : Interpreter) (data : pystr) : pystr * pystr :=
  try_except
    (v ← json_loads py data;
     text ← json_dumps py (Some 2%nat) v;
     Ok (py:"json", text))
    (py:"xml", data).

(** ** The input document *)

(** A field of a decoded JSON object: missing, [null], or a value. *)
Inductive field (A : Type) : Type :=
| Absent
| Null
| Present (a : A).
Arguments Absent {A}.
Arguments Null {A}.
Arguments Present {A} a.

(** [d[k]] on a field that may be missing. *)
Definition getitem {A} (k : pystr) (f : option A) : result A :=
  match f with
  | Some a => Ok a
  | None => Raise (KeyError k)
  end.

Record Variable_ : Type := {
  var_key : option pystr;
  var_value : option pystr
}.

Record Header : Type := {
  header_key : pystr;
  header_value : pystr;
  header_description : option pystr
}.

Record QueryParam : Type := {
  query_key : pystr;
  query_value : pystr;
  query_description : option pystr
}.

Record Url : Type := {
  url_raw : pystr;
  url_path : option (list pystr);
  url_query : option (list QueryParam)
}.

Record Body : Type := {
  body_raw : option pystr
}.

Record Request : Type := {
  req_method : pystr;
  req_url : Url;
  req_header : list Header;
  req_description : option pystr;
  req_body : field Body
}.

Record Response : Type := {
  resp_code : option Z;
  resp_status : option pystr;
  resp_body : field pystr
}.

Record Item : Type := {
  item_name : pystr;
  item_request : Request;
  item_response : list Response
}.

Record Collection : Type := {
  variable : list Variable_;
  item : list Item
}.

(** What [print] writes to the side channel. *)
Inductive printed : Type :=
| PrintStr (s : pystr)
| PrintResponse (r : Response).

(** ** Ordering *)

(** [a < b] on [str]: lexicographic on code points. *)
Fixpoint str_ltb (a b : pystr) : bool :=
  match a, b with
  | _, [] => false
  | [], _ :: _ => true
  | x :: a', y :: b' => (x <? y) || ((x =? y) && str_ltb a' b')
  end.

(** [a < b] on pairs of [str]: the first components that differ decide. *)
Definition pair_ltb (a b : pystr * pystr) : bool :=
  if negb (str_eqb (fst a) (fst b)) then str_ltb (fst a) (fst b)
  else if negb (str_eqb (snd a) (snd b)) then str_ltb (snd a) (snd b)
  else false.

Section Sorting.
Context {K A : Type}.
Variable ltb : K -> K -> bool.

(** [x] goes before the first element that is not smaller than it, so it
    stays ahead of the elements with an equal key that followed it. *)
Fixpoint insert_keyed (x : K * A) (l : list (K * A)) : list (K * A) :=
  match l with
  | [] => [x]
  | y :: r => if ltb (fst y) (fst x) then y :: insert_keyed x r else x :: y :: r
  end.

Fixpoint sort_keyed (l : list (K * A)) : list (K * A) :=
  match l with
  | [] => []
  | x :: r => insert_keyed x (sort_keyed r)
  end.

(** [sorted(l, key=key)]: a stable sort of [l] that compares the keys with
    [<] only; the keys are computed once, in order. *)
Definition sorted (key : A -> K) (l : list A) : list A :=
  List.map snd (sort_keyed (List.map (fun x => (key x, x)) l)).

(** [sorted] for a key function that may raise. *)
Definition sorted_partial (key : A -> result K) (l : list A) : result (list A) :=
  keyed ← mapM (fun x => k ← key x; Ok (k, x)) l;
  Ok (List.map snd (sort_keyed keyed)).
End Sorting.

(** [itertools.groupby(l, key=key)]: the maximal runs of consecutive
    elements with equal keys, each with the key of its first element. *)
Fixpoint groupby {A} (key : A -> pystr) (l : list A) : list (pystr * list A) :=
  match l with
  | [] => []
  | x :: r =>
      match groupby key r with
      | (k, g) :: gs =>
          if str_eqb (key x) k then (key x, x :: g) :: gs
          else (key x, [x]) :: (k, g) :: gs
      | [] => [(key x, [x])]
      end
  end.

Definition item_key (x : Item) : pystr * pystr :=
  (item_name x, req_method (item_request x)).

(** Line 214. *)
Definition sorted_items (items : list Item) : list Item :=
  sorted pair_ltb item_key items.

(** Lines 214 and 220: the groups in the order they are rendered. *)
Definition grouped_items (items : list Item) : list (pystr * list Item) :=
  groupby item_name (sorted_items items).

(** ** Section generators *)

Definition NL : pystr := [LF].
Definition FENCE : pystr := py:"```".

(** [f"```{language}\n{payload}\n```\n\n"] *)
Definition fenced (language payload : pystr) : pystr :=
  FENCE ++ language ++ NL ++ payload ++ NL ++ FENCE ++ NL ++ NL.

(** [gen_variables_section], lines 53-59. *)
Definition variable_row (v : Variable_) : result pystr :=
  k ← getitem py:"key" (var_key v);
  x ← getitem py:"value" (var_value v);
  Ok (py:"| " ++ k ++ py:" | | " ++ x ++ py:" |" ++ NL).

Definition variables_heading : pystr :=
  py:"## Variables Used in this Collection" ++ NL ++ NL
  ++ py:"| Name | Description | Example |" ++ NL
  ++ py:"| ---- | ----------- | ------- |" ++ NL.

Definition gen_variables_section (list_of_variables : list Variable_) : result pystr :=
  vars ← sorted_partial str_ltb (fun v => getitem py:"key" (var_key v)) list_of_variables;
  rows ← mapM variable_row vars;
  Ok (variables_heading ++ concat rows).

Definition header_row (h : Header) : pystr :=
  let description := default py:" " (header_description h) in
  py:"| " ++ header_key h ++ py:" | " ++ escape_markup (header_value h)
  ++ py:" | " ++ description ++ py:" |" ++ NL.

(** [param.replace('{{', '$').replace('}}', '')] *)
Definition dollar_form (param : pystr) : pystr :=
  replace py:"}}" [] (replace py:"{{" py:"$" param).

Definition path_rows (path : list pystr) : list pystr :=
  List.map (fun param => py:"| Path Parameter | " ++ dollar_form param ++ py:" | | |" ++ NL)
           (List.filter (contains py:"{{") path).

Definition query_row (q : QueryParam) : pystr :=
  let description := default py:" " (query_description q) in
  py:"| Query String Parameter | " ++ query_key q ++ py:" | "
  ++ escape_markup (query_value q) ++ py:" | " ++ description ++ py:" |" ++ NL.

Definition param_heading : pystr :=
  py:"#### Request Parameters" ++ NL ++ NL
  ++ py:"| Parameter Type | Key | Value | Description |" ++ NL
  ++ py:"| -------------- | --- | ----- | ----------- |" ++ NL.

Definition EMPTY_OBJECT : pystr := py:"{}".

Section Generators.
Variable ucnhash_getcode : list N -> option N.
Variable py : Interpreter.

(** The body of the [try] block, lines 125-132: the language tag and the
    payload. *)
Definition payload_try (raw : pystr) : result (pystr * pystr) :=
  p ← json_dumps py None (JStr raw);
  v ← json_loads py p;
  text ← json_dumps py None v;
  x ← clean ucnhash_getcode text;
  match x with
  | [] => Ok (py:"json", EMPTY_OBJECT)
  | _ :: _ => Ok (format_raw_data py x)
  end.

(** The [try] statement of lines 124-134 around [steps]: its handler takes
    the raw text for the payload and leaves the language tag as line 116 set
    it. *)
Definition payload_or_raw (steps : result (pystr * pystr)) (raw : pystr)
    : pystr * pystr :=
  try_except steps (py:"json", raw).

(** Lines 116-136: the language tag and the payload of a request that is
    not a GET. *)
Definition request_payload (b : field Body) : pystr * pystr :=
  match b with
  | Absent | Null => (py:"json", EMPTY_OBJECT)
  | Present body =>
      match body_raw body with
      | Some raw => payload_or_raw (payload_try raw) raw
      | None => (py:"json", EMPTY_OBJECT)
      end
  end.

(** Lines 114-141. *)
Definition payload_section (r : Request) : pystr * list printed :=
  if negb (str_eqb (req_method r) py:"GET") then
    let '(language, payload) := request_payload (req_body r) in
    (py:"#### Request Payload" ++ NL ++ NL ++ fenced language payload, [])
  else ([], [PrintStr py:"No payload for GET"]).

(** [gen_request_section], lines 63-143: the fragment and what it
    prints.  The JSON round trip of line 64 copies the item. *)
Definition gen_request_section (it : Item) : pystr * list printed :=
  let r := item_request it in
  let url := req_url r in
  let heading := py:"## **" ++ req_method r ++ py:"** " ++ item_name it ++ NL ++ NL in
  let description :=
    match req_description r with
    | Some d => d ++ NL ++ NL
    | None => []
    end in
  let request_url :=
    py:"### Request" ++ NL ++ NL ++ py:"#### Request URL" ++ NL ++ NL
    ++ FENCE ++ NL ++ encode_full_url (url_raw url) ++ NL ++ FENCE ++ NL ++ NL in
  let headers :=
    py:"#### Request Headers" ++ NL ++ NL
    ++ py:"| Key | Value | Description |" ++ NL
    ++ py:"| --- | ----- | ----------- |" ++ NL
    ++ concat (List.map header_row (req_header r)) ++ NL in
  let path_part :=
    match url_path url with
    | Some path => path_rows path
    | None => []
    end in
  let query_part :=
    match url_query url with
    | Some qs => List.map query_row qs
    | None => []
    end in
  let param_section := param_heading ++ concat path_part ++ concat query_part in
  let add_param_section :=
    match path_part ++ query_part with
    | [] => false
    | _ :: _ => true
    end in
  let '(params, params_log) :=
    if add_param_section
    then (param_section ++ NL, [PrintStr py:"ADD PARAMETERS SECTION"])
    else ([], []) in
  let '(payload, payload_log) := payload_section r in
  (heading ++ description ++ request_url ++ headers ++ params ++ payload,
   PrintStr param_section :: params_log ++ payload_log).

(** [gen_response_section], lines 147-179. *)
Definition gen_response_section (it : Item) : pystr * list printed :=
  let response_section := py:"### Response" ++ NL ++ NL in
  match item_response it with
  | [] => (response_section, [])
  | r0 :: _ =>
      let '(code, log1) :=
        match resp_code r0 with
        | Some c => (repr_int c, [])
        | None => (py:"200", [PrintResponse r0])
        end in
      let '(status, log2) :=
        match resp_status r0 with
        | Some s => (s, [])
        | None => (py:"OK", [PrintResponse r0])
        end in
      let '(language, body, log3) :=
        match resp_body r0 with
        | Present b => (format_raw_data py b, [])
        | Null => (format_raw_data py EMPTY_OBJECT, [])
        | Absent => (py:"json", py:" ",
                     [PrintStr py:"Warning - response body is missing"])
        end in
      (response_section
       ++ py:"#### Status: " ++ code ++ py:" " ++ status ++ NL ++ NL
       ++ fenced language body,
       log1 ++ log2 ++ log3)
  end.
End Generators.

(** ** Artifact emitter *)

(** What the run reads and changes outside the program: the files and
    directories of the storage, the serial counter and the side channel.
    Text is written as UTF-8, to a file as to the side channel.  Access
    rights, quotas and the limits on the length of a name are not
    modelled. *)
Record World : Type := {
  files : gmap pystr pystr;
  dirs : gset pystr;
  serial_num : Z;
  stdout : list printed
}.

Definition output_dir : pystr := py:"generated".

(** [os.path.join(a, b)] of [posixpath]. *)
Definition path_join (a b : pystr) : pystr :=
  if startswith py:"/" b then b
  else
    match a with
    | [] => b
    | _ :: _ => if endswith py:"/" a then a ++ b else a ++ py:"/" ++ b
    end.

Fixpoint drop_while (f : N -> bool) (s : pystr) : pystr :=
  match s with
  | c :: r => if f c then drop_while f r else s
  | [] => []
  end.

(** [os.path.dirname(p)] of [posixpath]: the part up to the last slash,
    without its trailing slashes unless it consists of slashes. *)
Definition dirname (p : pystr) : pystr :=
  let head := rev (drop_while (fun c => negb (c =? 47)) (rev p)) in
  if forallb (fun c => c =? 47) head then head
  else rev (drop_while (fun c => c =? 47) (rev head)).

(** The directory that is to hold [p] is among the directories [ds]; an
    empty directory part stands for the current directory, slashes alone for
    the root. *)
Definition parent_exists (ds : gset pystr) (p : pystr) : bool :=
  match dirname p with
  | [] => true
  | c :: d => forallb (fun x => x =? 47) (c :: d) || bool_decide (c :: d ∈ ds)
  end.

(** [os.path.exists(p)] *)
Definition path_exists (w : World) (p : pystr) : bool :=
  bool_decide (p ∈ dirs w) || bool_decide (is_Some (files w !! p)).

Definition has_nul (p : pystr) : bool := existsb (fun c => c =? 0) p.

(** [os.mkdir(p)] *)
Definition mkdir (p : pystr) (w : World) : result World :=
  if has_nul p then Raise ValueError
  else if path_exists w p || negb (parent_exists (dirs w) p) then Raise OSError
  else Ok {| files := files w; dirs := {[p]} ∪ dirs w;
             serial_num := serial_num w; stdout := stdout w |}.

Definition is_surrogate (c : N) : bool := (55296 <=? c) && (c <=? 57343).

(** [s.encode('utf-8')] succeeds: no code point of [s] is a surrogate. *)
Definition utf8_encodable (s : pystr) : bool :=
  forallb (fun c => negb (is_surrogate c)) s.

(** [with open(p, 'w') as f: f.write(text)]: whatever was at [p] is
    replaced.  The file is opened first, which takes a path without a null
    character that names no directory and lies in a directory; the text is
    encoded when it is written.  The resource name and the method in [p]
    have been printed before, so they hold nothing that cannot be
    encoded. *)
Definition write_file (p text : pystr) (w : World) : result World :=
  if has_nul p then Raise ValueError
  else if bool_decide (p ∈ dirs w) || negb (parent_exists (dirs w) p) then Raise OSError
  else if utf8_encodable text
       then Ok {| files := <[p := text]> (files w); dirs := dirs w;
                  serial_num := serial_num w; stdout := stdout w |}
       else Raise UnicodeEncodeError.

(** [print(x)]; the [repr] of a [dict] escapes what UTF-8 cannot encode. *)
Definition print_one (w : World) (x : printed) : result World :=
  let w' := {| files := files w; dirs := dirs w;
               serial_num := serial_num w; stdout := stdout w ++ [x] |} in
  match x with
  | PrintStr s => if utf8_encodable s then Ok w' else Raise UnicodeEncodeError
  | PrintResponse _ => Ok w'
  end.

(** A [for] loop whose body may raise. *)
Fixpoint for_each {A S : Type} (body : S -> A -> result S) (l : list A) (s : S)
    : result S :=
  match l with
  | [] => Ok s
  | x :: r => s' ← body s x; for_each body r s'
  end.

Definition print_all (l : list printed) (w : World) : result World :=
  for_each print_one l w.

Definition next_serial (w : World) : World :=
  {| files := files w; dirs := dirs w;
     serial_num := (serial_num w + 1)%Z; stdout := stdout w |}.

(** Line 198. *)
Definition file_name (name : pystr) (it : Item) : pystr :=
  safe_name name ++ py:"-" ++ req_method (item_request it) ++ py:".md".

Section Emitter.
Variable ucnhash_getcode : list N -> option N.
Variable py : Interpreter.
(** [os.path.dirname(input_file)] *)
Variable working_dir : pystr.

(** Line 199. *)
Definition output_path (name : pystr) (it : Item) : pystr :=
  path_join (path_join working_dir output_dir) (file_name name it).

(** Line 192: the fragment of one item. *)
Definition resource_section (it : Item) : pystr :=
  fst (gen_request_section ucnhash_getcode py it)
  ++ fst (gen_response_section py it) ++ NL.

(** The body of the loop of lines 190-203 for one item. *)
Definition emit_item (name : pystr) (acc : pystr * World) (it : Item)
    : result (pystr * World) :=
  let '(resource_sections, w) := acc in
  w ← print_all [PrintStr (9 :: py:" Processing " ++ req_method (item_request it))] w;
  w ← print_all (snd (gen_request_section ucnhash_getcode py it)) w;
  w ← print_all (snd (gen_response_section py it)) w;
  w ← write_file (output_path name it) (resource_section it) w;
  Ok (resource_sections ++ resource_section it, next_serial w).

(** [gen_resource_section], lines 183-204. *)
Definition gen_resource_section (name : pystr) (group : list Item) (w : World)
    : result (pystr * World) :=
  let out := path_join working_dir output_dir in
  w ← (if path_exists w out then Ok w else mkdir out w);
  for_each (emit_item name) group ([], w).

(** The loop of lines 220-222 for one group. *)
Definition export_group (acc : pystr * World) (g : pystr * list Item)
    : result (pystr * World) :=
  let '(resource_full, w) := acc in
  let '(name, group) := g in
  w ← print_all [PrintStr (py:"Exporting: " ++ name)] w;
  '(sections, w) ← gen_resource_section name group w;
  Ok (resource_full ++ sections, w).

(** The script, lines 208-222: the combined document and the world after
    the run. *)
Definition run (input_data : Collection) (w : World) : result (pystr * World) :=
  v ← gen_variables_section (variable input_data);
  let resource_full := py:"# API Documentation" ++ NL ++ NL ++ v ++ NL in
  for_each export_group (grouped_items (item input_data)) (resource_full, w).
End Emitter.

(** * The vocabulary of the properties *)

(** The percent-encoding of one character, as the specification lists it. *)
Definition percent_encode (c : N) : pystr :=
  if c =? 37 then py:"%25"
  else if c =? 39 then py:"%27"
  else if c =? 123 then py:"%7B"
  else if c =? 125 then py:"%7D"
  else if c =? DQUOTE then py:"%22"
  else if c =? SPACE then py:"%20"
  else if c =? 91 then py:"%5B"
  else if c =? 93 then py:"%5D"
  else [c].

(** The characters that [encode_full_url] leaves nowhere in its result. *)
Definition is_url_reserved (c : N) : bool :=
  (c =? 39) || (c =? 123) || (c =? 125) || (c =? DQUOTE) || (c =? 91) || (c =? 93).

(** No run of white space survives [re.sub]: a space is never followed by
    white space. *)
Fixpoint no_ws_after_space (s : pystr) : bool :=
  match s with
  | c :: (d :: _) as r => negb ((c =? SPACE) && is_space d) && no_ws_after_space r
  | _ => true
  end.

(** The substitution of one character of a resource name. *)
Definition sanitize_char (c : N) : pystr :=
  if c =? 47 then []
  else if (c =? BACKSLASH) || (c =? 58) || (c =? 42) || (c =? 63)
          || (c =? DQUOTE) || (c =? 60) || (c =? 62) || (c =? 124)
       then py:"-"
       else [c].

(** The characters that begin an escape after a backslash in the
    [unicode_escape] codec. *)
Definition is_escape_letter (e : N) : bool :=
  (e =? LF) || (e =? BACKSLASH) || (e =? 39) || (e =? DQUOTE) || (e =? 98)
  || (e =? 102) || (e =? 116) || (e =? 110) || (e =? 114) || (e =? 118)
  || (e =? 97) || is_octal e || (e =? 120) || (e =? 117) || (e =? 85) || (e =? 78).

(** No backslash of [s] begins an escape sequence: each one is followed by a
    character that is no escape letter. *)
Fixpoint no_escape_sequence (s : pystr) : bool :=
  match s with
  | [] => true
  | c :: r =>
      if c =? BACKSLASH then
        match r with
        | [] => false
        | e :: _ => negb (is_escape_letter e) && no_escape_sequence r
        end
      else no_escape_sequence r
  end.

(** A string [clean] has nothing to rewrite in: Latin-1 only, no escape
    sequence, no placeholder delimiter and no carriage-return/line-feed
    pair. *)
Definition benign (s : pystr) : bool :=
  forallb (fun c => c <=? 255) s
  && no_escape_sequence s
  && negb (contains py:"{{" s)
  && negb (contains py:"}}" s)
  && negb (contains [CR; LF] s).

(** The test of line 22. *)
Definition quoted (s : pystr) : bool :=
  startswith [DQUOTE] s && endswith [DQUOTE] s.

Definition strip_quotes (s : pystr) : pystr :=
  if quoted s then slice_1_m1 s else s.

(** [m] has not run into the bound of a loop, and a result leaves fewer
    than [n] characters. *)
Definition consumes {X} (n : nat) (m : result (X * pystr)) : Prop :=
  match m with
  | Ok (_, r) => (length r < n)%nat
  | Raise e => e <> LoopBound
  end.

(** The start of a line at nesting depth [level] of an indented text: a
    line feed and two spaces for each level. *)
Definition indented_line (level : nat) : pystr := LF :: repeat SPACE (2 * level).

(** The re-serialization of a value with an indentation of two spaces, as
    the specification words it: the empty list and the empty object on one
    line; otherwise every element or member on a line of its own, one level
    deeper than the bracket, a comma at the end of each line but the last,
    the closing bracket on a line of its own at the level of the opening
    one; a colon and one space between a key and its value. *)
Fixpoint pretty (floatstr : pystr -> pystr) (level : nat) (v : json) : pystr :=
  match v with
  | JNull => py:"null"
  | JBool b => if b then py:"true" else py:"false"
  | JInt z => repr_int z
  | JFloat literal => floatstr literal
  | JStr s => encode_basestring_ascii s
  | JArr [] => py:"[]"
  | JArr (x :: xs) =>
      py:"[" ++ indented_line (S level) ++ pretty floatstr (S level) x
      ++ flat_map (fun y => py:"," ++ indented_line (S level)
                            ++ pretty floatstr (S level) y) xs
      ++ indented_line level ++ py:"]"
  | JObj [] => py:"{}"
  | JObj (m :: ms) =>
      py:"{" ++ indented_line (S level)
      ++ encode_basestring_ascii (fst m) ++ py:": " ++ pretty floatstr (S level) (snd m)
      ++ flat_map (fun kv : pystr * json =>
                     py:"," ++ indented_line (S level)
                     ++ encode_basestring_ascii (fst kv) ++ py:": "
                     ++ pretty floatstr (S level) (snd kv)) ms
      ++ indented_line level ++ py:"}"
  end.

(** One more decimal digit in front of [u]. *)
Definition cons_digit (k : N) (u : Decimal.uint) : Decimal.uint :=
  match k with
  | 0 => Decimal.D0 u | 1 => Decimal.D1 u | 2 => Decimal.D2 u | 3 => Decimal.D3 u
  | 4 => Decimal.D4 u | 5 => Decimal.D5 u | 6 => Decimal.D6 u | 7 => Decimal.D7 u
  | 8 => Decimal.D8 u | _ => Decimal.D9 u
  end.

(** The decimal number that the digit characters [ds] write. *)
Fixpoint uint_of_digits (ds : pystr) : Decimal.uint :=
  match ds with
  | [] => Decimal.Nil
  | c :: r => cons_digit (c - 48) (uint_of_digits r)
  end.

(** What [int_repr] counts: the text without its sign. *)
Definition unsigned_text (s : pystr) : pystr :=
  match s with
  | c :: d => if c =? 45 then d else s
  | [] => []
  end.

(** The encoder can print [v]: lists and objects nest [depth] deep at most
    and no integer has too many digits. *)
Fixpoint encodable (py : Interpreter) (depth : nat) (v : json) {struct v} : bool :=
  match v with
  | JInt z => negb (raises (int_repr py z))
  | JArr items =>
      match depth with
      | O => false
      | S d => forallb (encodable py d) items
      end
  | JObj members =>
      match depth with
      | O => false
      | S d => forallb (fun kv : pystr * json => encodable py d (snd kv)) members
      end
  | _ => true
  end.

(** An item whose first response carries a code, a status and a JSON
    body, and a second response that is not rendered. *)
Definition ping_item : Item :=
  {| item_name := py:"Ping";
     item_request := {| req_method := py:"GET";
                        req_url := {| url_raw := py:"{{host}}/ping";
                                      url_path := None; url_query := None |};
                        req_header := []; req_description := None;
                        req_body := Absent |};
     item_response :=
       [{| resp_code := Some 201%Z; resp_status := Some py:"Created";
           resp_body := Present (py:"{" ++ [DQUOTE] ++ py:"id" ++ [DQUOTE] ++ py:": 7}") |};
        {| resp_code := Some 500%Z; resp_status := None; resp_body := Null |}] |}.

Definition missing_body_warning : printed :=
  PrintStr py:"Warning - response body is missing".

(** An item with a name and a method only. *)
Definition bare_item (name method : pystr) : Item :=
  {| item_name := name;
     item_request := {| req_method := method;
                        req_url := {| url_raw := []; url_path := None;
                                      url_query := None |};
                        req_header := []; req_description := None;
                        req_body := Absent |};
     item_response := [] |}.

(** A variable that carries both fields. *)
Definition full_variable (kv : pystr * pystr) : Variable_ :=
  {| var_key := Some (fst kv); var_value := Some (snd kv) |}.

(** The table row of a key and a value. *)
Definition table_row (kv : pystr * pystr) : pystr :=
  py:"| " ++ fst kv ++ py:" | | " ++ snd kv ++ py:" |" ++ NL.

(** A variable with both of the fields that line 58 reads. *)
Definition complete_variable (v : Variable_) : bool :=
  match var_key v, var_value v with
  | Some _, Some _ => true
  | _, _ => false
  end.

(** A request with a method and a URL only, and no captured response. *)
Definition plain_item (name method url : pystr) : Item :=
  {| item_name := name;
     item_request := {| req_method := method;
                        req_url := {| url_raw := url; url_path := None;
                                      url_query := None |};
                        req_header := []; req_description := None;
                        req_body := Absent |};
     item_response := [] |}.

(** An interpreter with limits of the order of the defaults, a thousand
    levels of recursion less those in use and 4300 digits; it prints a float
    as its literal reads. *)
Definition sample_interpreter : Interpreter :=
  {| floatstr_of_literal := fun literal => literal;
     decoder_depth := 990; compact_encoder_depth := 990;
     indent_encoder_depth := 990; int_max_str_digits := 4300 |}.

Definition empty_world : World :=
  {| files := ∅; dirs := ∅; serial_num := 1; stdout := [] |}.

Definition users_v1 : Item := plain_item py:"Users" py:"GET" py:"{{host}}/v1/users".
Definition users_v2 : Item := plain_item py:"Users" py:"GET" py:"{{host}}/v2/users".
Definition users_v3 : Item := plain_item py:"Users" py:"GET" py:"{{host}}/v3/users".

Definition two_users : Collection :=
  {| variable := []; item := [users_v1; users_v2] |}.

Definition is_hex (c : N) : Prop := is_Some (hex_val c).

Definition is_simple_escape_letter (e : N) : bool :=
  (e =? DQUOTE) || (e =? BACKSLASH) || (e =? 110) || (e =? 114) || (e =? 116)
  || (e =? 102) || (e =? 98).

(** The texts the string encoder can print between the quotes. *)
Inductive escaped : pystr -> Prop :=
| escaped_nil : escaped []
| escaped_plain (c : N) (s : pystr) :
    (32 <=? c) && (c <=? 126) && negb (c =? DQUOTE) && negb (c =? BACKSLASH) = true ->
    escaped s -> escaped (c :: s)
| escaped_simple (e : N) (s : pystr) :
    is_simple_escape_letter e = true ->
    escaped s -> escaped (BACKSLASH :: e :: s)
| escaped_u (h1 h2 h3 h4 : N) (s : pystr) :
    is_hex h1 -> is_hex h2 -> is_hex h3 -> is_hex h4 ->
    escaped s -> escaped (BACKSLASH :: 117 :: h1 :: h2 :: h3 :: h4 :: s).

(** An interpreter that prints every float as [0.5]. *)
Definition half_interpreter : Interpreter :=
  {| floatstr_of_literal := fun _ => py:"0.5";
     decoder_depth := 990; compact_encoder_depth := 990;
     indent_encoder_depth := 990; int_max_str_digits := 4300 |}.

(** A POST request whose raw body is a JSON object with a placeholder. *)
Definition create_user : Item :=
  {| item_name := py:"Users";
     item_request :=
       {| req_method := py:"POST";
          req_url := {| url_raw := py:"{{host}}/users"; url_path := None;
                        url_query := None |};
          req_header := []; req_description := None;
          req_body := Present {| body_raw := Some (py:"{" ++ [DQUOTE] ++ py:"id"
                                                   ++ [DQUOTE] ++ py:": 7}") |} |};
     item_response := [] |}.

(** A POST request whose raw body is text, not JSON, that ends with
    U+1F600. *)
Definition greeting_raw : pystr := py:"hello " ++ [128512].

Definition post_greeting : Item :=
  {| item_name := py:"Greetings";
     item_request :=
       {| req_method := py:"POST";
          req_url := {| url_raw := py:"{{host}}/greetings"; url_path := None;
                        url_query := None |};
          req_header := []; req_description := None;
          req_body := Present {| body_raw := Some greeting_raw |} |};
     item_response := [] |}.

(** A document without variables: the greeting and a plain GET. *)
Definition greeting_then_users : Collection :=
  {| variable := []; item := [post_greeting; users_v1] |}.

(** A pair may stand before another: the other's key is not smaller. *)
Definition key_le {K A : Type} (ltb : K -> K -> bool) (x y : K * A) : Prop :=
  ltb (fst y) (fst x) = false.

(** A group is a non-empty run of elements that carry its key. *)
Definition group_ok {A : Type} (key : A -> pystr) (g : pystr * list A) : Prop :=
  snd g <> [] /\ Forall (fun x => key x = fst g) (snd g).

Section Artifacts.
Variable ucnhash_getcode : list N -> option N.
Variable py : Interpreter.
Variable working_dir : pystr.

(** The path an item is written to, and what is written there. *)
Definition path_of (it : Item) : pystr := output_path working_dir (item_name it) it.
Definition fragment (it : Item) : pystr :=
  resource_section ucnhash_getcode py it.

(** The files after the items [its] have been written in order, each
    under the name of its own resource. *)
Definition write_all (its : list Item) (m : gmap pystr pystr) : gmap pystr pystr :=
  fold_left (fun m it => <[path_of it := fragment it]> m) its m.

(** The last item of [its] that is written to [p]. *)
Definition last_writer (p : pystr) (its : list Item) : option Item :=
  List.find (fun it => str_eqb (path_of it) p) (rev its).
End Artifacts.

(** The inverse of [escape_markup]: a backslash before a bracket is
    dropped. *)
Fixpoint unescape_markup (s : pystr) : pystr :=
  match s with
  | [] => []
  | c :: r =>
      match r with
      | d :: r' =>
          if (c =? BACKSLASH) && is_markup_bracket d
          then d :: unescape_markup r'
          else c :: unescape_markup r
      | [] => [c]
      end
  end.

(** Every bracket of [s] stands right after a backslash. *)
Fixpoint brackets_guarded (after_backslash : bool) (s : pystr) : bool :=
  match s with
  | [] => true
  | c :: r =>
      (if is_markup_bracket c then after_backslash else true)
      && brackets_guarded (c =? BACKSLASH) r
  end.

(** The characters line 195 removes from a resource name. *)
Definition is_unsafe_char (c : N) : bool :=
  (c =? 47) || (c =? BACKSLASH) || (c =? 58) || (c =? 42) || (c =? 63)
  || (c =? DQUOTE) || (c =? 60) || (c =? 62) || (c =? 124).

(** The characters [encode_full_url] does not leave as they are. *)
Definition is_url_special (c : N) : bool :=
  is_space c || is_url_reserved c || (c =? 37).

(** The directory the artifacts are written to, lines 188 and 199. *)
Definition generated_dir (working_dir : pystr) : pystr :=
  path_join working_dir output_dir.

(** [print(x)] does not raise. *)
Definition printable (x : printed) : bool :=
  match x with
  | PrintStr s => utf8_encodable s
  | PrintResponse _ => true
  end.

(** Among the directories [ds], [p] can be opened for writing and [text]
    can be written to it. *)
Definition write_ok (ds : gset pystr) (p text : pystr) : bool :=
  negb (has_nul p) && negb (bool_decide (p ∈ ds)) && parent_exists ds p
  && utf8_encodable text.

(** Something exists at [out], or a directory can be created there. *)
Definition dir_ready (w : World) (out : pystr) : bool :=
  path_exists w out || (negb (has_nul out) && parent_exists (dirs w) out).

(** The directories once line 189 has been passed. *)
Definition dirs_with (w : World) (out : pystr) : gset pystr :=
  if path_exists w out then dirs w else {[out]} ∪ dirs w.

Section Completion.
Variable ucnhash_getcode : list N -> option N.
Variable py : Interpreter.
Variable working_dir : pystr.

(** Among the directories [ds], the lines an item prints can be printed and
    its fragment can be written under the resource name [name]. *)
Definition emits_as (ds : gset pystr) (name : pystr) (it : Item) : bool :=
  printable (PrintStr (9 :: py:" Processing " ++ req_method (item_request it)))
  && forallb printable (snd (gen_request_section ucnhash_getcode py it))
  && forallb printable (snd (gen_response_section py it))
  && write_ok ds (output_path working_dir name it) (fragment ucnhash_getcode py it).

Definition group_emits (ds : gset pystr) (g : pystr * list Item) : bool :=
  printable (PrintStr (py:"Exporting: " ++ fst g))
  && forallb (emits_as ds (fst g)) (snd g).

(** The same for an item under its own name, with the line that announces
    its resource. *)
Definition item_emits (ds : gset pystr) (it : Item) : bool :=
  printable (PrintStr (py:"Exporting: " ++ item_name it))
  && emits_as ds (item_name it) it.

(** Nothing stops the run: every variable has its key and its value and,
    if there is an item at all, the output directory is there or can be
    created and every item can be printed and written. *)
Definition run_completes (input : Collection) (w : World) : bool :=
  forallb complete_variable (variable input)
  && match item input with
     | [] => true
     | _ :: _ =>
         dir_ready w (generated_dir working_dir)
         && forallb (item_emits (dirs_with w (generated_dir working_dir))) (item input)
     end.
End Completion.

(** The UTF-16 code units of a code point: what [json.dumps] writes its
    [\u] escapes for. *)
Definition utf16_units (c : N) : pystr :=
  if c <? 65536 then [c]
  else [N.lor 55296 (N.land (N.shiftr (c - 65536) 10) 1023);
        N.lor 56320 (N.land (c - 65536) 1023)].

(** The three replacements of line 21. *)
Definition placeholders_rewritten (s : pystr) : pystr :=
  replace [CR; LF] [] (replace py:"}}" [] (replace py:"{{" py:"$" s)).

(** No character of [s] is a backslash. *)
Definition no_backslash (s : pystr) : Prop :=
  Forall (fun c => (c =? BACKSLASH) = false) s.

(** Printable ASCII, or the line feed the indenting encoder puts in. *)
Definition is_plain_text (c : N) : bool := ((32 <=? c) && (c <=? 126)) || (c =? LF).

Definition plain_text (s : pystr) : bool := forallb is_plain_text s.

(** * Properties *)

(** ** Results *)

Lemma bind_Ok {A B} (m : result A) (f : A -> result B) (b : B) :
  m ≫= f = Ok b -> exists a, m = Ok a /\ f a = Ok b.
Proof. destruct m as [a|e]; [intros H; exists a; auto | discriminate]. Qed.

Lemma Ok_inj {A} (a b : A) : Ok a = Ok b -> a = b.
Proof. intros H. injection H as H. exact H. Qed.

Lemma raises_bind {A B} (m : result A) (f : A -> result B) :
  raises (m ≫= f) = match m with Ok a => raises (f a) | Raise _ => true end.
Proof. destruct m; reflexivity. Qed.

(** ** Strings *)

Lemma str_eqb_eq (a b : pystr) : str_eqb a b = true <-> a = b.
Proof.
  revert b; induction a as [|x a IH]; intros [|y b]; simpl; try easy.
  rewrite andb_true_iff, N.eqb_eq, IH. split.
  - intros [-> ->]; reflexivity.
  - intros [= -> ->]; auto.
Qed.

Lemma str_eqb_refl (a : pystr) : str_eqb a a = true.
Proof. apply str_eqb_eq; reflexivity. Qed.

Lemma str_eqb_neq (a b : pystr) : str_eqb a b = false <-> a <> b.
Proof.
  rewrite <- str_eqb_eq. destruct (str_eqb a b); split; congruence.
Qed.

(** Replacing a single character is a character-wise substitution. *)
Lemma replace_single (c : N) (new s : pystr) :
  replace [c] new s = flat_map (fun x => if x =? c then new else [x]) s.
Proof.
  unfold replace. induction s as [|x s IH]; simpl; [reflexivity|].
  rewrite (N.eqb_sym c x). destruct (x =? c); simpl; rewrite IH; reflexivity.
Qed.

Lemma Forall_flat_map {A B} (P : B -> Prop) (f : A -> list B) (l : list A) :
  (forall x, In x l -> Forall P (f x)) -> Forall P (flat_map f l).
Proof.
  induction l as [|x l IH]; simpl; intros H; [constructor|].
  apply Forall_app; split; [apply H; auto | apply IH; auto].
Qed.

Lemma Forall_replace_from (P : N -> Prop) (old new : pystr) (k : nat) (s : pystr) :
  Forall P new -> Forall P s -> Forall P (replace_from old new k s).
Proof.
  intros Hnew Hs; revert k. induction Hs as [|x s Hx Hs IH]; intros k; simpl.
  - constructor.
  - destruct k; [|apply IH].
    destruct (startswith old (x :: s)).
    + apply Forall_app; split; [assumption | apply IH].
    + constructor; [assumption | apply IH].
Qed.

(** ** URL encoding *)

Ltac case_chars x :=
  repeat match goal with
         | |- context [x =? ?k] =>
             destruct (N.eqb_spec x k) as [->|?]; [vm_compute; try reflexivity|]
         end.

Lemma percent_chain (x : N) :
  flat_map (fun x => if x =? 93 then py:"%5D" else [x])
   (flat_map (fun x => if x =? 91 then py:"%5B" else [x])
    (flat_map (fun x => if x =? 32 then py:"%20" else [x])
     (flat_map (fun x => if x =? DQUOTE then py:"%22" else [x])
      (flat_map (fun x => if x =? 125 then py:"%7D" else [x])
       (flat_map (fun x => if x =? 123 then py:"%7B" else [x])
        (flat_map (fun x => if x =? 39 then py:"%27" else [x])
         (if x =? 37 then py:"%25" else [x])))))))
  = percent_encode x.
Proof.
  unfold percent_encode, DQUOTE, SPACE.
  destruct (N.eqb_spec x 37) as [->|H37]; [reflexivity|].
  cbn [flat_map app].
  destruct (N.eqb_spec x 39) as [->|H39]; [reflexivity|].
  cbn [flat_map app].
  destruct (N.eqb_spec x 123) as [->|H123]; [reflexivity|].
  cbn [flat_map app].
  destruct (N.eqb_spec x 125) as [->|H125]; [reflexivity|].
  cbn [flat_map app].
  destruct (N.eqb_spec x 34) as [->|H34]; [reflexivity|].
  cbn [flat_map app].
  destruct (N.eqb_spec x 32) as [->|H32]; [reflexivity|].
  cbn [flat_map app].
  destruct (N.eqb_spec x 91) as [->|H91]; [reflexivity|].
  cbn [flat_map app].
  destruct (N.eqb_spec x 93) as [->|H93]; reflexivity.
Qed.

Lemma encode_full_url_charwise (url : pystr) :
  encode_full_url url = flat_map percent_encode (dollar_form (re_sub_spaces url)).
Proof.
  unfold encode_full_url, dollar_form.
  change (py:"]") with [93]; change (py:"[") with [91]; change (py:" ") with [32];
  change (py:"}") with [125]; change (py:"{") with [123]; change (py:"'") with [39];
  change (py:"%") with [37].
  rewrite !replace_single.
  induction (replace py:"}}" [] (replace py:"{{" py:"$" (re_sub_spaces url)))
    as [|x l IH]; [reflexivity|].
  cbn [flat_map]. rewrite !flat_map_app, IH. f_equal. apply percent_chain.
Qed.

Lemma collapse_ws_spaces (b : bool) (s : pystr) :
  Forall (fun c => is_space c = true -> c = SPACE) (collapse_ws b s).
Proof.
  revert b; induction s as [|c s IH]; intros b; simpl; [constructor|].
  destruct (is_space c) eqn:E.
  - destruct b; [apply IH|]. constructor; [reflexivity | apply IH].
  - constructor; [congruence | apply IH].
Qed.

Lemma collapse_ws_no_runs (b : bool) (s : pystr) :
  no_ws_after_space (collapse_ws b s) = true
  /\ (b = true -> forall d r, collapse_ws b s = d :: r -> is_space d = false).
Proof.
  revert b; induction s as [|c s IH]; intros b; simpl.
  - split; [reflexivity | discriminate].
  - destruct (is_space c) eqn:E.
    + destruct b.
      * apply IH.
      * split; [|discriminate].
        destruct (IH true) as [IH1 IH2].
        destruct (collapse_ws true s) as [|d r] eqn:Er; [reflexivity|].
        cbn [no_ws_after_space]. rewrite (IH2 eq_refl d r eq_refl).
        rewrite andb_false_r. exact IH1.
    + destruct (IH false) as [IH1 _]. split.
      * destruct (collapse_ws false s) as [|d r] eqn:Er; [reflexivity|].
        cbn [no_ws_after_space].
        assert ((c =? SPACE) = false) as ->.
        { apply N.eqb_neq; intros ->; discriminate. }
        exact IH1.
      * intros _ d r [= <- <-]; exact E.
Qed.

Lemma collapse_ws_keeps (b : bool) (s : pystr) :
  List.filter (fun c => negb (is_space c)) (collapse_ws b s)
  = List.filter (fun c => negb (is_space c)) s.
Proof.
  revert b; induction s as [|c s IH]; intros b; [reflexivity|].
  cbn [collapse_ws List.filter]. destruct (is_space c) eqn:E; cbn [negb].
  - destruct b; [apply IH|]. cbn [List.filter].
    change (is_space SPACE) with true. cbn [negb]. apply IH.
  - cbn [List.filter]. rewrite E. cbn [negb]. rewrite IH. reflexivity.
Qed.

Lemma percent_encode_clean (x : N) :
  (is_space x = true -> x = SPACE) ->
  Forall (fun c => is_space c = false /\ is_url_reserved c = false) (percent_encode x).
Proof.
  intros Hsp. unfold percent_encode, DQUOTE, SPACE.
  case_chars x; try (repeat constructor; fail).
  constructor; [|constructor]. split.
  - destruct (is_space x) eqn:E; [|reflexivity]. specialize (Hsp eq_refl).
    unfold SPACE in Hsp; congruence.
  - unfold is_url_reserved, DQUOTE.
    repeat match goal with
           | H : x <> ?k |- _ => apply N.eqb_neq in H; rewrite ?H; clear H
           end.
    reflexivity.
Qed.

(** ** File-safe names *)

Lemma sanitize_chain (x : N) :
  flat_map (fun x => if x =? 124 then py:"-" else [x])
   (flat_map (fun x => if x =? 62 then py:"-" else [x])
    (flat_map (fun x => if x =? 60 then py:"-" else [x])
     (flat_map (fun x => if x =? DQUOTE then py:"-" else [x])
      (flat_map (fun x => if x =? 63 then py:"-" else [x])
       (flat_map (fun x => if x =? 42 then py:"-" else [x])
        (flat_map (fun x => if x =? 58 then py:"-" else [x])
         (flat_map (fun x => if x =? BACKSLASH then py:"-" else [x])
          (if x =? 47 then [] else [x]))))))))
  = sanitize_char x.
Proof.
  unfold sanitize_char, DQUOTE, BACKSLASH.
  destruct (N.eqb_spec x 47) as [->|?]; [reflexivity|]. cbn [flat_map app].
  destruct (N.eqb_spec x 92) as [->|?]; [reflexivity|]. cbn [flat_map app orb].
  destruct (N.eqb_spec x 58) as [->|?]; [reflexivity|]. cbn [flat_map app orb].
  destruct (N.eqb_spec x 42) as [->|?]; [reflexivity|]. cbn [flat_map app orb].
  destruct (N.eqb_spec x 63) as [->|?]; [reflexivity|]. cbn [flat_map app orb].
  destruct (N.eqb_spec x 34) as [->|?]; [reflexivity|]. cbn [flat_map app orb].
  destruct (N.eqb_spec x 60) as [->|?]; [reflexivity|]. cbn [flat_map app orb].
  destruct (N.eqb_spec x 62) as [->|?]; [reflexivity|]. cbn [flat_map app orb].
  destruct (N.eqb_spec x 124) as [->|?]; reflexivity.
Qed.

Lemma safe_name_charwise (name : pystr) :
  safe_name name = flat_map sanitize_char name.
Proof.
  unfold safe_name.
  change (py:"|") with [124]; change (py:">") with [62]; change (py:"<") with [60];
  change (py:"?") with [63]; change (py:"*") with [42]; change (py:":") with [58];
  change (py:"/") with [47].
  rewrite !replace_single.
  induction name as [|x l IH]; [reflexivity|].
  cbn [flat_map]. rewrite !flat_map_app, IH. f_equal. apply sanitize_chain.
Qed.

Lemma Forall_dollar_form (P : N -> Prop) (s : pystr) :
  P 36 -> Forall P s -> Forall P (dollar_form s).
Proof.
  intros H36 Hs. unfold dollar_form, replace; cbn [s2p].
  apply Forall_replace_from; [constructor|].
  apply Forall_replace_from; [repeat constructor; exact H36 | exact Hs].
Qed.

(** C3: [encode_full_url] first collapses white space (what is left of a
    run is one space, the other characters stay) and rewrites the
    placeholders, and its eight replacements then act as one percent-encoding
    of every character ([%] is replaced first, so the [%XX] that the later
    replacements bring in are never encoded again); the result holds no white
    space, brace, bracket or quote, and ["{{base}}/a b"] becomes
    ["$base/a%20b"]. *)
Theorem encode_full_url_spec (url : pystr) :
  encode_full_url url = flat_map percent_encode (dollar_form (re_sub_spaces url))
  /\ Forall (fun c => is_space c = true -> c = SPACE) (re_sub_spaces url)
  /\ no_ws_after_space (re_sub_spaces url) = true
  /\ List.filter (fun c => negb (is_space c)) (re_sub_spaces url)
     = List.filter (fun c => negb (is_space c)) url
  /\ Forall (fun c => is_space c = false /\ is_url_reserved c = false)
            (encode_full_url url)
  /\ contains py:"{{" (encode_full_url url) = false
  /\ contains py:"}}" (encode_full_url url) = false
  /\ encode_full_url py:"{{base}}/a b" = py:"$base/a%20b".
Proof.
  assert (Hall : Forall (fun c => is_space c = false /\ is_url_reserved c = false)
                        (encode_full_url url)).
  { rewrite encode_full_url_charwise. apply Forall_flat_map. intros x Hx.
    apply percent_encode_clean.
    revert x Hx. apply (proj1 (List.Forall_forall (fun c => is_space c = true -> c = SPACE) _)).
    apply Forall_dollar_form; [discriminate|].
    apply collapse_ws_spaces. }
  assert (Hno : forall c p, is_url_reserved c = true ->
                  contains (c :: p) (encode_full_url url) = false).
  { intros c p Hc. induction Hall as [|x l [_ Hx] _ IH]; [reflexivity|].
    cbn [contains startswith]. rewrite IH, orb_false_r.
    destruct (N.eqb_spec c x) as [->|_]; [congruence | reflexivity]. }
  split; [apply encode_full_url_charwise|].
  split; [apply collapse_ws_spaces|].
  split; [apply (collapse_ws_no_runs false)|].
  split; [apply collapse_ws_keeps|].
  split; [exact Hall|].
  split; [apply Hno; reflexivity|].
  split; [apply Hno; reflexivity | reflexivity].
Qed.

(** C4, as the code has it: the file-safe name drops every [/] and puts a [-]
    for each of the eight other characters, so [A/B:C*D] becomes [AB-C-D]. *)
Theorem safe_name_example :
  (forall name, safe_name name = flat_map sanitize_char name)
  /\ safe_name py:"A/B:C*D" = py:"AB-C-D".
Proof. split; [apply safe_name_charwise | reflexivity]. Qed.

(** C4, as the specification words it, fails: the colon is replaced, not
    deleted. *)
Lemma safe_name_example_differs :
  safe_name py:"A/B:C*D" = py:"AB-C-D" /\ safe_name py:"A/B:C*D" <> py:"ABC-D".
Proof. split; [reflexivity | discriminate]. Qed.

(** ** Placeholder rewriting *)

Lemma unicode_escape_verbatim (g : list N -> option N) (c : N) (r : list N) :
  (c =? BACKSLASH) = false ->
  unicode_escape_from g UNormal (c :: r) = rcons c (unicode_escape_from g UNormal r).
Proof. intros H. cbn [unicode_escape_from]. rewrite H. reflexivity. Qed.

Lemma unicode_escape_unknown (g : list N -> option N) (e : N) (r : list N) :
  is_escape_letter e = false ->
  unicode_escape_from g UNormal (BACKSLASH :: e :: r)
  = rcons BACKSLASH (rcons e (unicode_escape_from g UNormal r)).
Proof.
  unfold is_escape_letter. intros H.
  repeat (apply orb_false_iff in H as [H ?]).
  cbn [unicode_escape_from]. change (BACKSLASH =? BACKSLASH) with true. cbn [negb].
  repeat match goal with
         | E : _ = false |- _ => rewrite E; clear E
         end.
  reflexivity.
Qed.

Lemma is_escape_letter_backslash (e : N) :
  is_escape_letter e = false -> (e =? BACKSLASH) = false.
Proof.
  unfold is_escape_letter. intros H. repeat (apply orb_false_iff in H as [H ?]).
  assumption.
Qed.

Lemma unicode_escape_no_sequence (g : list N -> option N) (b : list N) :
  no_escape_sequence b = true -> unicode_escape_from g UNormal b = Ok b.
Proof.
  induction b as [|c r IH]; [reflexivity|]. cbn [no_escape_sequence].
  destruct (c =? BACKSLASH) eqn:E.
  - apply N.eqb_eq in E. subst c. destruct r as [|e r']; [discriminate|].
    intros H. apply andb_true_iff in H as [He Hr]. apply negb_true_iff in He.
    rewrite (unicode_escape_unknown g e r' He).
    rewrite <- (unicode_escape_verbatim g e r' (is_escape_letter_backslash e He)).
    rewrite (IH Hr). reflexivity.
  - intros H. rewrite (unicode_escape_verbatim g c r E), (IH H). reflexivity.
Qed.

Lemma no_escape_sequence_before_quote (l : pystr) :
  no_escape_sequence (l ++ [DQUOTE]) = true -> no_escape_sequence l = true.
Proof.
  induction l as [|c l IH]; [reflexivity|]. cbn [app no_escape_sequence].
  destruct (c =? BACKSLASH); [|exact IH].
  destruct l as [|e l']; [discriminate|]. cbn [app].
  intros H. apply andb_true_iff in H as [-> H]. apply IH, H.
Qed.

Lemma endswith_quote (s : pystr) :
  endswith [DQUOTE] s = true -> exists l, s = l ++ [DQUOTE].
Proof.
  unfold endswith. cbn [rev app]. intros H.
  destruct (rev s) as [|c l'] eqn:E; [discriminate|].
  cbn [startswith] in H. rewrite andb_true_r in H. apply N.eqb_eq in H. subst c.
  exists (rev l'). rewrite <- (rev_involutive s), E. reflexivity.
Qed.

Lemma no_escape_sequence_slice (s : pystr) :
  startswith [DQUOTE] s = true -> endswith [DQUOTE] s = true ->
  no_escape_sequence s = true -> no_escape_sequence (slice_1_m1 s) = true.
Proof.
  intros Hs He Hn. destruct (endswith_quote s He) as [l ->].
  unfold slice_1_m1. destruct l as [|c l]; [reflexivity|].
  cbn [app startswith] in Hs. rewrite andb_true_r in Hs. apply N.eqb_eq in Hs.
  subst c. cbn [app tl]. rewrite removelast_last.
  apply no_escape_sequence_before_quote. exact Hn.
Qed.

Lemma replace_absent (old new s : pystr) :
  old <> [] -> contains old s = false -> replace old new s = s.
Proof.
  intros Hold. unfold replace. destruct old as [|o old']; [congruence|].
  induction s as [|c r IH]; [reflexivity|].
  intros H. apply orb_false_iff in H as [H1 H2].
  cbn [replace_from]. rewrite H1, (IH H2). reflexivity.
Qed.

Lemma startswith_removelast (p s : pystr) :
  startswith p (removelast s) = true -> startswith p s = true.
Proof.
  revert s; induction p as [|a p IH]; intros s; [reflexivity|].
  destruct s as [|b s]; [discriminate|].
  destruct s as [|b' s]; [discriminate|].
  change (removelast (b :: b' :: s)) with (b :: removelast (b' :: s)).
  cbn [startswith]. rewrite !andb_true_iff. intros [-> H]. split; [reflexivity|].
  apply IH, H.
Qed.

Lemma contains_removelast (p s : pystr) :
  contains p s = false -> contains p (removelast s) = false.
Proof.
  induction s as [|c r IH]; [auto|].
  intros H. apply orb_false_iff in H as [H1 H2].
  destruct r as [|c' r].
  - cbn. destruct p; [discriminate H1 | reflexivity].
  - change (removelast (c :: c' :: r)) with (c :: removelast (c' :: r)).
    cbn [contains]. apply orb_false_iff; split; [|apply IH, H2].
    destruct (startswith p (c :: removelast (c' :: r))) eqn:E; [|reflexivity].
    apply (startswith_removelast p (c :: c' :: r)) in E. congruence.
Qed.

Lemma contains_tl (p s : pystr) :
  contains p s = false -> contains p (tl s) = false.
Proof.
  destruct s as [|c r]; [auto|]. intros H. apply orb_false_iff in H as [_ H].
  exact H.
Qed.

Lemma forallb_removelast {A} (f : A -> bool) (l : list A) :
  forallb f l = true -> forallb f (removelast l) = true.
Proof.
  induction l as [|x l IH]; [auto|]. destruct l as [|y l]; [reflexivity|].
  change (removelast (x :: y :: l)) with (x :: removelast (y :: l)).
  change (forallb f (x :: y :: l)) with (f x && forallb f (y :: l)).
  change (forallb f (x :: removelast (y :: l)))
    with (f x && forallb f (removelast (y :: l))).
  intros H. apply andb_true_iff in H as [-> H]. apply IH, H.
Qed.

Lemma forallb_tl {A} (f : A -> bool) (l : list A) :
  forallb f l = true -> forallb f (tl l) = true.
Proof.
  destruct l as [|x l]; [auto|]. cbn. rewrite andb_true_iff. intros [_ H]; exact H.
Qed.

Lemma benign_parts (s : pystr) :
  benign s = true ->
  forallb (fun c => c <=? 255) s = true /\ no_escape_sequence s = true
  /\ contains py:"{{" s = false /\ contains py:"}}" s = false
  /\ contains [CR; LF] s = false.
Proof.
  unfold benign. rewrite !andb_true_iff, !negb_true_iff. tauto.
Qed.

Lemma clean_benign (g : list N -> option N) (s : pystr) :
  benign s = true -> clean g s = Ok (strip_quotes s).
Proof.
  intros H. apply benign_parts in H as (H1 & H2 & H3 & H4 & H5).
  unfold clean, encode_latin1. rewrite H1. cbn [mbind result_bind].
  unfold decode_unicode_escape. rewrite (unicode_escape_no_sequence g s H2).
  cbn [mbind result_bind].
  rewrite (replace_absent py:"{{" py:"$" s) by (discriminate || exact H3).
  rewrite (replace_absent py:"}}" [] s) by (discriminate || exact H4).
  rewrite (replace_absent [CR; LF] [] s) by (discriminate || exact H5).
  unfold strip_quotes, quoted. destruct (startswith [DQUOTE] s && endswith [DQUOTE] s);
    reflexivity.
Qed.

Lemma benign_strip_quotes (s : pystr) :
  benign s = true -> benign (strip_quotes s) = true.
Proof.
  intros H. unfold strip_quotes. destruct (quoted s) eqn:Hq; [|exact H].
  apply benign_parts in H as (H1 & H2 & H3 & H4 & H5).
  apply andb_true_iff in Hq as [Hq1 Hq2].
  pose proof (no_escape_sequence_slice s Hq1 Hq2 H2) as H2'.
  unfold benign. rewrite H2'. unfold slice_1_m1.
  rewrite (forallb_removelast _ _ (forallb_tl _ _ H1)).
  rewrite !(contains_removelast _ _ (contains_tl _ _ H3)).
  rewrite !(contains_removelast _ _ (contains_tl _ _ H4)).
  rewrite !(contains_removelast _ _ (contains_tl _ _ H5)).
  reflexivity.
Qed.

(** C6, as the code has it: on a Latin-1 string with no escape sequence, no
    [{{], no [}}] and no carriage-return/line-feed pair, [clean] returns the
    string itself, or the string without its first and last character when it
    starts and ends with a double quote; cleaning such a result again changes
    nothing unless the result is itself in quotes. *)
Theorem clean_benign_spec (g : list N -> option N) (s : pystr) :
  benign s = true ->
  clean g s = Ok (strip_quotes s)
  /\ (quoted s = false -> clean g s = Ok s)
  /\ benign (strip_quotes s) = true
  /\ (quoted (strip_quotes s) = false -> (clean g s ≫= clean g) = clean g s).
Proof.
  intros H. pose proof (clean_benign g s H) as Hc.
  pose proof (benign_strip_quotes s H) as Hb.
  split; [exact Hc|]. split.
  - intros Hq. rewrite Hc. unfold strip_quotes. rewrite Hq. reflexivity.
  - split; [exact Hb|]. intros Hq. rewrite Hc. cbn [mbind result_bind].
    rewrite (clean_benign g _ Hb). unfold strip_quotes at 1. rewrite Hq.
    reflexivity.
Qed.

Lemma clean_benign_spec_witness :
  benign py:"GET /users" = true
  /\ clean (fun _ => None) py:"GET /users" = Ok py:"GET /users".
Proof.
  split; [reflexivity|].
  exact (proj1 (clean_benign_spec (fun _ => None) py:"GET /users" eq_refl)).
Defined.

(** C6, as the specification words it, fails three ways: a
    carriage-return/line-feed pair is deleted although the string holds no
    placeholder and no backslash; a character above U+00FF makes [clean]
    raise; and on a string in two pairs of quotes a second [clean] strips a
    second pair. *)
Lemma clean_benign_counterexample :
  (contains py:"{{" [97; CR; LF; 98] = false
   /\ contains py:"}}" [97; CR; LF; 98] = false
   /\ no_escape_sequence [97; CR; LF; 98] = true
   /\ quoted [97; CR; LF; 98] = false
   /\ clean (fun _ => None) [97; CR; LF; 98] = Ok py:"ab")
  /\ (contains py:"{{" [8364] = false
      /\ contains py:"}}" [8364] = false
      /\ no_escape_sequence [8364] = true
      /\ clean (fun _ => None) [8364] = Raise UnicodeEncodeError)
  /\ (benign [DQUOTE; DQUOTE; 97; DQUOTE; DQUOTE] = true
      /\ clean (fun _ => None) [DQUOTE; DQUOTE; 97; DQUOTE; DQUOTE]
         = Ok [DQUOTE; 97; DQUOTE]
      /\ clean (fun _ => None) [DQUOTE; 97; DQUOTE] = Ok [97]).
Proof. repeat split; reflexivity. Qed.

(** C9: a character above U+00FF makes [clean] raise the encoding error of
    its first step; U+20AC is one. *)
Theorem clean_raises_outside_latin1 (g : list N -> option N) :
  (exists s, Exists (fun c => 255 < c) s /\ clean g s = Raise UnicodeEncodeError)
  /\ (forall s, forallb (fun c => c <=? 255) s = false ->
                clean g s = Raise UnicodeEncodeError).
Proof.
  split.
  - exists [8364]. split; [constructor; reflexivity | reflexivity].
  - intros s H. unfold clean, encode_latin1. rewrite H. reflexivity.
Qed.

Lemma clean_raises_outside_latin1_witness :
  clean (fun _ => None) [8364] = Raise UnicodeEncodeError.
Proof.
  exact (proj2 (clean_raises_outside_latin1 (fun _ => None)) [8364] eq_refl).
Defined.

(** ** The bound of the scanner's loops

    A list or an object has fewer elements than characters, so the loops of
    the scanner never reach their bound: [LoopBound] is never raised. *)

Lemma consumes_mono {X} (n n' : nat) (m : result (X * pystr)) :
  consumes n m -> (n <= n')%nat -> consumes n' m.
Proof. destruct m as [[x r]|e]; cbn; [lia | auto]. Qed.

Lemma consumes_push_char (n : nat) (c : N) (m : result (pystr * pystr)) :
  consumes n m -> consumes n (push_char c m).
Proof. destruct m as [[x r]|e]; cbn; auto. Qed.

Lemma skip_ws_length (s : pystr) : (length (skip_ws s) <= length s)%nat.
Proof.
  induction s as [|c r IH]; cbn [skip_ws]; [lia|].
  destruct (is_json_ws c); cbn [length]; lia.
Qed.

Lemma scanstring_from_consumes (s : pystr) (k : nat) :
  consumes (length s) (scanstring_from k s).
Proof.
  revert k; induction s as [|c r IH]; intros k; [cbn; discriminate|].
  assert (Hrec : forall j x, consumes (length (c :: r)) (push_char x (scanstring_from j r))).
  { intros j x. apply consumes_push_char. eapply consumes_mono; [apply IH|cbn; lia]. }
  cbn [scanstring_from]. destruct k as [|k].
  2: { eapply consumes_mono; [apply IH | cbn; lia]. }
  destruct (c =? DQUOTE); [cbn; lia|].
  destruct (c =? BACKSLASH).
  - destruct r as [|e r']; [cbn; discriminate|].
    destruct (e =? 117).
    + destruct (hex_digits 4 0 r'); [|cbn; discriminate].
      destruct (is_high_surrogate n && startswith [BACKSLASH; 117] (skipn 4 r'));
        [|apply Hrec].
      destruct (hex_digits 4 0 (skipn 6 r')); [|cbn; discriminate].
      destruct (is_low_surrogate n0); apply Hrec.
    + destruct (json_simple_escape e); [|cbn; discriminate].
      change (scanstring_from 0 r') with (scanstring_from 1 (e :: r')). apply Hrec.
  - destruct (c <=? 31); [cbn; discriminate | apply Hrec].
Qed.

Lemma span_digits_length (s : pystr) :
  (length (snd (span_digits s)) <= length s)%nat.
Proof.
  induction s as [|c r IH]; cbn [span_digits]; [cbn; lia|].
  destruct (is_digit c); [|cbn; lia].
  destruct (span_digits r) as [d rest]. cbn [snd length] in *. lia.
Qed.

Lemma match_integer_length (s i r : pystr) :
  match_integer s = Some (i, r) -> (length r < length s)%nat.
Proof.
  unfold match_integer.
  assert (Hd : forall sign s1, (length s1 <= length s)%nat ->
            match s1 with
            | [] => None
            | c :: r0 =>
                if c =? 48 then Some (sign ++ [c], r0)
                else if is_digit c
                     then let '(d, rest) := span_digits r0 in Some (sign ++ c :: d, rest)
                     else None
            end = Some (i, r) -> (length r < length s)%nat).
  { intros sign [|c r0] Hl; [discriminate|]. cbn [length] in Hl.
    destruct (c =? 48); [intros [= _ <-]; lia|].
    destruct (is_digit c); [|discriminate].
    pose proof (span_digits_length r0) as Hs.
    destruct (span_digits r0) as [d rest]. cbn [snd] in Hs.
    intros [= _ <-]. lia. }
  destruct s as [|c0 s0]; [discriminate|].
  destruct (c0 =? 45); [apply (Hd [45] s0); cbn; lia | apply (Hd [] (c0 :: s0)); lia].
Qed.

Lemma match_frac_length (s : pystr) :
  (length (snd (match_frac s)) <= length s)%nat.
Proof.
  destruct s as [|c t]; [cbn; lia|]. unfold match_frac.
  destruct (c =? 46); [|cbn; lia].
  pose proof (span_digits_length t) as Hs.
  destruct (span_digits t) as [[|d0 d] rest]; cbn [snd length] in *; lia.
Qed.

Lemma match_exp_length (s : pystr) :
  (length (snd (match_exp s)) <= length s)%nat.
Proof.
  destruct s as [|e t]; [cbn; lia|]. unfold match_exp.
  destruct ((e =? 101) || (e =? 69)); [|cbn; lia].
  assert (Hs : forall sign r1, (length r1 <= length t)%nat ->
            (length (snd (match span_digits r1 with
                          | ([], _) => ([], e :: t)
                          | (d, rest) => (e :: sign ++ d, rest)
                          end)) <= length (e :: t))%nat).
  { intros sign r1 Hl. pose proof (span_digits_length r1) as Hs.
    destruct (span_digits r1) as [[|d0 d] rest]; cbn [snd length] in *; lia. }
  destruct t as [|c t']; [apply (Hs [] []); cbn; lia|].
  destruct ((c =? 45) || (c =? 43));
    [apply (Hs [c] t'); cbn; lia | apply (Hs [] (c :: t')); lia].
Qed.

Lemma match_number_length (py : Interpreter) (s : pystr)
    (res : result (json * pystr)) :
  match_number py s = Some res -> consumes (length s) res.
Proof.
  unfold match_number.
  destruct (match_integer s) as [[integer r1]|] eqn:Ei; [|discriminate].
  pose proof (match_integer_length _ _ _ Ei) as H1.
  pose proof (match_frac_length r1) as H2.
  destruct (match_frac r1) as [frac r2]. pose proof (match_exp_length r2) as H3.
  destruct (match_exp r2) as [exp r3]. cbn [snd] in *.
  destruct frac, exp; try (intros [= <-]; cbn [consumes]; lia).
  match goal with
  | |- context [let '(_, _) := ?x in _] => destruct x as [negative digits]
  end.
  destruct (int_too_long py (length digits));
    intros [= <-]; cbn [consumes]; [discriminate | lia].
Qed.

Section LoopBounds.
Variable scan : pystr -> result (json * pystr).
Hypothesis scan_consumes : forall s, consumes (length s) (scan s).

Lemma array_loop_consumes (fuel : nat) (s : pystr) (acc : list json) :
  (length s < fuel)%nat ->
  consumes (S (length s)) (array_loop scan fuel s acc).
Proof.
  revert s acc; induction fuel as [|n IH]; intros s acc Hf; [lia|].
  cbn [array_loop]. pose proof (scan_consumes s) as Hs.
  destruct (scan s) as [[v r]|e]; cbn [mbind result_bind]; [|exact Hs].
  cbn [consumes] in Hs. pose proof (skip_ws_length r) as Hw.
  destruct (skip_ws r) as [|c r2]; [cbn; discriminate|]. cbn [length] in Hw.
  destruct (c =? 93); [cbn; lia|].
  destruct (c =? 44); [|cbn; discriminate].
  pose proof (skip_ws_length r2) as Hw2.
  eapply consumes_mono; [apply IH; lia | lia].
Qed.

Lemma object_loop_consumes (fuel : nat) (s : pystr) (acc : list (pystr * json)) :
  (length s < fuel)%nat ->
  consumes (S (length s)) (object_loop scan fuel s acc).
Proof.
  revert s acc; induction fuel as [|n IH]; intros s acc Hf; [lia|].
  cbn [object_loop]. unfold scanstring.
  pose proof (scanstring_from_consumes s 0) as Hk.
  destruct (scanstring_from 0 s) as [[key r]|e]; cbn [mbind result_bind];
    [|exact Hk].
  cbn [consumes] in Hk. pose proof (skip_ws_length r) as Hw.
  destruct (skip_ws r) as [|c1 r1]; [cbn; discriminate|]. cbn [length] in Hw.
  destruct (c1 =? 58); [|cbn; discriminate].
  pose proof (skip_ws_length r1) as Hw1.
  pose proof (scan_consumes (skip_ws r1)) as Hs.
  destruct (scan (skip_ws r1)) as [[v r2]|e]; cbn [mbind result_bind];
    [|exact Hs].
  cbn [consumes] in Hs. pose proof (skip_ws_length r2) as Hw2.
  destruct (skip_ws r2) as [|c3 r3]; [cbn; discriminate|]. cbn [length] in Hw2.
  destruct (c3 =? 125); [cbn; lia|].
  destruct (c3 =? 44); [|cbn; discriminate].
  pose proof (skip_ws_length r3) as Hw3.
  destruct (skip_ws r3) as [|c4 r4]; [cbn; discriminate|]. cbn [length] in Hw3.
  destruct (c4 =? DQUOTE); [|cbn; discriminate].
  eapply consumes_mono; [apply IH; lia | lia].
Qed.
End LoopBounds.

Lemma scan_once_consumes (py : Interpreter) (depth : nat) (s : pystr) :
  consumes (length s) (scan_once py depth s).
Proof.
  revert s; induction depth as [|d IH]; intros s;
    (destruct s as [|c r]; [cbn; discriminate|]); cbn [scan_once];
    assert (Hskip : forall k (v : json),
              consumes (length (c :: r)) (Ok (v, skipn (S k) (c :: r))))
      by (intros k v; cbn [consumes skipn length];
          pose proof (length_skipn k r); lia);
    (destruct (c =? DQUOTE);
     [unfold scanstring; pose proof (scanstring_from_consumes r 0) as Hk;
      destruct (scanstring_from 0 r) as [[str rest]|e]; cbn [mbind result_bind];
      cbn in *; [lia | exact Hk]|]).
  all: destruct (c =? 123).
  1: { cbn; discriminate. }
  2: { unfold JSONObject. pose proof (skip_ws_length r) as Hw.
       destruct (skip_ws r) as [|c1 r1]; [cbn; discriminate|]. cbn [length] in Hw.
       destruct (c1 =? 125); [cbn; lia|].
       destruct (c1 =? DQUOTE); [|cbn; discriminate].
       eapply consumes_mono;
         [apply (object_loop_consumes (scan_once py d) IH); lia | cbn [length]; lia]. }
  all: destruct (c =? 91).
  1: { cbn; discriminate. }
  2: { unfold JSONArray. pose proof (skip_ws_length r) as Hw.
       destruct (skip_ws r) as [|c1 r1].
       - eapply consumes_mono;
           [apply (array_loop_consumes (scan_once py d) IH); cbn [length]; lia
           | cbn [length]; lia].
       - cbn [length] in Hw. destruct (c1 =? 93); [cbn; lia|].
         eapply consumes_mono;
           [apply (array_loop_consumes (scan_once py d) IH); cbn [length]; lia
           | cbn [length]; lia]. }
  all: destruct (startswith py:"null" (c :: r)); [apply (Hskip 3%nat)|];
    destruct (startswith py:"true" (c :: r)); [apply (Hskip 3%nat)|];
    destruct (startswith py:"false" (c :: r)); [apply (Hskip 4%nat)|];
    (destruct (match_number py (c :: r)) as [res|] eqn:En;
     [apply (match_number_length _ _ _ En)|]);
    destruct (startswith py:"NaN" (c :: r)); [apply (Hskip 2%nat)|];
    destruct (startswith py:"Infinity" (c :: r)); [apply (Hskip 7%nat)|];
    destruct (startswith py:"-Infinity" (c :: r)); [apply (Hskip 8%nat)|];
    cbn; discriminate.
Qed.

(** The loops of [json_loads] never reach their bound. *)
Lemma json_loads_bound (py : Interpreter) (s : pystr) :
  json_loads py s <> Raise LoopBound.
Proof.
  unfold json_loads. destruct (startswith [65279] s); [discriminate|].
  pose proof (scan_once_consumes py (decoder_depth py) (skip_ws s)) as Hs.
  destruct (scan_once py (decoder_depth py) (skip_ws s)) as [[v rest]|e];
    cbn [mbind result_bind].
  - destruct (skip_ws rest); discriminate.
  - cbn in Hs. congruence.
Qed.

(** ** Payload formatting *)

Lemma join_flat_map (sep p : pystr) (ps : list pystr) :
  join sep (p :: ps) = p ++ flat_map (fun q => sep ++ q) ps.
Proof.
  revert p; induction ps as [|q ps IH]; intros p.
  - cbn [join flat_map]. rewrite app_nil_r. reflexivity.
  - change (join sep (p :: q :: ps)) with (p ++ sep ++ join sep (q :: ps)).
    rewrite (IH q). cbn [flat_map]. rewrite <- app_assoc. reflexivity.
Qed.

Lemma mapM_encodable {A} (f : A -> result pystr) (h : A -> pystr) (ok : A -> bool)
    (l : list A) :
  Forall (fun x => if ok x then f x = Ok (h x) else raises (f x) = true) l ->
  if forallb ok l then mapM f l = Ok (List.map h l) else raises (mapM f l) = true.
Proof.
  induction 1 as [|x l Hx _ IH]; [reflexivity|].
  cbn [forallb mapM List.map]. revert Hx IH. destruct (ok x); intros Hx IH.
  - rewrite Hx. cbn [andb mbind result_bind]. revert IH.
    destruct (forallb ok l); intros IH; [rewrite IH; reflexivity|].
    destruct (mapM f l); [discriminate IH | reflexivity].
  - destruct (f x); [discriminate Hx | reflexivity].
Qed.

(** The encoder that indents by two prints [pretty], whenever it prints. *)
Lemma iterencode_pretty (py : Interpreter) (v : json) :
  forall depth level,
    if encodable py depth v
    then iterencode py (Some 2%nat) depth level v
         = Ok (pretty (floatstr_of_literal py) level v)
    else raises (iterencode py (Some 2%nat) depth level v) = true.
Proof.
  revert v. fix IH 1. intros v depth level.
  destruct v as [|b|z|lit|s|items|members]; cbn [encodable iterencode pretty];
    try (cbv iota).
  - reflexivity.
  - destruct b; reflexivity.
  - unfold int_repr. destruct (int_too_long py _); reflexivity.
  - reflexivity.
  - reflexivity.
  - destruct depth as [|d]; [reflexivity|].
    destruct items as [|x xs]; [reflexivity|]. cbn [mbind].
    assert (Hall : Forall (fun y => if encodable py d y
                             then iterencode py (Some 2%nat) d (S level) y
                                  = Ok (pretty (floatstr_of_literal py) (S level) y)
                             else raises (iterencode py (Some 2%nat) d (S level) y) = true)
                          (x :: xs)).
    { generalize (x :: xs). intros l. induction l as [|y l IHl]; constructor;
        [apply IH | exact IHl]. }
    apply mapM_encodable in Hall. revert Hall.
    destruct (forallb (encodable py d) (x :: xs)); intros Hall.
    + rewrite Hall. cbn [mbind result_bind List.map]. rewrite join_flat_map.
      rewrite flat_map_concat_map, List.map_map, <- flat_map_concat_map.
      unfold item_separator, newline_indent, indented_line.
      rewrite <- !app_assoc. reflexivity.
    + destruct (mapM _ (x :: xs)); [discriminate Hall | reflexivity].
  - destruct depth as [|d]; [reflexivity|].
    destruct members as [|m ms]; [reflexivity|].
    assert (Hall : Forall (fun kv : pystr * json =>
                             if encodable py d (snd kv)
                             then (v ← iterencode py (Some 2%nat) d (S level) (snd kv);
                                   Ok (encode_basestring_ascii (fst kv) ++ py:": " ++ v))
                                  = Ok (encode_basestring_ascii (fst kv) ++ py:": "
                                        ++ pretty (floatstr_of_literal py) (S level) (snd kv))
                             else raises (v ← iterencode py (Some 2%nat) d (S level) (snd kv);
                                          Ok (encode_basestring_ascii (fst kv)
                                              ++ py:": " ++ v)) = true)
                          (m :: ms)).
    { generalize (m :: ms). intros l. induction l as [|[k y] l IHl]; constructor;
        [|exact IHl]. cbn [fst snd]. pose proof (IH y d (S level)) as Hy.
      revert Hy. destruct (encodable py d y); intros Hy.
      - rewrite Hy. reflexivity.
      - destruct (iterencode py (Some 2%nat) d (S level) y); [discriminate Hy | reflexivity]. }
    apply (mapM_encodable _ (fun kv : pystr * json =>
                               encode_basestring_ascii (fst kv) ++ py:": "
                               ++ pretty (floatstr_of_literal py) (S level) (snd kv))
                            (fun kv : pystr * json => encodable py d (snd kv))) in Hall.
    revert Hall.
    destruct (forallb (fun kv : pystr * json => encodable py d (snd kv)) (m :: ms));
      intros Hall.
    + match goal with
      | |- context [mapM ?F (m :: ms)] =>
          replace (mapM F (m :: ms))
            with (Ok (List.map (fun kv : pystr * json =>
                                  encode_basestring_ascii (fst kv) ++ py:": "
                                  ++ pretty (floatstr_of_literal py) (S level) (snd kv))
                               (m :: ms)))
            by (symmetry; exact Hall)
      end.
      cbn [mbind result_bind List.map]. rewrite join_flat_map.
      rewrite flat_map_concat_map, List.map_map, <- flat_map_concat_map.
      unfold item_separator, newline_indent, indented_line.
      rewrite <- !app_assoc. reflexivity.
    + destruct (mapM _ (m :: ms)); [discriminate Hall | reflexivity].
Qed.

(** What the decoder returns, the encoder prints: a decoded integer has no
    more digits than its literal, and a decoded value nests no deeper than
    the decoder may enter. *)

Ltac by_digit k :=
  destruct k as [|k]; [reflexivity|];
  do 4 (destruct k as [k|k|]; try reflexivity).

Lemma int_too_long_mono (py : Interpreter) (n m : nat) :
  (m <= n)%nat -> int_too_long py n = false -> int_too_long py m = false.
Proof.
  unfold int_too_long. intros Hle H.
  destruct (Nat.ltb_spec 640 m) as [H1|H1]; [|reflexivity].
  destruct (Nat.ltb_spec 0 (int_max_str_digits py)) as [H2|H2]; [|reflexivity].
  destruct (Nat.ltb_spec (int_max_str_digits py) m) as [H3|H3]; [|reflexivity].
  rewrite (proj2 (Nat.ltb_lt 640 n)) in H by lia.
  rewrite (proj2 (Nat.ltb_lt (int_max_str_digits py) n)) in H by lia.
  discriminate H.
Qed.

Lemma revapp_cons_digit (k : N) (u acc : Decimal.uint) :
  Decimal.revapp (cons_digit k u) acc = Decimal.revapp u (cons_digit k acc).
Proof. unfold cons_digit. by_digit k. Qed.

Lemma nb_digits_cons_digit (k : N) (u : Decimal.uint) :
  Decimal.nb_digits (cons_digit k u) = S (Decimal.nb_digits u).
Proof. unfold cons_digit. by_digit k. Qed.

Lemma of_lu_cons_digit (k : N) (u : Decimal.uint) :
  k <= 9 ->
  DecimalPos.Unsigned.of_lu (cons_digit k u)
  = k + 10 * DecimalPos.Unsigned.of_lu u.
Proof.
  intros Hk. unfold cons_digit.
  destruct k as [|k]; [reflexivity|].
  do 4 (destruct k as [k|k|]; try reflexivity); lia.
Qed.

Lemma revapp_uint_of_digits (a b : pystr) (acc : Decimal.uint) :
  Decimal.revapp (uint_of_digits (a ++ b)) acc
  = Decimal.revapp (uint_of_digits b) (Decimal.revapp (uint_of_digits a) acc).
Proof.
  revert acc; induction a as [|x a IH]; intros acc; [reflexivity|].
  cbn [app uint_of_digits]. rewrite !revapp_cons_digit. apply IH.
Qed.

Lemma nb_digits_uint_of_digits (ds : pystr) :
  Decimal.nb_digits (uint_of_digits ds) = length ds.
Proof.
  induction ds as [|c r IH]; [reflexivity|].
  cbn [uint_of_digits length]. rewrite nb_digits_cons_digit, IH. reflexivity.
Qed.

Lemma of_uint_digits (ds : pystr) :
  Forall (fun c => is_digit c = true) ds ->
  Z.of_uint (uint_of_digits ds) = int_of_digits ds.
Proof.
  unfold Z.of_uint. rewrite DecimalPos.Unsigned.of_uint_alt.
  unfold Decimal.rev, int_of_digits.
  induction ds as [|c ds IH] using rev_ind; intros H; [reflexivity|].
  apply Forall_app in H as [H Hc]. inversion Hc as [|? ? Hd _]; subst.
  rewrite revapp_uint_of_digits, fold_left_app. cbn [fold_left uint_of_digits].
  rewrite revapp_cons_digit. cbn [Decimal.revapp].
  unfold is_digit in Hd. apply andb_true_iff in Hd as [Hd1 Hd2].
  apply N.leb_le in Hd1, Hd2.
  rewrite of_lu_cons_digit by lia. rewrite <- (IH H). lia.
Qed.

Lemma length_string_of_uint (u : Decimal.uint) :
  length (s2p (NilEmpty.string_of_uint u)) = Decimal.nb_digits u.
Proof.
  induction u; cbn [NilEmpty.string_of_uint s2p length Decimal.nb_digits]; congruence.
Qed.

Lemma length_string_of_uint0 (u : Decimal.uint) :
  u <> Decimal.Nil -> length (s2p (NilZero.string_of_uint u)) = Decimal.nb_digits u.
Proof.
  intros Hu. destruct u; [congruence|..]; apply length_string_of_uint.
Qed.

Lemma length_unsigned_text (s : pystr) :
  (length (unsigned_text s) <= length s)%nat.
Proof.
  destruct s as [|c d]; [reflexivity|]. cbn [unsigned_text].
  destruct (c =? 45); cbn [length]; lia.
Qed.

Lemma repr_int_digits (ds : pystr) (negative : bool) :
  ds <> [] -> Forall (fun c => is_digit c = true) ds ->
  (length (unsigned_text (repr_int (if negative then - int_of_digits ds
                                    else int_of_digits ds)%Z))
   <= length ds)%nat.
Proof.
  intros Hne Hd. rewrite <- (of_uint_digits ds Hd).
  assert (Hu : uint_of_digits ds <> Decimal.Nil).
  { intros E. apply (f_equal Decimal.nb_digits) in E.
    rewrite nb_digits_uint_of_digits in E. destruct ds; [congruence | discriminate E]. }
  assert (Hpos : (1 <= Decimal.nb_digits (uint_of_digits ds))%nat).
  { destruct (uint_of_digits ds); [congruence | cbn; lia..]. }
  rewrite <- (nb_digits_uint_of_digits ds). unfold repr_int.
  destruct negative.
  - change (- Z.of_uint (uint_of_digits ds))%Z
      with (Z.of_int (Decimal.Neg (uint_of_digits ds))).
    rewrite DecimalZ.to_of. cbn [Decimal.norm].
    pose proof (DecimalFacts.nb_digits_nzhead (uint_of_digits ds)) as Hn.
    destruct (Decimal.nzhead (uint_of_digits ds)) eqn:E;
      [exact Hpos|..];
      cbn [NilZero.string_of_int s2p unsigned_text];
      change (N_of_ascii "-" =? 45) with true; cbv iota;
      rewrite length_string_of_uint0 by discriminate; exact Hn.
  - change (Z.of_uint (uint_of_digits ds))
      with (Z.of_int (Decimal.Pos (uint_of_digits ds))).
    rewrite DecimalZ.to_of. cbn [Decimal.norm NilZero.string_of_int].
    etransitivity; [apply length_unsigned_text|].
    rewrite length_string_of_uint0.
    + apply DecimalFacts.nb_digits_unorm, Hu.
    + unfold Decimal.unorm. destruct (Decimal.nzhead (uint_of_digits ds)); discriminate.
Qed.

Lemma int_repr_digits (py : Interpreter) (ds : pystr) (negative : bool) :
  ds <> [] -> Forall (fun c => is_digit c = true) ds ->
  int_too_long py (length ds) = false ->
  raises (int_repr py (if negative then - int_of_digits ds else int_of_digits ds)%Z)
  = false.
Proof.
  intros Hne Hd Hl.
  change (int_repr py ?z)
    with (if int_too_long py (length (unsigned_text (repr_int z)))
          then @Raise pystr ValueError else Ok (repr_int z)).
  rewrite (int_too_long_mono py _ _ (repr_int_digits ds negative Hne Hd) Hl).
  reflexivity.
Qed.

Lemma span_digits_digits (s : pystr) :
  Forall (fun c => is_digit c = true) (fst (span_digits s)).
Proof.
  induction s as [|c r IH]; cbn [span_digits]; [constructor|].
  destruct (is_digit c) eqn:E; [|constructor].
  destruct (span_digits r) as [d rest]. cbn [fst] in *. constructor; assumption.
Qed.

(** The integer part of a number is a sign, or none, and digits. *)
Lemma match_integer_digits (s i r : pystr) :
  match_integer s = Some (i, r) ->
  exists (negative : bool) ds,
    ds <> [] /\ Forall (fun c => is_digit c = true) ds
    /\ i = (if negative then [45] else []) ++ ds.
Proof.
  unfold match_integer.
  assert (Hd : forall sign s1,
            match s1 with
            | [] => None
            | c :: r0 =>
                if c =? 48 then Some (sign ++ [c], r0)
                else if is_digit c
                     then let '(d, rest) := span_digits r0 in Some (sign ++ c :: d, rest)
                     else None
            end = Some (i, r) ->
            exists ds, ds <> [] /\ Forall (fun c => is_digit c = true) ds
                       /\ i = sign ++ ds).
  { intros sign [|c r0]; [discriminate|].
    destruct (N.eqb_spec c 48) as [->|_].
    - intros [= <- _]. exists [48]. repeat split; [discriminate|].
      constructor; [reflexivity | constructor].
    - destruct (is_digit c) eqn:E; [|discriminate].
      pose proof (span_digits_digits r0) as Hs.
      destruct (span_digits r0) as [d rest]. cbn [fst] in Hs.
      intros [= <- _]. exists (c :: d). repeat split; [discriminate|].
      constructor; assumption. }
  destruct s as [|c0 s0]; [discriminate|].
  destruct (c0 =? 45); intros H.
  - apply (Hd [45] s0) in H as (ds & Hne & Hds & ->). exists true, ds; auto.
  - apply (Hd [] (c0 :: s0)) in H as (ds & Hne & Hds & ->). exists false, ds; auto.
Qed.

(** A number that the scanner accepts is one the encoder prints. *)
Lemma match_number_encodable (py : Interpreter) (s : pystr) (v : json) (r : pystr) :
  match_number py s = Some (Ok (v, r)) -> forall depth, encodable py depth v = true.
Proof.
  unfold match_number.
  destruct (match_integer s) as [[integer r1]|] eqn:Ei; [|discriminate].
  destruct (match_integer_digits _ _ _ Ei) as (negative & ds & Hne & Hds & Hi).
  destruct (match_frac r1) as [frac r2]. destruct (match_exp r2) as [exp r3].
  destruct frac, exp; try (intros [= <- _] depth; destruct depth; reflexivity).
  assert (Hsplit : match integer with
                   | c :: d => if c =? 45 then (true, d) else (false, integer)
                   | [] => (false, integer)
                   end = (negative, ds)).
  { rewrite Hi. destruct negative; [reflexivity|]. cbn [app].
    destruct ds as [|c d]; [congruence|]. inversion Hds as [|? ? Hc _]; subst.
    destruct (N.eqb_spec c 45) as [->|_]; [discriminate Hc | reflexivity]. }
  rewrite Hsplit.
  destruct (int_too_long py (length ds)) eqn:El; [discriminate|].
  intros [= <- _] depth.
  destruct depth; cbn [encodable];
    rewrite (int_repr_digits py ds negative Hne Hds El); reflexivity.
Qed.

Lemma forallb_dict_set {V} (f : V -> bool) (k : pystr) (v : V) (d : list (pystr * V)) :
  f v = true -> forallb (fun kv : pystr * V => f (snd kv)) d = true ->
  forallb (fun kv : pystr * V => f (snd kv)) (dict_set k v d) = true.
Proof.
  intros Hv. induction d as [|[k' v'] d IH]; cbn [dict_set forallb snd].
  - intros _. rewrite Hv. reflexivity.
  - intros H. apply andb_true_iff in H as [H1 H2].
    destruct (str_eqb k k'); cbn [forallb snd].
    + rewrite Hv, H2. reflexivity.
    + rewrite H1, (IH H2). reflexivity.
Qed.

Lemma forallb_rev_cons {A} (f : A -> bool) (x : A) (l : list A) :
  f x = true -> forallb f l = true -> forallb f (List.rev (x :: l)) = true.
Proof.
  intros Hx Hl. apply forallb_forall. intros y Hy. apply in_rev in Hy.
  destruct Hy as [<-|Hy]; [exact Hx|].
  apply (proj1 (forallb_forall f l) Hl y Hy).
Qed.

Section LoopValues.
Variable py : Interpreter.
Variable d : nat.
Variable scan : pystr -> result (json * pystr).
Hypothesis scan_encodable :
  forall s v r, scan s = Ok (v, r) -> encodable py d v = true.

Lemma array_loop_encodable (fuel : nat) (s : pystr) (acc : list json)
    (v : json) (r : pystr) :
  forallb (encodable py d) acc = true ->
  array_loop scan fuel s acc = Ok (v, r) -> encodable py (S d) v = true.
Proof.
  revert s acc; induction fuel as [|n IH]; intros s acc Hacc; [discriminate|].
  cbn [array_loop]. intros H. apply bind_Ok in H as ([x r1] & Hx & H).
  apply scan_encodable in Hx.
  destruct (skip_ws r1) as [|c r2]; [discriminate|].
  destruct (c =? 93).
  - apply Ok_inj in H. injection H as <- _. cbn [encodable].
    apply forallb_rev_cons; assumption.
  - destruct (c =? 44); [|discriminate].
    apply (IH (skip_ws r2) (x :: acc)); [|exact H].
    cbn [forallb]. rewrite Hx, Hacc. reflexivity.
Qed.

Lemma object_loop_encodable (fuel : nat) (s : pystr) (acc : list (pystr * json))
    (v : json) (r : pystr) :
  forallb (fun kv : pystr * json => encodable py d (snd kv)) acc = true ->
  object_loop scan fuel s acc = Ok (v, r) -> encodable py (S d) v = true.
Proof.
  revert s acc; induction fuel as [|n IH]; intros s acc Hacc; [discriminate|].
  cbn [object_loop]. intros H. apply bind_Ok in H as ([key r0] & _ & H).
  destruct (skip_ws r0) as [|c1 r1]; [discriminate|].
  destruct (c1 =? 58); [|discriminate].
  apply bind_Ok in H as ([x r2] & Hx & H). apply scan_encodable in Hx.
  pose proof (forallb_dict_set (encodable py d) key x acc Hx Hacc) as Hset.
  destruct (skip_ws r2) as [|c3 r3]; [discriminate|].
  destruct (c3 =? 125).
  - apply Ok_inj in H. injection H as <- _. exact Hset.
  - destruct (c3 =? 44); [|discriminate].
    destruct (skip_ws r3) as [|c4 r4]; [discriminate|].
    destruct (c4 =? DQUOTE); [|discriminate].
    apply (IH _ _ Hset H).
Qed.
End LoopValues.

(** What the scanner returns nests no deeper than the scanner may enter. *)
Lemma scan_once_encodable (py : Interpreter) (depth : nat) (s : pystr)
    (v : json) (r : pystr) :
  scan_once py depth s = Ok (v, r) -> encodable py depth v = true.
Proof.
  revert s v r; induction depth as [|d IH]; intros s v r;
    (destruct s as [|c t]; [discriminate|]); cbn [scan_once];
    (destruct (c =? DQUOTE);
     [intros H; apply bind_Ok in H as ([str rest] & _ & H);
      apply Ok_inj in H; injection H as <- _; reflexivity|]).
  all: destruct (c =? 123).
  1: discriminate.
  2: { unfold JSONObject. destruct (skip_ws t) as [|c1 r1]; [discriminate|].
       destruct (c1 =? 125); [intros [= <- _]; reflexivity|].
       destruct (c1 =? DQUOTE); [|discriminate].
       apply (object_loop_encodable py d (scan_once py d) IH). reflexivity. }
  all: destruct (c =? 91).
  1: discriminate.
  2: { unfold JSONArray. destruct (skip_ws t) as [|c1 r1].
       - apply (array_loop_encodable py d (scan_once py d) IH). reflexivity.
       - destruct (c1 =? 93); [intros [= <- _]; reflexivity|].
         apply (array_loop_encodable py d (scan_once py d) IH). reflexivity. }
  all: destruct (startswith py:"null" (c :: t)); [intros [= <- _]; reflexivity|];
    destruct (startswith py:"true" (c :: t)); [intros [= <- _]; reflexivity|];
    destruct (startswith py:"false" (c :: t)); [intros [= <- _]; reflexivity|];
    (destruct (match_number py (c :: t)) as [res|] eqn:En;
     [intros ->; apply (match_number_encodable _ _ _ _ En)|]);
    destruct (startswith py:"NaN" (c :: t)); [intros [= <- _]; reflexivity|];
    destruct (startswith py:"Infinity" (c :: t)); [intros [= <- _]; reflexivity|];
    destruct (startswith py:"-Infinity" (c :: t)); [intros [= <- _]; reflexivity|];
    discriminate.
Qed.

(** A value the encoder prints within [d] levels, it prints within more. *)
Lemma encodable_mono (py : Interpreter) (v : json) :
  forall d d', (d <= d')%nat -> encodable py d v = true -> encodable py d' v = true.
Proof.
  revert v. fix IH 1. intros v d d' Hd.
  destruct v as [|b|z|lit|s|items|members];
    try (destruct d, d'; cbn [encodable]; intros H; exact H).
  - destruct d as [|d]; [discriminate|]. destruct d' as [|d']; [lia|].
    cbn [encodable]. induction items as [|x xs IHl]; [reflexivity|].
    cbn [forallb]. intros H. apply andb_true_iff in H as [Hx Hxs].
    rewrite (IH x d d') by (lia || exact Hx). exact (IHl Hxs).
  - destruct d as [|d]; [discriminate|]. destruct d' as [|d']; [lia|].
    cbn [encodable]. induction members as [|[k x] xs IHl]; [reflexivity|].
    cbn [forallb snd]. intros H. apply andb_true_iff in H as [Hx Hxs].
    rewrite (IH x d d') by (lia || exact Hx). exact (IHl Hxs).
Qed.

(** What [json.loads] returns, an encoder that nests as deep prints. *)
Lemma json_loads_encodable (py : Interpreter) (s : pystr) (v : json) :
  json_loads py s = Ok v -> encodable py (decoder_depth py) v = true.
Proof.
  unfold json_loads. destruct (startswith [65279] s); [discriminate|].
  intros H. apply bind_Ok in H as ([x rest] & Hx & H).
  apply scan_once_encodable in Hx.
  destruct (skip_ws rest); [|discriminate]. apply Ok_inj in H. subst x. exact Hx.
Qed.

Lemma format_raw_data_cases (py : Interpreter) (data : pystr) :
  format_raw_data py data
  = match json_loads py data with
    | Ok v =>
        if encodable py (indent_encoder_depth py) v
        then (py:"json", pretty (floatstr_of_literal py) 0 v)
        else (py:"xml", data)
    | Raise _ => (py:"xml", data)
    end.
Proof.
  unfold format_raw_data, try_except, json_dumps.
  destruct (json_loads py data) as [v|e]; [|reflexivity].
  cbn [mbind result_bind].
  pose proof (iterencode_pretty py v (indent_encoder_depth py) 0) as H.
  revert H. destruct (encodable py (indent_encoder_depth py) v); intros H.
  - rewrite H. reflexivity.
  - destruct (iterencode py (Some 2%nat) (indent_encoder_depth py) 0 v);
      [discriminate H | reflexivity].
Qed.



(** ** The response section *)

(** C7: the response section is the header alone for an empty response list;
    otherwise it renders the first response only: the status line with the
    defaults 200 and OK, then a block between two fences, which holds the
    formatted body, [{}] for a null body (tagged [json] on an interpreter
    that can enter one object) and one space for a missing one; the warning is
    printed exactly when the first response has no body field. *)
Theorem gen_response_section_spec (py : Interpreter) (it : Item) :
  (item_response it = [] ->
   gen_response_section py it = (py:"### Response" ++ [LF; LF], []))
  /\ (forall r0 rest, item_response it = r0 :: rest ->
        let block :=
          match resp_body r0 with
          | Present b => format_raw_data py b
          | Null => format_raw_data py py:"{}"
          | Absent => (py:"json", py:" ")
          end in
        fst (gen_response_section py it)
        = py:"### Response" ++ [LF; LF]
          ++ py:"#### Status: " ++ default py:"200" (repr_int <$> resp_code r0)
          ++ py:" " ++ default py:"OK" (resp_status r0) ++ [LF; LF]
          ++ py:"```" ++ fst block ++ [LF] ++ snd block ++ [LF] ++ py:"```" ++ [LF; LF]
        /\ (In missing_body_warning (snd (gen_response_section py it))
            <-> resp_body r0 = Absent))
  /\ snd (format_raw_data py py:"{}") = py:"{}"
  /\ ((1 <= decoder_depth py)%nat -> (1 <= indent_encoder_depth py)%nat ->
      format_raw_data py py:"{}" = (py:"json", py:"{}")).
Proof.
  split; [|split; [|split]].
  - intros H. unfold gen_response_section. rewrite H. reflexivity.
  - intros r0 rest H. unfold gen_response_section, missing_body_warning.
    rewrite H. cbv zeta. split.
    + destruct (resp_code r0), (resp_status r0), (resp_body r0) as [| |b];
        try destruct (format_raw_data py EMPTY_OBJECT) eqn:E0;
        try destruct (format_raw_data py b);
        cbn [fst snd default fmap option_fmap option_map];
        unfold fenced, FENCE, NL; rewrite <- ?app_assoc;
        try (change (py:"{}") with EMPTY_OBJECT; rewrite E0);
        reflexivity.
    + split.
      * intros Hin.
        destruct (resp_code r0), (resp_status r0), (resp_body r0) as [| |b];
          try destruct (format_raw_data py EMPTY_OBJECT);
          try destruct (format_raw_data py b);
          cbn in Hin; try reflexivity;
          repeat (destruct Hin as [Hin|Hin]; try discriminate Hin); contradiction.
      * intros Hb. rewrite Hb.
        destruct (resp_code r0), (resp_status r0); cbn; auto.
  - rewrite format_raw_data_cases. unfold json_loads.
    destruct (decoder_depth py) as [|d]; [reflexivity|].
    destruct (indent_encoder_depth py); reflexivity.
  - intros Hd He. rewrite format_raw_data_cases. unfold json_loads.
    destruct (decoder_depth py) as [|d]; [lia|].
    destruct (indent_encoder_depth py); [lia | reflexivity].
Qed.

Lemma gen_response_section_spec_witness :
  fst (gen_response_section sample_interpreter ping_item)
  = py:"### Response" ++ [LF; LF] ++ py:"#### Status: 201 Created" ++ [LF; LF]
    ++ py:"```json" ++ [LF]
    ++ py:"{" ++ [LF] ++ py:"  " ++ [DQUOTE] ++ py:"id" ++ [DQUOTE] ++ py:": 7" ++ [LF]
    ++ py:"}" ++ [LF] ++ py:"```" ++ [LF; LF].
Proof.
  rewrite (proj1 (proj1 (proj2 (gen_response_section_spec sample_interpreter ping_item))
                    _ _ eq_refl)).
  vm_compute. reflexivity.
Defined.

(** ** The order on strings *)

Ltac bool_to_prop :=
  rewrite ?orb_true_iff, ?andb_true_iff, ?orb_false_iff, ?andb_false_iff,
    ?N.ltb_lt, ?N.eqb_eq, ?N.ltb_ge, ?N.eqb_neq, ?N.leb_le, ?N.leb_gt in *.

Lemma str_ltb_irrefl (a : pystr) : str_ltb a a = false.
Proof.
  induction a as [|x a IH]; [reflexivity|]. cbn [str_ltb].
  rewrite IH, N.ltb_irrefl, andb_false_r. reflexivity.
Qed.

Lemma str_ltb_negtrans (a b c : pystr) :
  str_ltb a c = true -> str_ltb a b = true \/ str_ltb b c = true.
Proof.
  revert b c; induction a as [|x a IH]; intros [|y b] [|z c]; cbn [str_ltb];
    try (intros; discriminate); auto.
  intros H. bool_to_prop. destruct H as [H|[-> H]].
  - destruct (N.lt_ge_cases x y); [auto|].
    right; left. lia.
  - destruct (N.lt_trichotomy z y) as [Hlt|[->|Hgt]]; [auto | | auto].
    destruct (IH b c H); auto.
Qed.

Lemma str_ltb_asym (a b : pystr) : str_ltb a b = true -> str_ltb b a = false.
Proof.
  revert b; induction a as [|x a IH]; intros [|y b]; cbn [str_ltb];
    try discriminate; [reflexivity|].
  intros H. bool_to_prop. destruct H as [H|[-> H]].
  - split; [lia | left; lia].
  - split; [lia | right; apply IH, H].
Qed.

Lemma str_ltb_trans (a b c : pystr) :
  str_ltb a b = true -> str_ltb b c = true -> str_ltb a c = true.
Proof.
  intros Hab Hbc. destruct (str_ltb_negtrans a c b Hab) as [H|H]; [exact H|].
  rewrite (str_ltb_asym b c Hbc) in H. discriminate.
Qed.

Lemma str_ltb_total (a b : pystr) :
  str_ltb a b = false -> str_ltb b a = false -> a = b.
Proof.
  revert b; induction a as [|x a IH]; intros [|y b]; cbn [str_ltb];
    try discriminate; [reflexivity|].
  intros H1 H2. bool_to_prop.
  destruct H1 as [H1 H1'], H2 as [H2 H2'].
  assert (x = y) as -> by lia. f_equal. apply IH.
  - destruct H1' as [?|?]; [congruence | assumption].
  - destruct H2' as [?|?]; [congruence | assumption].
Qed.

Lemma pair_ltb_lex (a b : pystr * pystr) :
  pair_ltb a b
  = str_ltb (fst a) (fst b) || (str_eqb (fst a) (fst b) && str_ltb (snd a) (snd b)).
Proof.
  unfold pair_ltb. destruct (str_eqb (fst a) (fst b)) eqn:E1; cbn [negb].
  - apply str_eqb_eq in E1. rewrite E1, str_ltb_irrefl. cbn [orb andb].
    destruct (str_eqb (snd a) (snd b)) eqn:E2; cbn [negb]; [|reflexivity].
    apply str_eqb_eq in E2. rewrite E2, str_ltb_irrefl. reflexivity.
  - rewrite orb_false_r. reflexivity.
Qed.

Lemma pair_ltb_irrefl (a : pystr * pystr) : pair_ltb a a = false.
Proof. rewrite pair_ltb_lex, !str_ltb_irrefl, andb_false_r. reflexivity. Qed.

Lemma pair_ltb_negtrans (a b c : pystr * pystr) :
  pair_ltb a c = true -> pair_ltb a b = true \/ pair_ltb b c = true.
Proof.
  rewrite !pair_ltb_lex. intros H. bool_to_prop. rewrite !str_eqb_eq in *.
  destruct H as [H|[He H]].
  - destruct (str_ltb_negtrans _ (fst b) _ H); auto.
  - destruct (str_ltb (fst a) (fst b)) eqn:E1; [auto|].
    destruct (str_ltb (fst b) (fst c)) eqn:E2; [auto|].
    rewrite <- He in E2. pose proof (str_ltb_total _ _ E1 E2) as Hab.
    destruct (str_ltb_negtrans _ (snd b) _ H); [left | right]; right; split;
      congruence.
Qed.

Lemma pair_ltb_asym (a b : pystr * pystr) :
  pair_ltb a b = true -> pair_ltb b a = false.
Proof.
  intros H. destruct (pair_ltb b a) eqn:E; [|reflexivity].
  rewrite pair_ltb_lex in H, E. bool_to_prop. rewrite !str_eqb_eq in *.
  destruct H as [H|[He H]], E as [E|[Ee E]].
  - rewrite (str_ltb_asym _ _ H) in E. discriminate.
  - rewrite Ee, str_ltb_irrefl in H. discriminate.
  - rewrite He, str_ltb_irrefl in E. discriminate.
  - rewrite (str_ltb_asym _ _ H) in E. discriminate.
Qed.

(** ** The stable sort *)

Section SortFacts.
Context {K A : Type}.
Variable ltb : K -> K -> bool.

Lemma insert_keyed_perm (x : K * A) (l : list (K * A)) :
  Permutation (x :: l) (insert_keyed ltb x l).
Proof.
  induction l as [|y l IH]; cbn [insert_keyed]; [reflexivity|].
  destruct (ltb (fst y) (fst x)); [|reflexivity].
  rewrite perm_swap. apply perm_skip, IH.
Qed.

Lemma sort_keyed_perm (l : list (K * A)) : Permutation l (sort_keyed ltb l).
Proof.
  induction l as [|x l IH]; cbn [sort_keyed]; [reflexivity|].
  rewrite <- insert_keyed_perm. apply perm_skip, IH.
Qed.

(** Elements whose keys are not ordered among themselves keep their
    relative order. *)
Lemma insert_keyed_filter (p : K -> bool) (x : K * A) (l : list (K * A)) :
  (forall a b, p a = true -> p b = true -> ltb a b = false) ->
  List.filter (fun y => p (fst y)) (insert_keyed ltb x l)
  = List.filter (fun y => p (fst y)) (x :: l).
Proof.
  intros Hp. induction l as [|y l IH]; cbn [insert_keyed]; [reflexivity|].
  destruct (ltb (fst y) (fst x)) eqn:E; [|reflexivity].
  cbn [List.filter] in *. rewrite IH.
  destruct (p (fst x)) eqn:Ex, (p (fst y)) eqn:Ey; try reflexivity.
  rewrite (Hp _ _ Ey Ex) in E. discriminate.
Qed.

Lemma sort_keyed_stable (p : K -> bool) (l : list (K * A)) :
  (forall a b, p a = true -> p b = true -> ltb a b = false) ->
  List.filter (fun y => p (fst y)) (sort_keyed ltb l)
  = List.filter (fun y => p (fst y)) l.
Proof.
  intros Hp. induction l as [|x l IH]; cbn [sort_keyed]; [reflexivity|].
  rewrite insert_keyed_filter by exact Hp. cbn [List.filter]. rewrite IH.
  reflexivity.
Qed.

Hypothesis ltb_asym : forall a b, ltb a b = true -> ltb b a = false.
Hypothesis ltb_negtrans :
  forall a b c, ltb a c = true -> ltb a b = true \/ ltb b c = true.

Lemma insert_keyed_sorted (x : K * A) (l : list (K * A)) :
  StronglySorted (key_le ltb) l -> StronglySorted (key_le ltb) (insert_keyed ltb x l).
Proof.
  induction 1 as [|y l Hl IH Hy]; cbn [insert_keyed].
  - repeat constructor.
  - destruct (ltb (fst y) (fst x)) eqn:E.
    + constructor; [exact IH|].
      rewrite <- insert_keyed_perm. constructor; [|exact Hy].
      unfold key_le. apply ltb_asym, E.
    + constructor; [constructor; assumption|].
      constructor; [exact E|].
      revert Hy. apply List.Forall_impl. unfold key_le. intros z Hz.
      destruct (ltb (fst z) (fst x)) eqn:Ez; [|reflexivity].
      destruct (ltb_negtrans _ (fst y) _ Ez); congruence.
Qed.

Lemma sort_keyed_sorted (l : list (K * A)) :
  StronglySorted (key_le ltb) (sort_keyed ltb l).
Proof.
  induction l as [|x l IH]; cbn [sort_keyed]; [constructor|].
  apply insert_keyed_sorted, IH.
Qed.

(** The three properties for [sorted] itself. *)
Variable key : A -> K.

Lemma decorated_shape (l : list A) :
  Forall (fun p => fst p = key (snd p))
         (sort_keyed ltb (List.map (fun x => (key x, x)) l)).
Proof.
  rewrite <- sort_keyed_perm. induction l; constructor; auto.
Qed.

Lemma sorted_perm (l : list A) : Permutation l (sorted ltb key l).
Proof.
  unfold sorted. rewrite <- sort_keyed_perm, List.map_map. cbn [snd].
  rewrite List.map_id. reflexivity.
Qed.

Lemma sorted_sorted (l : list A) :
  StronglySorted (fun x y => ltb (key y) (key x) = false) (sorted ltb key l).
Proof.
  unfold sorted. pose proof (decorated_shape l) as Hs.
  pose proof (sort_keyed_sorted (List.map (fun x => (key x, x)) l)) as Hd.
  induction Hd as [|p d Hd IH Hp]; cbn [List.map]; [constructor|].
  inversion Hs as [|? ? Hp1 Hs']; subst.
  constructor; [apply IH, Hs'|].
  apply Forall_map. clear IH Hd. induction Hp as [|q d Hq Hp IH]; constructor.
  - inversion Hs' as [|? ? Hq1 _]; subst. unfold key_le in Hq.
    rewrite <- Hp1, <- Hq1. exact Hq.
  - inversion Hs' as [|? ? _ Hs'']; subst. apply IH; [|exact Hs''].
    constructor; [exact Hp1 | exact Hs''].
Qed.

Lemma sorted_stable (p : K -> bool) (l : list A) :
  (forall a b, p a = true -> p b = true -> ltb a b = false) ->
  List.filter (fun x => p (key x)) (sorted ltb key l)
  = List.filter (fun x => p (key x)) l.
Proof.
  intros Hp. unfold sorted.
  assert (Hmap : forall d : list (K * A),
             Forall (fun q => fst q = key (snd q)) d ->
             List.filter (fun x => p (key x)) (List.map snd d)
             = List.map snd (List.filter (fun y => p (fst y)) d)).
  { induction 1 as [|q d Hq _ IH]; [reflexivity|]. cbn [List.map List.filter].
    rewrite <- Hq, IH. destruct (p (fst q)); reflexivity. }
  rewrite Hmap by apply decorated_shape.
  rewrite sort_keyed_stable by exact Hp.
  rewrite <- Hmap by (induction l; constructor; auto).
  rewrite List.map_map. cbn [snd]. rewrite List.map_id. reflexivity.
Qed.
End SortFacts.

(** ** Grouping *)

Section GroupFacts.
Context {A : Type}.
Variable key : A -> pystr.

Lemma groupby_concat (l : list A) :
  concat (List.map snd (groupby key l)) = l.
Proof.
  induction l as [|x l IH]; [reflexivity|]. cbn [groupby].
  destruct (groupby key l) as [|[k g] gs]; [rewrite <- IH; reflexivity|].
  destruct (str_eqb (key x) k); rewrite <- IH; reflexivity.
Qed.

Lemma groupby_groups (l : list A) : Forall (group_ok key) (groupby key l).
Proof.
  induction l as [|x l IH]; [constructor|]. cbn [groupby].
  destruct (groupby key l) as [|[k g] gs].
  - repeat constructor. discriminate.
  - inversion IH as [|? ? [Hne Hg] Hgs]; subst.
    destruct (str_eqb (key x) k) eqn:E.
    + apply str_eqb_eq in E. constructor; [|exact Hgs].
      split; [discriminate|]. constructor; [reflexivity|].
      cbn [fst snd] in *. rewrite E. exact Hg.
    + constructor; [|exact IH]. split; [discriminate|]. repeat constructor.
Qed.

(** On a list in ascending key order the keys of the groups ascend
    strictly: no name has two groups. *)
Lemma groupby_keys_ascend (l : list A) :
  StronglySorted (fun x y => str_ltb (key y) (key x) = false) l ->
  StronglySorted (fun g h => str_ltb (fst g) (fst h) = true) (groupby key l).
Proof.
  induction 1 as [|x l Hl IH Hx]; [constructor|]. cbn [groupby].
  pose proof (groupby_groups l) as Hg. pose proof (groupby_concat l) as Hc.
  destruct (groupby key l) as [|[k g] gs]; [repeat constructor|].
  inversion IH as [|? ? Hgs Hk]; subst.
  destruct (str_eqb (key x) k) eqn:E.
  - apply str_eqb_eq in E. constructor; [exact Hgs|]. cbn [fst]. rewrite E.
    exact Hk.
  - assert (Hxk : str_ltb (key x) k = true).
    { inversion Hg as [|? ? [Hne Hgk] _]; subst. cbn [fst snd] in *.
      destruct g as [|y g]; [congruence|].
      inversion Hgk as [|? ? Hy _]; subst.
      cbn [List.map concat snd] in Hx. inversion Hx as [|? ? Hxy _]; subst.
      destruct (str_ltb (key x) (key y)) eqn:E'; [reflexivity|].
      apply str_eqb_neq in E. destruct E. apply str_ltb_total; assumption. }
    constructor; [exact IH|]. constructor; [exact Hxk|].
    revert Hk. apply List.Forall_impl. cbn [fst]. intros h Hh.
    apply (str_ltb_trans _ k); assumption.
Qed.
End GroupFacts.

Lemma pair_ltb_name (a b : pystr * pystr) :
  pair_ltb a b = false -> str_ltb (fst a) (fst b) = false.
Proof. rewrite pair_ltb_lex. intros H. apply orb_false_iff in H as [H _]. exact H. Qed.

(** C1: the items are rendered in the order of a stable sort by the pair
    (name, method) under code-point comparison, cut into the runs of equal
    names, so every name has one group and the groups ascend; the items
    B/GET, A/POST, A/GET give the groups A (GET, POST) and B (GET). *)
Theorem grouped_items_spec (items : list Item) :
  Permutation items (sorted_items items)
  /\ StronglySorted (fun x y => pair_ltb (item_key y) (item_key x) = false)
                    (sorted_items items)
  /\ (forall k, List.filter (fun x => str_eqb (item_name x) (fst k)
                                      && str_eqb (req_method (item_request x)) (snd k))
                            (sorted_items items)
                = List.filter (fun x => str_eqb (item_name x) (fst k)
                                        && str_eqb (req_method (item_request x)) (snd k))
                              items)
  /\ concat (List.map snd (grouped_items items)) = sorted_items items
  /\ Forall (group_ok item_name) (grouped_items items)
  /\ StronglySorted (fun g h => str_ltb (fst g) (fst h) = true) (grouped_items items)
  /\ List.map (fun g => (fst g, List.map (fun x => req_method (item_request x)) (snd g)))
       (grouped_items [bare_item py:"B" py:"GET"; bare_item py:"A" py:"POST";
                       bare_item py:"A" py:"GET"])
     = [(py:"A", [py:"GET"; py:"POST"]); (py:"B", [py:"GET"])].
Proof.
  pose proof (sorted_sorted pair_ltb pair_ltb_asym pair_ltb_negtrans item_key items)
    as Hsorted.
  split; [apply sorted_perm|]. split; [exact Hsorted|]. split.
  { intros k.
    apply (sorted_stable pair_ltb item_key
             (fun q => str_eqb (fst q) (fst k) && str_eqb (snd q) (snd k))).
    intros a b Ha Hb. apply andb_true_iff in Ha as [Ha1 Ha2], Hb as [Hb1 Hb2].
    apply str_eqb_eq in Ha1, Ha2, Hb1, Hb2.
    replace b with a by (destruct a, b; cbn in *; congruence).
    apply pair_ltb_irrefl. }
  split; [apply groupby_concat|]. split; [apply groupby_groups|].
  split; [|reflexivity].
  apply groupby_keys_ascend. unfold sorted_items.
  revert Hsorted. generalize (sorted pair_ltb item_key items). intros its Hsorted.
  induction Hsorted as [|x rest Hl IH Hx]; constructor; [exact IH|].
  revert Hx. apply List.Forall_impl. intros y. apply pair_ltb_name.
Qed.

(** ** The variables section *)

Lemma insert_keyed_map {K A B} (ltb : K -> K -> bool) (f : A -> B)
    (x : K * A) (d : list (K * A)) :
  insert_keyed ltb (fst x, f (snd x)) (List.map (fun p => (fst p, f (snd p))) d)
  = List.map (fun p => (fst p, f (snd p))) (insert_keyed ltb x d).
Proof.
  induction d as [|y d IH]; [reflexivity|]. cbn [List.map insert_keyed fst].
  destruct (ltb (fst y) (fst x)); cbn [List.map]; [rewrite IH|]; reflexivity.
Qed.

Lemma sort_keyed_map {K A B} (ltb : K -> K -> bool) (f : A -> B) (d : list (K * A)) :
  sort_keyed ltb (List.map (fun p => (fst p, f (snd p))) d)
  = List.map (fun p => (fst p, f (snd p))) (sort_keyed ltb d).
Proof.
  induction d as [|x d IH]; [reflexivity|]. cbn [List.map sort_keyed].
  rewrite IH. apply insert_keyed_map.
Qed.

Lemma mapM_raise {A B} (f : A -> result B) (e : exn) (l : list A) :
  Forall (fun x => (exists b, f x = Ok b) \/ f x = Raise e) l ->
  Exists (fun x => f x = Raise e) l ->
  mapM f l = Raise e.
Proof.
  induction 1 as [|x l Hx Hl IH]; intros Hex; [inversion Hex|].
  cbn [mapM]. destruct Hx as [[b Hb]|Hr].
  - rewrite Hb. cbn [mbind result_bind]. rewrite IH; [reflexivity|].
    inversion Hex as [? ? Hx'|]; subst; [congruence | assumption].
  - rewrite Hr. reflexivity.
Qed.

Lemma keyed_variables (vs : list Variable_) :
  Forall (fun v => is_Some (var_key v)) vs ->
  exists keyed,
    mapM (fun v => k ← getitem py:"key" (var_key v); Ok (k, v)) vs = Ok keyed
    /\ List.map snd keyed = vs.
Proof.
  induction 1 as [|v vs [k Hk] _ (keyed & IH1 & IH2)].
  - exists []. split; reflexivity.
  - exists ((k, v) :: keyed). cbn [mapM]. rewrite Hk, IH1. cbn. rewrite IH2.
    split; reflexivity.
Qed.

Lemma mapM_keys_full (kvs : list (pystr * pystr)) :
  mapM (fun v => k ← getitem py:"key" (var_key v); Ok (k, v))
       (List.map full_variable kvs)
  = Ok (List.map (fun p => (fst p, full_variable (snd p)))
                 (List.map (fun x => (fst x, x)) kvs)).
Proof.
  induction kvs as [|kv kvs IH]; [reflexivity|].
  cbn [List.map mapM]. rewrite IH. reflexivity.
Qed.

Lemma mapM_rows_full (l : list (pystr * pystr)) :
  mapM variable_row (List.map full_variable l) = Ok (List.map table_row l).
Proof.
  induction l as [|kv l IH]; [reflexivity|].
  cbn [List.map mapM]. rewrite IH. reflexivity.
Qed.

Lemma Exists_and_Forall {A} (P Q : A -> Prop) (l : list A) :
  Forall P l -> Exists Q l -> Exists (fun x => P x /\ Q x) l.
Proof.
  induction 1 as [|x l Hx Hl IH]; intros Hex; inversion Hex; subst.
  - constructor 1. split; assumption.
  - constructor 2. apply IH; assumption.
Qed.

(** C5, as the code has it: when every variable carries a key and a value the
    section is the heading and one row per variable, in a stable ascending
    order of the keys by code points, an empty value giving an empty Example
    cell; a variable without a [value] field makes the generator raise
    [KeyError]. *)
Theorem gen_variables_section_spec :
  (forall kvs : list (pystr * pystr),
      gen_variables_section (List.map full_variable kvs)
      = Ok (variables_heading ++ concat (List.map table_row (sorted str_ltb fst kvs)))
      /\ Permutation kvs (sorted str_ltb fst kvs)
      /\ StronglySorted (fun a b => str_ltb (fst b) (fst a) = false)
                        (sorted str_ltb fst kvs))
  /\ (forall k, table_row (k, []) = py:"| " ++ k ++ py:" | |  |" ++ NL)
  /\ (forall vs : list Variable_,
         Forall (fun v => is_Some (var_key v)) vs ->
         Exists (fun v => var_value v = None) vs ->
         gen_variables_section vs = Raise (KeyError py:"value")).
Proof.
  split; [|split].
  - intros kvs. split; [|split].
    + unfold gen_variables_section, sorted_partial.
      rewrite mapM_keys_full. cbn [mbind result_bind]. rewrite sort_keyed_map.
      assert (E : forall d : list (pystr * (pystr * pystr)),
                 List.map snd (List.map (fun p => (fst p, full_variable (snd p))) d)
                 = List.map full_variable (List.map snd d)).
      { intros d. rewrite !List.map_map. reflexivity. }
      rewrite E. fold (sorted str_ltb fst kvs). rewrite mapM_rows_full.
      reflexivity.
    + apply sorted_perm.
    + apply (sorted_sorted str_ltb str_ltb_asym).
      intros a b c. apply str_ltb_negtrans.
  - intros k. reflexivity.
  - intros vs Hkeys Hex. unfold gen_variables_section, sorted_partial.
    destruct (keyed_variables vs Hkeys) as (keyed & -> & Hvs).
    cbn [mbind result_bind].
    assert (Hp : Permutation vs (List.map snd (sort_keyed str_ltb keyed))).
    { rewrite <- Hvs. apply Permutation_map, sort_keyed_perm. }
    rewrite (mapM_raise variable_row (KeyError py:"value")); [reflexivity | |].
    + rewrite <- Hp. revert Hkeys. apply List.Forall_impl.
      intros v [k Hk]. unfold variable_row. rewrite Hk. cbn [getitem mbind result_bind].
      destruct (var_value v); [left; eexists; reflexivity | right; reflexivity].
    + rewrite <- Hp. pose proof (Exists_and_Forall _ _ _ Hkeys Hex) as Hboth.
      revert Hboth. apply List.Exists_impl.
      intros v [[k Hk] Hv]. unfold variable_row. rewrite Hk, Hv. reflexivity.
Qed.

Lemma gen_variables_section_spec_witness :
  gen_variables_section [{| var_key := Some py:"host"; var_value := None |}]
  = Raise (KeyError py:"value").
Proof.
  refine (proj2 (proj2 gen_variables_section_spec)
            [{| var_key := Some py:"host"; var_value := None |}] _ _).
  - repeat constructor. eexists; reflexivity.
  - constructor. reflexivity.
Defined.

(** C5, as the specification words it, fails: without a [value] field no row
    is rendered. *)
Lemma gen_variables_section_missing_value :
  gen_variables_section [{| var_key := Some py:"host"; var_value := None |}]
  = Raise (KeyError py:"value").
Proof. reflexivity. Qed.

(** ** Failures of the variables section *)

Lemma raises_mapM {A B} (f : A -> result B) (l : list A) :
  raises (mapM f l) = existsb (fun x => raises (f x)) l.
Proof.
  induction l as [|x l IH]; [reflexivity|].
  transitivity (raises (f x) || raises (mapM f l)).
  - cbn [mapM]. destruct (f x); [destruct (mapM f l)|]; reflexivity.
  - rewrite IH. reflexivity.
Qed.

Lemma existsb_perm {A} (f : A -> bool) (l l' : list A) :
  Permutation l l' -> existsb f l = existsb f l'.
Proof.
  induction 1 as [|x l l' _ IH|x y l|l l' l'' _ IH1 _ IH2]; cbn [existsb].
  - reflexivity.
  - rewrite IH. reflexivity.
  - destruct (f x), (f y); reflexivity.
  - congruence.
Qed.

Lemma mapM_keyed_snd {A K} (key : A -> result K) (l : list A) (keyed : list (K * A)) :
  mapM (fun x => k ← key x; Ok (k, x)) l = Ok keyed -> List.map snd keyed = l.
Proof.
  revert keyed. induction l as [|x l IH]; intros keyed H.
  - cbv [mapM mret result_ret] in H. injection H as <-. reflexivity.
  - cbn [mapM] in H. destruct (key x) as [k|e]; [|discriminate H].
    cbn [mbind result_bind] in H.
    destruct (mapM (fun x => k ← key x; Ok (k, x)) l) as [ks|e]; [|discriminate H].
    injection H as <-. cbn [List.map snd]. rewrite (IH ks eq_refl). reflexivity.
Qed.

Lemma variable_row_raises (v : Variable_) :
  raises (variable_row v) = negb (complete_variable v).
Proof. destruct v as [[k|] [x|]]; reflexivity. Qed.

Lemma existsb_incomplete (vs : list Variable_) :
  existsb (fun v => raises (variable_row v)) vs = negb (forallb complete_variable vs).
Proof.
  induction vs as [|v vs IH]; [reflexivity|].
  cbn [existsb forallb]. rewrite IH, variable_row_raises, negb_andb. reflexivity.
Qed.

Lemma keys_raise (vs : list Variable_) :
  Exists (fun v => var_key v = None) vs ->
  mapM (fun v => k ← getitem py:"key" (var_key v); Ok (k, v)) vs
  = Raise (KeyError py:"key").
Proof.
  induction vs as [|v vs IH]; intros H; [inversion H|].
  cbn [mapM]. destruct (var_key v) as [k|] eqn:E; [|reflexivity].
  cbn [getitem mbind result_bind]. rewrite IH; [reflexivity|].
  inversion H as [? ? Hv|? ? Hr]; subst; [congruence | exact Hr].
Qed.

Lemma keys_raise_incomplete (vs : list Variable_) (e : exn) :
  mapM (fun v => k ← getitem py:"key" (var_key v); Ok (k, v)) vs = Raise e ->
  forallb complete_variable vs = false.
Proof.
  revert e. induction vs as [|v vs IH]; intros e; [discriminate|].
  cbn [mapM forallb]. unfold complete_variable at 1.
  destruct (var_key v) as [k|]; [|reflexivity].
  cbn [getitem mbind result_bind].
  destruct (mapM _ vs) as [ks|e'] eqn:E; [discriminate|].
  intros _. rewrite (IH e' eq_refl). apply andb_false_r.
Qed.

Lemma gen_variables_section_raises (vs : list Variable_) :
  raises (gen_variables_section vs) = negb (forallb complete_variable vs).
Proof.
  unfold gen_variables_section, sorted_partial.
  destruct (mapM (fun v => k ← getitem py:"key" (var_key v); Ok (k, v)) vs)
    as [keyed|e] eqn:Hk.
  - cbn [mbind result_bind].
    pose proof (mapM_keyed_snd _ _ _ Hk) as Hvs.
    match goal with
    | |- raises (?m ≫= _) = _ => transitivity (raises m); [destruct m; reflexivity|]
    end.
    rewrite raises_mapM, <- existsb_incomplete, <- Hvs.
    symmetry. apply existsb_perm, Permutation_map, sort_keyed_perm.
  - rewrite (keys_raise_incomplete vs e Hk). reflexivity.
Qed.

(** ** The artifacts of a run *)

Section RunFacts.
Variable ucnhash_getcode : list N -> option N.
Variable py : Interpreter.
Variable working_dir : pystr.

Lemma write_all_lookup (its : list Item) (m : gmap pystr pystr) (p : pystr) :
  write_all ucnhash_getcode py working_dir its m !! p
  = match last_writer working_dir p its with
    | Some it => Some (fragment ucnhash_getcode py it)
    | None => m !! p
    end.
Proof.
  unfold write_all, last_writer.
  induction its as [|x its IH] using rev_ind; [reflexivity|].
  rewrite fold_left_app, rev_app_distr. cbn [fold_left rev app List.find].
  destruct (str_eqb (path_of working_dir x) p) eqn:E.
  - apply str_eqb_eq in E. rewrite <- E. apply lookup_insert_eq.
  - apply str_eqb_neq in E. rewrite lookup_insert_ne by exact E. exact IH.
Qed.

Lemma last_writer_split (p : pystr) (its : list Item) (x : Item) :
  last_writer working_dir p its = Some x ->
  exists l1 l2, its = l1 ++ x :: l2 /\ path_of working_dir x = p
                /\ Forall (fun y => path_of working_dir y <> p) l2.
Proof.
  unfold last_writer. induction its as [|y its IH] using rev_ind; [discriminate|].
  rewrite rev_app_distr. cbn [rev app List.find].
  destruct (str_eqb (path_of working_dir y) p) eqn:E.
  - intros [= ->]. exists its, []. apply str_eqb_eq in E. auto.
  - intros H. destruct (IH H) as (l1 & l2 & -> & Hp & Hl2).
    exists l1, (l2 ++ [y]). rewrite <- app_assoc. split; [reflexivity|].
    split; [exact Hp|]. apply Forall_app; split; [exact Hl2|].
    constructor; [|constructor]. apply str_eqb_neq, E.
Qed.

Lemma last_writer_some (p : pystr) (its : list Item) (x : Item) :
  In x its -> path_of working_dir x = p -> exists y, last_writer working_dir p its = Some y.
Proof.
  intros Hin Hp. unfold last_writer.
  destruct (List.find (fun it => str_eqb (path_of working_dir it) p) (rev its)) eqn:E;
    [eauto|].
  assert (Hr : In x (rev its)) by (apply List.in_rev in Hin; exact Hin).
  pose proof (List.find_none _ _ E x Hr) as Hx.
  apply str_eqb_neq in Hx. contradiction.
Qed.

Lemma last_writer_after (p : pystr) (l1 l2 : list Item) (x : Item) :
  path_of working_dir x = p -> Forall (fun y => path_of working_dir y <> p) l2 ->
  last_writer working_dir p (l1 ++ x :: l2) = Some x.
Proof.
  intros Hp Hl2. unfold last_writer.
  rewrite rev_app_distr. cbn [rev]. rewrite <- app_assoc. cbn [app].
  apply List.Forall_rev in Hl2.
  induction Hl2 as [|y l Hy _ IH]; cbn [app List.find].
  - rewrite Hp, str_eqb_refl. reflexivity.
  - apply str_eqb_neq in Hy. rewrite Hy. exact IH.
Qed.

Lemma print_one_frame (w w' : World) (x : printed) :
  print_one w x = Ok w' ->
  files w' = files w /\ dirs w' = dirs w /\ serial_num w' = serial_num w.
Proof.
  unfold print_one. destruct x as [s|r]; [destruct (utf8_encodable s)|];
    intros [= <-]; auto.
Qed.

Lemma print_one_raises (w : World) (x : printed) :
  raises (print_one w x) = negb (printable x).
Proof.
  unfold print_one, printable. destruct x as [s|r];
    [destruct (utf8_encodable s)|]; reflexivity.
Qed.

Lemma print_all_frame (l : list printed) (w w' : World) :
  print_all l w = Ok w' ->
  files w' = files w /\ dirs w' = dirs w /\ serial_num w' = serial_num w.
Proof.
  unfold print_all. revert w; induction l as [|x l IH]; intros w; cbn [for_each].
  - intros [= <-]. auto.
  - intros H. apply bind_Ok in H as (w1 & H1 & H).
    apply IH in H as (-> & -> & ->). apply (print_one_frame _ _ _ H1).
Qed.

Lemma print_all_raises (l : list printed) (w : World) :
  raises (print_all l w) = negb (forallb printable l).
Proof.
  unfold print_all. revert w; induction l as [|x l IH]; intros w;
    cbn [for_each forallb]; [reflexivity|].
  rewrite raises_bind. pose proof (print_one_raises w x) as R.
  destruct (print_one w x) as [w1|e]; cbn [raises] in R.
  - rewrite IH. destruct (printable x); [reflexivity | discriminate R].
  - destruct (printable x); [discriminate R | reflexivity].
Qed.

Lemma write_file_parts (p t : pystr) (w w' : World) :
  write_file p t w = Ok w' ->
  files w' = <[p := t]> (files w) /\ dirs w' = dirs w
  /\ serial_num w' = serial_num w.
Proof.
  unfold write_file. destruct (has_nul p); [discriminate|].
  destruct (bool_decide (p ∈ dirs w) || negb (parent_exists (dirs w) p));
    [discriminate|].
  destruct (utf8_encodable t); [|discriminate]. intros [= <-]. auto.
Qed.

Lemma write_file_raises (p t : pystr) (w : World) :
  raises (write_file p t w) = negb (write_ok (dirs w) p t).
Proof.
  unfold write_file, write_ok. destruct (has_nul p); [reflexivity|].
  destruct (bool_decide (p ∈ dirs w)); [reflexivity|].
  destruct (parent_exists (dirs w) p); [|reflexivity].
  destruct (utf8_encodable t); reflexivity.
Qed.

Lemma mkdir_parts (p : pystr) (w w' : World) :
  mkdir p w = Ok w' ->
  files w' = files w /\ dirs w' = {[p]} ∪ dirs w /\ serial_num w' = serial_num w.
Proof.
  unfold mkdir. destruct (has_nul p); [discriminate|].
  destruct (path_exists w p || negb (parent_exists (dirs w) p)); [discriminate|].
  intros [= <-]. auto.
Qed.

Lemma path_exists_frame (w w' : World) (p : pystr) :
  files w' = files w -> dirs w' = dirs w -> path_exists w' p = path_exists w p.
Proof. unfold path_exists. intros -> ->. reflexivity. Qed.

Lemma emit_item_parts (name : pystr) (acc acc' : pystr * World) (it : Item) :
  emit_item ucnhash_getcode py working_dir name acc it = Ok acc' ->
  fst acc' = fst acc ++ fragment ucnhash_getcode py it
  /\ files (snd acc')
     = <[output_path working_dir name it := fragment ucnhash_getcode py it]>
         (files (snd acc))
  /\ dirs (snd acc') = dirs (snd acc)
  /\ serial_num (snd acc') = (serial_num (snd acc) + 1)%Z.
Proof.
  destruct acc as [s w]. unfold emit_item, fragment. intros H.
  apply bind_Ok in H as (w1 & H1 & H). apply bind_Ok in H as (w2 & H2 & H).
  apply bind_Ok in H as (w3 & H3 & H). apply bind_Ok in H as (w4 & H4 & H).
  injection H as <-.
  apply print_all_frame in H1 as (F1 & D1 & S1).
  apply print_all_frame in H2 as (F2 & D2 & S2).
  apply print_all_frame in H3 as (F3 & D3 & S3).
  apply write_file_parts in H4 as (F4 & D4 & S4).
  cbn [fst snd next_serial files dirs serial_num].
  rewrite F4, D4, S4, F3, D3, S3, F2, D2, S2, F1, D1, S1. auto.
Qed.

Lemma emit_item_raises (name : pystr) (acc : pystr * World) (it : Item) :
  raises (emit_item ucnhash_getcode py working_dir name acc it)
  = negb (emits_as ucnhash_getcode py working_dir (dirs (snd acc)) name it).
Proof.
  destruct acc as [s w]. unfold emit_item, emits_as, fragment. cbn [snd].
  rewrite raises_bind.
  pose proof (print_all_raises
                [PrintStr (9 :: py:" Processing " ++ req_method (item_request it))] w)
    as R1.
  destruct (print_all [PrintStr _] w) as [w1|e] eqn:E1; cbn [raises] in R1.
  2: { cbn [forallb] in R1. rewrite andb_true_r in R1.
       destruct (printable (PrintStr _)); [discriminate R1 | reflexivity]. }
  cbn [forallb] in R1. rewrite andb_true_r in R1.
  destruct (printable (PrintStr _)); [|discriminate R1]. cbn [andb]. clear R1.
  apply print_all_frame in E1 as (_ & D1 & _).
  rewrite raises_bind.
  pose proof (print_all_raises (snd (gen_request_section ucnhash_getcode py it)) w1)
    as R2.
  destruct (print_all (snd (gen_request_section ucnhash_getcode py it)) w1)
    as [w2|e] eqn:E2; cbn [raises] in R2.
  2: { destruct (forallb printable (snd (gen_request_section _ _ it)));
         [discriminate R2 | reflexivity]. }
  destruct (forallb printable (snd (gen_request_section _ _ it)));
    [|discriminate R2]. cbn [andb]. clear R2.
  apply print_all_frame in E2 as (_ & D2 & _).
  rewrite raises_bind.
  pose proof (print_all_raises (snd (gen_response_section py it)) w2) as R3.
  destruct (print_all (snd (gen_response_section py it)) w2)
    as [w3|e] eqn:E3; cbn [raises] in R3.
  2: { destruct (forallb printable (snd (gen_response_section py it)));
         [discriminate R3 | reflexivity]. }
  destruct (forallb printable (snd (gen_response_section py it)));
    [|discriminate R3]. cbn [andb]. clear R3.
  apply print_all_frame in E3 as (_ & D3 & _).
  rewrite raises_bind.
  pose proof (write_file_raises (output_path working_dir name it)
                (resource_section ucnhash_getcode py it) w3) as R4.
  rewrite D3, D2, D1 in R4.
  destruct (write_file _ _ w3); cbn [raises] in *; exact R4.
Qed.

Lemma fold_emit_parts (name : pystr) (group : list Item) (acc acc' : pystr * World) :
  for_each (emit_item ucnhash_getcode py working_dir name) group acc = Ok acc' ->
  fst acc' = fst acc ++ concat (List.map (fragment ucnhash_getcode py) group)
  /\ files (snd acc')
     = fold_left (fun m it => <[output_path working_dir name it
                                := fragment ucnhash_getcode py it]> m)
                 group (files (snd acc))
  /\ dirs (snd acc') = dirs (snd acc)
  /\ serial_num (snd acc') = (serial_num (snd acc) + Z.of_nat (length group))%Z.
Proof.
  revert acc; induction group as [|it group IH]; intros acc; cbn [for_each].
  - intros [= <-]. cbn [List.map concat fold_left length]. rewrite app_nil_r.
    repeat split. lia.
  - intros H. apply bind_Ok in H as (acc1 & H1 & H).
    apply IH in H as (-> & -> & -> & ->).
    apply emit_item_parts in H1 as (-> & -> & -> & ->).
    cbn [List.map concat fold_left length]. rewrite <- app_assoc.
    repeat split. lia.
Qed.

Lemma fold_emit_raises (name : pystr) (group : list Item) (acc : pystr * World) :
  raises (for_each (emit_item ucnhash_getcode py working_dir name) group acc)
  = negb (forallb (emits_as ucnhash_getcode py working_dir (dirs (snd acc)) name) group).
Proof.
  revert acc; induction group as [|it group IH]; intros acc;
    cbn [for_each forallb]; [reflexivity|].
  rewrite raises_bind. pose proof (emit_item_raises name acc it) as R.
  destruct (emit_item _ _ _ name acc it) as [acc1|e] eqn:E; cbn [raises] in R.
  - apply emit_item_parts in E as (_ & _ & D & _). rewrite IH, D.
    destruct (emits_as _ _ _ _ name it); [reflexivity | discriminate R].
  - destruct (emits_as _ _ _ _ name it); [discriminate R | reflexivity].
Qed.

Lemma fold_insert_is_Some {A} (key : A -> pystr) (val : A -> pystr) (l : list A)
    (m : gmap pystr pystr) (p : pystr) :
  is_Some (m !! p) -> is_Some (fold_left (fun m x => <[key x := val x]> m) l m !! p).
Proof.
  revert m; induction l as [|x l IH]; intros m H; [exact H|].
  cbn [fold_left]. apply IH. rewrite lookup_insert_is_Some.
  destruct (decide (key x = p)); [left; assumption | right; auto].
Qed.

Lemma gen_resource_section_parts (name : pystr) (group : list Item) (w : World)
    (r : pystr * World) :
  gen_resource_section ucnhash_getcode py working_dir name group w = Ok r ->
  fst r = concat (List.map (fragment ucnhash_getcode py) group)
  /\ files (snd r)
     = fold_left (fun m it => <[output_path working_dir name it
                                := fragment ucnhash_getcode py it]> m)
                 group (files w)
  /\ dirs (snd r) = dirs_with w (generated_dir working_dir)
  /\ serial_num (snd r) = (serial_num w + Z.of_nat (length group))%Z
  /\ path_exists (snd r) (generated_dir working_dir) = true.
Proof.
  unfold gen_resource_section, dirs_with. cbv zeta. fold (generated_dir working_dir).
  intros H. apply bind_Ok in H as (w1 & H1 & H).
  apply fold_emit_parts in H as (-> & HF & HD & ->). cbn [fst snd app] in *.
  rewrite HF, HD.
  assert (Hw : files w1 = files w /\ serial_num w1 = serial_num w
               /\ dirs w1 = (if path_exists w (generated_dir working_dir)
                             then dirs w else {[generated_dir working_dir]} ∪ dirs w)
               /\ path_exists w1 (generated_dir working_dir) = true).
  { destruct (path_exists w (generated_dir working_dir)) eqn:E.
    - injection H1 as <-. auto.
    - apply mkdir_parts in H1 as (F & D & S). rewrite F, D, S.
      repeat split. unfold path_exists. rewrite D. apply orb_true_iff. left.
      apply bool_decide_eq_true. clear. set_solver. }
  destruct Hw as (F & S & D & P). rewrite F, S, D.
  repeat split. unfold path_exists in *. rewrite HD.
  apply orb_true_iff in P as [P|P]; apply orb_true_iff; [left; exact P | right].
  apply bool_decide_eq_true. apply bool_decide_eq_true in P.
  rewrite HF. apply fold_insert_is_Some, P.
Qed.

Lemma gen_resource_section_raises (name : pystr) (group : list Item) (w : World) :
  raises (gen_resource_section ucnhash_getcode py working_dir name group w)
  = negb (dir_ready w (generated_dir working_dir)
          && forallb (emits_as ucnhash_getcode py working_dir
                        (dirs_with w (generated_dir working_dir)) name) group).
Proof.
  unfold gen_resource_section, dir_ready, dirs_with. cbv zeta.
  fold (generated_dir working_dir). rewrite raises_bind.
  destruct (path_exists w (generated_dir working_dir)) eqn:E; cbn [orb andb].
  - apply fold_emit_raises.
  - unfold mkdir. rewrite E. cbn [orb].
    destruct (has_nul (generated_dir working_dir)); [reflexivity|].
    destruct (parent_exists (dirs w) (generated_dir working_dir)); [|reflexivity].
    cbn [negb andb]. rewrite fold_emit_raises. reflexivity.
Qed.

Lemma export_group_Ok (acc acc' : pystr * World) (name : pystr) (group : list Item) :
  export_group ucnhash_getcode py working_dir acc (name, group) = Ok acc' ->
  exists w1 r,
    print_all [PrintStr (py:"Exporting: " ++ name)] (snd acc) = Ok w1
    /\ gen_resource_section ucnhash_getcode py working_dir name group w1 = Ok r
    /\ acc' = (fst acc ++ fst r, snd r).
Proof.
  destruct acc as [doc w]. unfold export_group. intros H.
  apply bind_Ok in H as (w1 & H1 & H). apply bind_Ok in H as ([sections w2] & H2 & H).
  injection H as <-. exists w1, (sections, w2). auto.
Qed.

Lemma export_group_raises (acc : pystr * World) (name : pystr) (group : list Item) :
  raises (export_group ucnhash_getcode py working_dir acc (name, group))
  = negb (dir_ready (snd acc) (generated_dir working_dir)
          && group_emits ucnhash_getcode py working_dir
               (dirs_with (snd acc) (generated_dir working_dir)) (name, group)).
Proof.
  destruct acc as [doc w]. unfold export_group, group_emits. cbn [fst snd].
  rewrite raises_bind.
  pose proof (print_all_raises [PrintStr (py:"Exporting: " ++ name)] w) as R.
  cbn [forallb] in R. rewrite andb_true_r in R.
  destruct (print_all [PrintStr _] w) as [w1|e] eqn:E; cbn [raises] in R.
  - destruct (printable (PrintStr _)); [|discriminate R]. cbn [andb].
    apply print_all_frame in E as (F & D & _).
    rewrite raises_bind.
    pose proof (gen_resource_section_raises name group w1) as R2.
    unfold dir_ready, dirs_with in *.
    rewrite (path_exists_frame w w1 _ F D), D in R2.
    destruct (gen_resource_section _ _ _ name group w1) as [[sections w2]|e];
      cbn [raises] in *; exact R2.
  - destruct (printable (PrintStr _)); [discriminate R|].
    cbn [andb]. rewrite andb_false_r. reflexivity.
Qed.

Lemma fold_export_parts (groups : list (pystr * list Item)) (acc acc' : pystr * World) :
  Forall (group_ok item_name) groups ->
  for_each (export_group ucnhash_getcode py working_dir) groups acc = Ok acc' ->
  fst acc' = fst acc ++ concat (List.map (fragment ucnhash_getcode py)
                                         (concat (List.map snd groups)))
  /\ files (snd acc')
     = write_all ucnhash_getcode py working_dir (concat (List.map snd groups))
         (files (snd acc))
  /\ serial_num (snd acc')
     = (serial_num (snd acc) + Z.of_nat (length (concat (List.map snd groups))))%Z
  /\ dirs (snd acc')
     = (match groups with
        | [] => dirs (snd acc)
        | _ :: _ => dirs_with (snd acc) (generated_dir working_dir)
        end)
  /\ (groups <> [] \/ path_exists (snd acc) (generated_dir working_dir) = true ->
      path_exists (snd acc') (generated_dir working_dir) = true).
Proof.
  intros Hg; revert acc. induction Hg as [|[name group] groups [_ Hn] _ IH];
    intros acc; cbn [for_each].
  - intros [= <-]. cbn [List.map concat length]. rewrite app_nil_r.
    repeat split; [lia | intros [H|H]; [congruence | exact H]].
  - intros H. apply bind_Ok in H as (acc1 & H1 & H).
    apply IH in H as (-> & -> & -> & HD & HP).
    apply export_group_Ok in H1 as (w1 & r & P1 & G1 & ->).
    apply print_all_frame in P1 as (F1 & D1 & S1).
    apply gen_resource_section_parts in G1 as (-> & F2 & D2 & S2 & P2).
    cbn [fst snd List.map concat] in *.
    rewrite List.map_app, concat_app, length_app, <- app_assoc, Nat2Z.inj_add.
    rewrite F2, S2, F1, S1. split; [reflexivity|]. split.
    { unfold write_all. rewrite fold_left_app. f_equal.
      clear -Hn. generalize (files (snd acc)).
      induction Hn as [|x group Hx _ IHn]; intros m; [reflexivity|].
      cbn [fold_left]. unfold path_of. rewrite Hx. apply IHn. }
    split; [lia|]. split.
    + rewrite HD. unfold dirs_with in *.
      rewrite (path_exists_frame (snd acc) w1 _ F1 D1), D1 in D2.
      destruct groups; [exact D2|]. rewrite P2. exact D2.
    + intros _. apply HP. right. exact P2.
Qed.

Lemma fold_export_raises (groups : list (pystr * list Item)) (acc : pystr * World) :
  Forall (group_ok item_name) groups ->
  raises (for_each (export_group ucnhash_getcode py working_dir) groups acc)
  = negb (match groups with
          | [] => true
          | _ :: _ =>
              dir_ready (snd acc) (generated_dir working_dir)
              && forallb (group_emits ucnhash_getcode py working_dir
                            (dirs_with (snd acc) (generated_dir working_dir))) groups
          end).
Proof.
  intros Hg; revert acc. induction Hg as [|[name group] groups Hgr Hgs IH];
    intros acc; cbn [for_each]; [reflexivity|].
  rewrite raises_bind. pose proof (export_group_raises acc name group) as R.
  cbn [forallb].
  destruct (export_group _ _ _ acc (name, group)) as [acc1|e] eqn:E;
    cbn [raises] in R.
  2: { symmetry in R. apply negb_true_iff in R.
       destruct (dir_ready _ _); [|reflexivity]. cbn [andb] in *. rewrite R.
       reflexivity. }
  symmetry in R. apply negb_false_iff, andb_true_iff in R as [R1 R2].
  rewrite R1, R2. cbn [andb]. rewrite IH.
  apply export_group_Ok in E as (w1 & r & P1 & G1 & ->).
  apply print_all_frame in P1 as (F1 & D1 & _).
  apply gen_resource_section_parts in G1 as (_ & _ & D2 & _ & P2).
  cbn [snd]. destruct groups as [|g groups]; [reflexivity|].
  unfold dir_ready at 1. rewrite P2. cbn [orb andb].
  unfold dirs_with at 1. rewrite P2, D2. unfold dirs_with.
  rewrite (path_exists_frame (snd acc) w1 _ F1 D1), D1. reflexivity.
Qed.

(** The files of a run that ends normally: the fragments of all items,
    written in the sorted order. *)
Lemma run_files (input : Collection) (w : World) (doc : pystr) (w' : World) :
  run ucnhash_getcode py working_dir input w = Ok (doc, w') ->
  files w' = write_all ucnhash_getcode py working_dir (sorted_items (item input)) (files w).
Proof.
  unfold run. intros H. apply bind_Ok in H as (v & _ & H).
  apply fold_export_parts in H as (_ & H & _); [|apply groupby_groups].
  cbn [snd] in H. rewrite H. unfold grouped_items. rewrite groupby_concat.
  reflexivity.
Qed.

Lemma grouped_items_nil (items : list Item) :
  grouped_items items = [] <-> items = [].
Proof.
  unfold grouped_items. split.
  - intros H. pose proof (groupby_concat item_name (sorted_items items)) as Hc.
    rewrite H in Hc. cbn in Hc.
    pose proof (sorted_perm pair_ltb item_key items) as Hp.
    fold (sorted_items items) in Hp. rewrite <- Hc in Hp.
    apply Permutation_nil. symmetry. exact Hp.
  - intros ->. reflexivity.
Qed.

Lemma run_parts (input : Collection) (w : World) (doc : pystr) (w' : World) :
  run ucnhash_getcode py working_dir input w = Ok (doc, w') ->
  exists v, gen_variables_section (variable input) = Ok v
  /\ doc = py:"# API Documentation" ++ NL ++ NL ++ v ++ NL
           ++ concat (List.map (fragment ucnhash_getcode py) (sorted_items (item input)))
  /\ serial_num w' = (serial_num w + Z.of_nat (length (item input)))%Z
  /\ dirs w' = (match item input with
                | [] => dirs w
                | _ :: _ => if path_exists w (generated_dir working_dir) then dirs w
                            else {[generated_dir working_dir]} ∪ dirs w
                end).
Proof.
  unfold run. intros H. apply bind_Ok in H as (v & Hv & H).
  exists v. split; [exact Hv|].
  apply fold_export_parts in H as (H1 & _ & H2 & H3 & _); [|apply groupby_groups].
  cbn [fst snd] in H1, H2, H3.
  unfold grouped_items in H1, H2. rewrite groupby_concat in H1, H2.
  split; [rewrite H1, <- !app_assoc; reflexivity|].
  split.
  - rewrite H2. f_equal. f_equal. symmetry. apply Permutation_length.
    apply (sorted_perm pair_ltb item_key).
  - rewrite H3. pose proof (grouped_items_nil (item input)) as Hn.
    destruct (grouped_items (item input)) as [|g gs].
    + rewrite (proj1 Hn eq_refl). reflexivity.
    + destruct (item input) as [|x l]; [discriminate (proj2 Hn eq_refl)|].
      reflexivity.
Qed.

Lemma forallb_perm {A} (f : A -> bool) (l l' : list A) :
  Permutation l l' -> forallb f l = forallb f l'.
Proof.
  induction 1 as [|x l l' _ IH|x y l|l l' l'' _ IH1 _ IH2]; cbn [forallb].
  - reflexivity.
  - rewrite IH. reflexivity.
  - destruct (f x), (f y); reflexivity.
  - congruence.
Qed.

Lemma groups_emit_items (ds : gset pystr) (groups : list (pystr * list Item)) :
  Forall (group_ok item_name) groups ->
  forallb (group_emits ucnhash_getcode py working_dir ds) groups
  = forallb (item_emits ucnhash_getcode py working_dir ds)
            (concat (List.map snd groups)).
Proof.
  induction 1 as [|[name group] groups [Hne Hn] _ IH]; [reflexivity|].
  cbn [forallb List.map concat snd fst] in *. rewrite forallb_app, IH. f_equal.
  unfold group_emits, item_emits. cbn [fst snd].
  destruct group as [|x group]; [congruence|]. clear Hne.
  destruct (printable (PrintStr (py:"Exporting: " ++ name))) eqn:E; cbn [andb].
  - induction Hn as [|y l Hy _ IHn]; [reflexivity|].
    cbn [forallb]. rewrite Hy, E, IHn. reflexivity.
  - inversion Hn as [|? ? Hx _]; subst. cbn [forallb]. rewrite E. reflexivity.
Qed.

(** When a run raises. *)
Lemma run_raises (input : Collection) (w : World) :
  raises (run ucnhash_getcode py working_dir input w)
  = negb (run_completes ucnhash_getcode py working_dir input w).
Proof.
  unfold run, run_completes. rewrite raises_bind.
  pose proof (gen_variables_section_raises (variable input)) as Hv.
  destruct (gen_variables_section (variable input)) as [v|e]; cbn [raises] in Hv.
  2: { symmetry in Hv. apply negb_true_iff in Hv. rewrite Hv. reflexivity. }
  symmetry in Hv. apply negb_false_iff in Hv. rewrite Hv. cbn [andb].
  rewrite fold_export_raises by apply groupby_groups. cbn [snd]. f_equal.
  pose proof (grouped_items_nil (item input)) as Hn.
  destruct (grouped_items (item input)) as [|g gs] eqn:Eg.
  - rewrite (proj1 Hn eq_refl). reflexivity.
  - destruct (item input) as [|x l] eqn:Ei; [discriminate (proj2 Hn eq_refl)|].
    f_equal. rewrite <- Eg, <- Ei.
    rewrite groups_emit_items by apply groupby_groups.
    unfold grouped_items. rewrite groupby_concat.
    symmetry. apply forallb_perm, (sorted_perm pair_ltb item_key).
Qed.
End RunFacts.

(** ** Items that share an artifact *)

(** C10, as the code has it: two items with the same name and method are
    written to the same path, and after the run the file holds the fragment
    of the last item, in the sorted order, that is written to that path; it
    is the later of the two when no item after it shares the path. *)
Theorem same_name_method_overwrite
    (g : list N -> option N) (py : Interpreter) (wd : pystr)
    (input : Collection) (w : World) (doc : pystr) (w' : World) (a b : Item) :
  run g py wd input w = Ok (doc, w') ->
  In a (item input) -> In b (item input) ->
  item_name a = item_name b ->
  req_method (item_request a) = req_method (item_request b) ->
  path_of wd a = path_of wd b
  /\ (exists last l1 l2,
         sorted_items (item input) = l1 ++ last :: l2
         /\ path_of wd last = path_of wd a
         /\ Forall (fun y => path_of wd y <> path_of wd a) l2
         /\ files w' !! path_of wd a = Some (fragment g py last))
  /\ (forall l1 l2 l3,
         sorted_items (item input) = l1 ++ a :: l2 ++ b :: l3 ->
         Forall (fun y => path_of wd y <> path_of wd a) l3 ->
         files w' !! path_of wd a = Some (fragment g py b)).
Proof.
  intros Hrun Ha Hb Hname Hmeth.
  assert (Hpath : path_of wd a = path_of wd b).
  { unfold path_of, output_path, file_name. rewrite Hname, Hmeth. reflexivity. }
  pose proof (run_files g py wd input w doc w' Hrun) as Hfiles.
  split; [exact Hpath|]. split.
  - assert (Hin : In a (sorted_items (item input))).
    { apply (Permutation_in a (sorted_perm pair_ltb item_key (item input))), Ha. }
    destruct (last_writer_some wd (path_of wd a) _ a Hin eq_refl) as [last Hlast].
    destruct (last_writer_split wd _ _ _ Hlast) as (l1 & l2 & Hs & Hp & Hl2).
    exists last, l1, l2. split; [exact Hs|]. split; [exact Hp|].
    split; [exact Hl2|].
    rewrite Hfiles, (write_all_lookup g py wd), Hlast. reflexivity.
  - intros l1 l2 l3 Hs Hl3.
    rewrite Hfiles, (write_all_lookup g py wd), Hs.
    replace (l1 ++ a :: l2 ++ b :: l3) with ((l1 ++ a :: l2) ++ b :: l3)
      by (rewrite <- app_assoc; reflexivity).
    rewrite (last_writer_after wd _ _ _ b (eq_sym Hpath) Hl3). reflexivity.
Qed.

Lemma same_name_method_overwrite_witness :
  exists doc w',
    run (fun _ => None) sample_interpreter [] two_users empty_world = Ok (doc, w')
    /\ path_of [] users_v1 = path_of [] users_v2
    /\ files w' !! path_of [] users_v1
       = Some (fragment (fun _ => None) sample_interpreter users_v2).
Proof.
  destruct (run (fun _ => None) sample_interpreter [] two_users empty_world)
    as [[doc w']|e] eqn:Hrun; [|vm_compute in Hrun; discriminate Hrun].
  exists doc, w'. split; [reflexivity|].
  destruct (same_name_method_overwrite (fun _ => None) sample_interpreter []
              two_users empty_world doc w' users_v1 users_v2 Hrun
              (or_introl eq_refl) (or_intror (or_introl eq_refl))
              eq_refl eq_refl) as (Hp & _ & Hlast).
  split; [exact Hp|].
  exact (Hlast [] [] [] eq_refl (List.Forall_nil _)).
Defined.

(** C10, as the specification words it, fails when a third item shares the
    path: of [users_v1] and [users_v2] the later one is [users_v2], yet the
    file ends with the fragment of [users_v3]. *)
Lemma same_name_method_third_item :
  item_name users_v1 = item_name users_v2
  /\ req_method (item_request users_v1) = req_method (item_request users_v2)
  /\ sorted_items [users_v1; users_v2; users_v3] = [users_v1; users_v2; users_v3]
  /\ (exists doc w',
         run (fun _ => None) sample_interpreter []
             {| variable := []; item := [users_v1; users_v2; users_v3] |} empty_world
         = Ok (doc, w')
         /\ files w' !! path_of [] users_v2
            = Some (fragment (fun _ => None) sample_interpreter users_v3))
  /\ fragment (fun _ => None) sample_interpreter users_v3
     <> fragment (fun _ => None) sample_interpreter users_v2.
Proof.
  split; [reflexivity|]. split; [reflexivity|]. split; [reflexivity|]. split.
  - destruct (run (fun _ => None) sample_interpreter []
                {| variable := []; item := [users_v1; users_v2; users_v3] |}
                empty_world) as [[doc w']|e] eqn:Hrun;
      [|vm_compute in Hrun; discriminate Hrun].
    exists doc, w'. split; [reflexivity|].
    rewrite (run_files _ _ _ _ _ _ _ Hrun). vm_compute. reflexivity.
  - intros H. vm_compute in H. discriminate H.
Qed.

(** ** What the encoder prints for a string

    What [json.dumps] prints for a string is a sequence of plain characters
    and escapes, all of them in ASCII. *)

Lemma escaped_app (a b : pystr) : escaped a -> escaped b -> escaped (a ++ b).
Proof.
  induction 1; intros Hb; cbn [app];
    [exact Hb | apply escaped_plain | apply escaped_simple | apply escaped_u];
    auto.
Qed.

Lemma is_hex_hex_char (n : N) : is_hex (hex_char (n mod 16)).
Proof.
  assert (H : n mod 16 < 16) by (apply N.mod_lt; discriminate).
  destruct (n mod 16) as [|p]; [eexists; reflexivity|].
  do 4 (destruct p as [p|p|]; try (eexists; reflexivity)); exfalso; lia.
Qed.

Lemma escaped_u_escape (n : N) : escaped (u_escape n).
Proof.
  unfold u_escape. apply escaped_u; try apply is_hex_hex_char. constructor.
Qed.

Lemma escaped_escape_ascii_char (c : N) : escaped (escape_ascii_char c).
Proof.
  unfold escape_ascii_char.
  assert (Hs : forall e, is_simple_escape_letter e = true ->
                         escaped [BACKSLASH; e]).
  { intros e He. apply escaped_simple; [exact He | constructor]. }
  destruct (c =? DQUOTE) eqn:Eq; [apply Hs; reflexivity|].
  destruct (c =? BACKSLASH) eqn:Eb; [apply Hs; reflexivity|].
  destruct (c =? LF); [apply Hs; reflexivity|].
  destruct (c =? CR); [apply Hs; reflexivity|].
  destruct (c =? 9); [apply Hs; reflexivity|].
  destruct (c =? 12); [apply Hs; reflexivity|].
  destruct (c =? 8); [apply Hs; reflexivity|].
  destruct ((32 <=? c) && (c <=? 126)) eqn:E.
  { apply escaped_plain; [|constructor]. rewrite E, Eq, Eb. reflexivity. }
  destruct (c <? 65536); [apply escaped_u_escape|].
  apply escaped_app; apply escaped_u_escape.
Qed.

Lemma escaped_flat_map (s : pystr) : escaped (flat_map escape_ascii_char s).
Proof.
  induction s as [|c s IH]; [constructor|]. cbn [flat_map].
  apply escaped_app; [apply escaped_escape_ascii_char | exact IH].
Qed.

Lemma escaped_ascii (s : pystr) : escaped s -> forallb (fun c => c <=? 255) s = true.
Proof.
  assert (Hh : forall h, is_hex h -> (h <=? 255) = true).
  { intros h [d Hd]. unfold hex_val in Hd.
    destruct ((48 <=? h) && (h <=? 57)) eqn:E1; bool_to_prop; [lia|].
    destruct ((97 <=? h) && (h <=? 102)) eqn:E2; bool_to_prop; [lia|].
    destruct ((65 <=? h) && (h <=? 70)) eqn:E3; bool_to_prop; [lia|discriminate]. }
  induction 1 as [|c s Hc _ IH|e s He _ IH|h1 h2 h3 h4 s H1 H2 H3 H4 _ IH];
    cbn [forallb]; [reflexivity| | |].
  - rewrite IH, andb_true_r. unfold DQUOTE, BACKSLASH in *. bool_to_prop. lia.
  - rewrite IH, andb_true_r. unfold is_simple_escape_letter, DQUOTE, BACKSLASH in *.
    bool_to_prop. lia.
  - rewrite IH, (Hh _ H1), (Hh _ H2), (Hh _ H3), (Hh _ H4). reflexivity.
Qed.

Lemma json_dumps_str (py : Interpreter) (indent : option nat) (s : pystr) :
  json_dumps py indent (JStr s) = Ok (encode_basestring_ascii s).
Proof. reflexivity. Qed.

Lemma scan_once_str (py : Interpreter) (depth : nat) (r : pystr) :
  scan_once py depth (DQUOTE :: r)
  = ('(str, rest) ← scanstring r; Ok (JStr str, rest)).
Proof. destruct depth; reflexivity. Qed.

Lemma unicode_escape_skip_done (g : list N -> option N) (b : list N) :
  unicode_escape_from g (USkip 0) b = unicode_escape_from g UNormal b.
Proof. destruct b; reflexivity. Qed.

(** * Further properties of the code *)

(** ** Markup escaping *)

Lemma escape_markup_head (s : pystr) :
  match escape_markup s with
  | d :: _ => is_markup_bracket d = false
  | [] => s = []
  end.
Proof.
  destruct s as [|c r]; [reflexivity|]. unfold escape_markup. cbn [flat_map].
  destruct (is_markup_bracket c) eqn:E; cbn [app]; [reflexivity | exact E].
Qed.

Lemma unescape_escape_markup (s : pystr) : unescape_markup (escape_markup s) = s.
Proof.
  induction s as [|c r IH]; [reflexivity|].
  pose proof (escape_markup_head r) as Hh.
  change (escape_markup (c :: r))
    with ((if is_markup_bracket c then [BACKSLASH; c] else [c]) ++ escape_markup r).
  destruct (is_markup_bracket c) eqn:E; cbn [app].
  - cbn [unescape_markup]. rewrite E. cbn. rewrite IH. reflexivity.
  - destruct (escape_markup r) as [|d r'] eqn:Er.
    + subst r. reflexivity.
    + cbn [unescape_markup]. rewrite Hh, andb_false_r.
      cbn [unescape_markup] in IH. rewrite IH. reflexivity.
Qed.

Lemma escape_markup_guarded (b : bool) (s : pystr) :
  brackets_guarded b (escape_markup s) = true.
Proof.
  revert b; induction s as [|c r IH]; intros b; [reflexivity|].
  change (escape_markup (c :: r))
    with ((if is_markup_bracket c then [BACKSLASH; c] else [c]) ++ escape_markup r).
  destruct (is_markup_bracket c) eqn:E; cbn [app brackets_guarded].
  - rewrite E, IH. reflexivity.
  - rewrite E, IH. reflexivity.
Qed.

Lemma escape_markup_length (s : pystr) :
  length (escape_markup s)
  = (length s + length (List.filter is_markup_bracket s))%nat.
Proof.
  induction s as [|c r IH]; [reflexivity|].
  change (escape_markup (c :: r))
    with ((if is_markup_bracket c then [BACKSLASH; c] else [c]) ++ escape_markup r).
  cbn [List.filter]. destruct (is_markup_bracket c); cbn [app length]; rewrite IH; lia.
Qed.

(** ** File names and paths *)

Lemma sanitize_char_safe (c : N) :
  Forall (fun x => is_unsafe_char x = false) (sanitize_char c).
Proof.
  unfold sanitize_char.
  destruct (c =? 47) eqn:E47; [constructor|].
  destruct ((c =? BACKSLASH) || (c =? 58) || (c =? 42) || (c =? 63)
            || (c =? DQUOTE) || (c =? 60) || (c =? 62) || (c =? 124)) eqn:E.
  - repeat constructor.
  - repeat constructor. unfold is_unsafe_char. rewrite E47. exact E.
Qed.

Lemma sanitize_char_fixed (c : N) :
  is_unsafe_char c = false -> sanitize_char c = [c].
Proof.
  unfold is_unsafe_char, sanitize_char. intros H.
  destruct (c =? 47); [discriminate|]. cbn [orb] in H. rewrite H. reflexivity.
Qed.

Lemma flat_map_fixed {A} (f : A -> list A) (l : list A) :
  Forall (fun x => f x = [x]) l -> flat_map f l = l.
Proof.
  induction 1 as [|x l Hx _ IH]; [reflexivity|].
  cbn [flat_map]. rewrite Hx, IH. reflexivity.
Qed.

Lemma safe_name_safe (name : pystr) :
  Forall (fun c => is_unsafe_char c = false) (safe_name name).
Proof.
  rewrite safe_name_charwise. apply Forall_flat_map. intros c _.
  apply sanitize_char_safe.
Qed.

Lemma safe_name_fixed (name : pystr) :
  Forall (fun c => is_unsafe_char c = false) name -> safe_name name = name.
Proof.
  intros H. rewrite safe_name_charwise. apply flat_map_fixed.
  revert H. apply List.Forall_impl. apply sanitize_char_fixed.
Qed.

Lemma safe_name_length (name : pystr) :
  (length (safe_name name) <= length name)%nat.
Proof.
  rewrite safe_name_charwise. induction name as [|c r IH]; [reflexivity|].
  cbn [flat_map]. rewrite length_app. cbn [length].
  assert (length (sanitize_char c) <= 1)%nat; [|lia].
  unfold sanitize_char. destruct (c =? 47); [cbn; lia|].
  match goal with |- context [if ?b then _ else _] => destruct b end; cbn; lia.
Qed.

(* file names and paths *)
Lemma file_name_head (name : pystr) (it : Item) :
  startswith py:"/" (file_name name it) = false.
Proof.
  unfold file_name. pose proof (safe_name_safe name) as H.
  destruct (safe_name name) as [|c r]; [reflexivity|].
  inversion H as [|? ? Hc _]; subst. change (py:"/") with [47].
  cbn [app startswith]. unfold is_unsafe_char in Hc.
  destruct (N.eqb_spec 47 c) as [<-|_]; [discriminate Hc | reflexivity].
Qed.

Lemma endswith_snoc (p : N) (s : pystr) (c : N) :
  endswith [p] (s ++ [c]) = (p =? c).
Proof.
  unfold endswith. rewrite rev_app_distr. cbn [rev app startswith].
  destruct (p =? c); reflexivity.
Qed.

Lemma output_dir_path (wd : pystr) :
  exists d, path_join wd output_dir = d ++ py:"generated"
            /\ (d = [] /\ wd = [] \/ d = wd /\ endswith py:"/" wd = true
                \/ d = wd ++ py:"/" /\ wd <> [] /\ endswith py:"/" wd = false).
Proof.
  unfold path_join, output_dir. cbn [s2p startswith N_of_ascii].
  change (N_of_ascii "/" =? N_of_ascii "g") with false. cbv iota.
  destruct wd as [|c r].
  - exists []. split; [reflexivity|]. left; auto.
  - destruct (endswith _ (c :: r)) eqn:E.
    + exists (c :: r). split; [reflexivity|]. right; left; auto.
    + exists ((c :: r) ++ py:"/"). rewrite <- app_assoc. split; [reflexivity|].
      right; right. split; [reflexivity|]. split; [discriminate | reflexivity].
Qed.

Lemma output_path_shape (wd name : pystr) (it : Item) :
  output_path wd name it = path_join wd output_dir ++ py:"/" ++ file_name name it.
Proof.
  unfold output_path. unfold path_join at 1. rewrite file_name_head.
  destruct (output_dir_path wd) as (d & -> & _).
  change (py:"generated") with (py:"generate" ++ [100]).
  rewrite app_assoc. change (py:"/") with [47] at 1. rewrite endswith_snoc.
  change (47 =? 100) with false. cbv iota.
  destruct (d ++ py:"generate") eqn:E; [destruct d; discriminate E|].
  cbn [app]. rewrite <- !app_assoc. reflexivity.
Qed.

Lemma In_file_name_slash (name : pystr) (it : Item) :
  In 47 (file_name name it) <-> In 47 (req_method (item_request it)).
Proof.
  unfold file_name. rewrite !in_app_iff. split.
  - intros [H|[H|[H|H]]]; [|cbn in H|exact H|cbn in H].
    + pose proof (safe_name_safe name) as Hs.
      apply (proj1 (List.Forall_forall _ _) Hs) in H. discriminate H.
    + destruct H as [H|[]]; discriminate H.
    + repeat (destruct H as [H|H]; [discriminate H|]). destruct H.
  - intros H. right; right; left; exact H.
Qed.

(** ** Fixed points of the URL encoder *)

Lemma encode_full_url_clean (url : pystr) :
  Forall (fun c => is_space c = false /\ is_url_reserved c = false)
         (encode_full_url url).
Proof.
  rewrite encode_full_url_charwise. apply Forall_flat_map. intros x Hx.
  apply percent_encode_clean.
  revert x Hx. apply (proj1 (List.Forall_forall (fun c => is_space c = true -> c = SPACE) _)).
  apply Forall_dollar_form; [discriminate|].
  apply collapse_ws_spaces.
Qed.

Lemma collapse_ws_fixed (s : pystr) :
  Forall (fun c => is_space c = false) s -> collapse_ws false s = s.
Proof.
  induction 1 as [|c s Hc _ IH]; [reflexivity|].
  cbn [collapse_ws]. rewrite Hc, IH. reflexivity.
Qed.

Lemma contains_absent_head (c : N) (p s : pystr) :
  Forall (fun x => (c =? x) = false) s -> contains (c :: p) s = false.
Proof.
  induction 1 as [|x s Hx _ IH]; [reflexivity|].
  cbn [contains startswith]. rewrite Hx, IH. reflexivity.
Qed.

Lemma dollar_form_fixed (s : pystr) :
  Forall (fun c => is_url_reserved c = false) s -> dollar_form s = s.
Proof.
  intros H. unfold dollar_form.
  change (py:"{{") with [123; 123]. change (py:"}}") with [125; 125].
  rewrite (replace_absent [123; 123] py:"$" s); [|discriminate|].
  - apply replace_absent; [discriminate|]. apply contains_absent_head.
    revert H. apply List.Forall_impl. intros c Hc. unfold is_url_reserved in Hc.
    destruct (N.eqb_spec 125 c) as [<-|_]; [discriminate Hc | reflexivity].
  - apply contains_absent_head.
    revert H. apply List.Forall_impl. intros c Hc. unfold is_url_reserved in Hc.
    destruct (N.eqb_spec 123 c) as [<-|_]; [discriminate Hc | reflexivity].
Qed.

Lemma percent_encode_fixed (c : N) :
  is_url_special c = false -> percent_encode c = [c].
Proof.
  unfold is_url_special, is_url_reserved, percent_encode, DQUOTE, SPACE.
  intros H. apply orb_false_iff in H as [H H37]. apply orb_false_iff in H as [Hs Hr].
  rewrite H37.
  repeat (apply orb_false_iff in Hr as [Hr ?]).
  destruct (N.eqb_spec c 32) as [->|_]; [discriminate Hs|].
  repeat match goal with H : (_ =? _) = false |- _ => rewrite H; clear H end.
  reflexivity.
Qed.

Lemma percent_encode_length (c : N) :
  (1 <= length (percent_encode c))%nat
  /\ (length (percent_encode c) = 1%nat -> (c =? 37) = false).
Proof.
  unfold percent_encode. destruct (c =? 37); [split; [cbn; lia | discriminate]|].
  split; [|reflexivity].
  repeat match goal with |- context [if ?b then _ else _] => destruct b end; cbn; lia.
Qed.

Lemma flat_map_same_length (s : pystr) :
  length (flat_map percent_encode s) = length s ->
  Forall (fun c => (c =? 37) = false) s.
Proof.
  assert (Hge : forall l, (length l <= length (flat_map percent_encode l))%nat).
  { induction l as [|c l IH]; [reflexivity|]. cbn [flat_map]. rewrite length_app.
    pose proof (proj1 (percent_encode_length c)). cbn [length]. lia. }
  induction s as [|c s IH]; [constructor|].
  cbn [flat_map]. rewrite length_app. cbn [length]. intros H.
  pose proof (percent_encode_length c) as [H1 H2]. pose proof (Hge s).
  constructor; [apply H2; lia | apply IH; lia].
Qed.

Lemma encode_full_url_fixed (url : pystr) :
  Forall (fun c => is_url_special c = false) url -> encode_full_url url = url.
Proof.
  intros H. rewrite encode_full_url_charwise. unfold re_sub_spaces.
  rewrite collapse_ws_fixed, dollar_form_fixed.
  - apply flat_map_fixed. revert H. apply List.Forall_impl, percent_encode_fixed.
  - revert H. apply List.Forall_impl. unfold is_url_special. intros c Hc.
    apply orb_false_iff in Hc as [Hc _]. apply orb_false_iff in Hc as [_ Hc]. exact Hc.
  - revert H. apply List.Forall_impl. unfold is_url_special. intros c Hc.
    apply orb_false_iff in Hc as [Hc _]. apply orb_false_iff in Hc as [Hc _]. exact Hc.
Qed.

Lemma encode_full_url_fixed_only (url : pystr) :
  encode_full_url url = url -> Forall (fun c => is_url_special c = false) url.
Proof.
  intros H. pose proof (encode_full_url_clean url) as Hc. rewrite H in Hc.
  assert (H37 : Forall (fun c => (c =? 37) = false) url).
  { apply flat_map_same_length. rewrite encode_full_url_charwise in H.
    unfold re_sub_spaces in H. rewrite collapse_ws_fixed, dollar_form_fixed in H.
    - rewrite H. reflexivity.
    - revert Hc. apply List.Forall_impl. tauto.
    - revert Hc. apply List.Forall_impl. tauto. }
  apply List.Forall_forall. intros c Hin.
  apply (proj1 (List.Forall_forall _ _) Hc) in Hin as Hcc.
  apply (proj1 (List.Forall_forall _ _) H37) in Hin as Hc37.
  unfold is_url_special. destruct Hcc as [-> ->]. rewrite Hc37. reflexivity.
Qed.

(** ** The document, the counter and the storage of a run *)

Section RunParts.
Variable g : list N -> option N.
Variable py : Interpreter.
Variable wd : pystr.

Lemma last_writer_none (p : pystr) (its : list Item) :
  Forall (fun it => path_of wd it <> p) its -> last_writer wd p its = None.
Proof.
  intros H. unfold last_writer. apply List.Forall_rev in H.
  induction H as [|x l Hx _ IH]; [reflexivity|].
  cbn [List.find]. apply str_eqb_neq in Hx. rewrite Hx. exact IH.
Qed.

Lemma run_other_files (input : Collection) (w : World) (doc : pystr) (w' : World)
    (p : pystr) :
  run g py wd input w = Ok (doc, w') ->
  (forall it, In it (item input) -> path_of wd it <> p) ->
  files w' !! p = files w !! p.
Proof.
  intros Hrun Hp. rewrite (run_files g py wd input w doc w' Hrun),
    (write_all_lookup g py wd).
  rewrite last_writer_none; [reflexivity|].
  apply List.Forall_forall. intros it Hin. apply Hp.
  apply (Permutation_in it (Permutation_sym (sorted_perm pair_ltb item_key (item input)))).
  exact Hin.
Qed.

Lemma run_keeps_files (input : Collection) (w : World) (doc : pystr) (w' : World)
    (p : pystr) :
  run g py wd input w = Ok (doc, w') ->
  is_Some (files w !! p) -> is_Some (files w' !! p).
Proof.
  intros Hrun Hp. rewrite (run_files g py wd input w doc w' Hrun),
    (write_all_lookup g py wd).
  destruct (last_writer wd p (sorted_items (item input))); [eexists; reflexivity|].
  exact Hp.
Qed.

Lemma run_same_storage (input : Collection) (w1 w2 : World) (doc : pystr) (w1' : World) :
  files w1 = files w2 -> dirs w1 = dirs w2 ->
  run g py wd input w1 = Ok (doc, w1') ->
  exists w2', run g py wd input w2 = Ok (doc, w2')
              /\ files w2' = files w1' /\ dirs w2' = dirs w1'.
Proof.
  intros Hf Hd Hrun.
  destruct (run g py wd input w2) as [[doc2 w2']|e] eqn:Hrun2.
  - destruct (run_parts g py wd input w1 doc w1' Hrun) as (v & Hv & -> & _ & Hd1).
    destruct (run_parts g py wd input w2 doc2 w2' Hrun2) as (v2 & Hv2 & -> & _ & Hd2).
    assert (v2 = v) as -> by congruence.
    exists w2'. split; [reflexivity|]. split.
    + rewrite (run_files g py wd input w1 _ w1' Hrun),
        (run_files g py wd input w2 _ w2' Hrun2), Hf. reflexivity.
    + rewrite Hd1, Hd2. unfold path_exists. rewrite Hf, Hd. reflexivity.
  - exfalso. pose proof (run_raises g py wd input w1) as R1.
    pose proof (run_raises g py wd input w2) as R2.
    rewrite Hrun in R1. rewrite Hrun2 in R2. cbn [raises] in R1, R2.
    assert (Hc : run_completes g py wd input w1 = run_completes g py wd input w2).
    { unfold run_completes, dir_ready, dirs_with, path_exists.
      rewrite Hf, Hd. reflexivity. }
    rewrite Hc in R1. congruence.
Qed.
End RunParts.

(** ** The request payload of a raw body

    [json.dumps] writes a string with [\u] escapes for everything outside
    printable ASCII; [json.loads] reads them back, and so does the
    [unicode_escape] codec inside [clean], which leaves the two halves of a
    surrogate pair apart. *)

Lemma land_disjoint (a b k : N) : b < 2 ^ k -> N.land (a * 2 ^ k) b = 0.
Proof.
  intros Hb. apply N.bits_inj_0. intros n. rewrite N.land_spec.
  destruct (N.lt_ge_cases n k) as [H|H].
  - rewrite N.mul_pow2_bits_low by exact H. reflexivity.
  - rewrite <- (N.mod_small b (2 ^ k)) by exact Hb.
    rewrite N.mod_pow2_bits_high by exact H. apply andb_false_r.
Qed.

Lemma lor_disjoint (a b k : N) : b < 2 ^ k -> N.lor (a * 2 ^ k) b = a * 2 ^ k + b.
Proof.
  intros Hb. rewrite <- N.lxor_lor by (apply land_disjoint, Hb).
  symmetry. apply N.add_nocarry_lxor, land_disjoint, Hb.
Qed.

Lemma mod_1024_lt (x : N) : x mod 1024 < 1024.
Proof. apply N.mod_lt. discriminate. Qed.

Lemma high_unit (n : N) :
  N.lor 55296 (N.land (N.shiftr n 10) 1023) = 55296 + (n / 1024) mod 1024.
Proof.
  change 1023 with (N.ones 10). rewrite N.land_ones, N.shiftr_div_pow2.
  change (2 ^ 10) with 1024. change 55296 with (54 * 2 ^ 10).
  apply lor_disjoint. apply mod_1024_lt.
Qed.

Lemma low_unit (n : N) :
  N.lor 56320 (N.land n 1023) = 56320 + n mod 1024.
Proof.
  change 1023 with (N.ones 10). rewrite N.land_ones.
  change (2 ^ 10) with 1024. change 56320 with (55 * 2 ^ 10).
  apply lor_disjoint. apply mod_1024_lt.
Qed.

Lemma join_surrogates_value (hi lo : N) :
  is_high_surrogate hi = true -> is_low_surrogate lo = true ->
  join_surrogates hi lo = 65536 + ((hi - 55296) * 1024 + (lo - 56320)).
Proof.
  unfold is_high_surrogate, is_low_surrogate, join_surrogates. intros Hh Hl.
  apply andb_true_iff in Hh as [Hh1 Hh2]. apply andb_true_iff in Hl as [Hl1 Hl2].
  apply N.leb_le in Hh1, Hh2, Hl1, Hl2.
  rewrite N.shiftl_mul_pow2. rewrite lor_disjoint; [reflexivity|].
  change (2 ^ 10) with 1024. lia.
Qed.

Lemma hex_digits_value (n : N) :
  n < 65536 ->
  ((n / 4096 mod 16 * 16 + n / 256 mod 16) * 16 + n / 16 mod 16) * 16 + n mod 16 = n.
Proof.
  intros Hn.
  assert (H256 : n / 256 = n / 16 / 16) by (rewrite N.Div0.div_div; reflexivity).
  assert (H4096 : n / 4096 = n / 16 / 16 / 16)
    by (rewrite !N.Div0.div_div; reflexivity).
  rewrite H256, H4096.
  pose proof (N.div_mod n 16) as E1.
  pose proof (N.div_mod (n / 16) 16) as E2.
  pose proof (N.div_mod (n / 16 / 16) 16) as E3.
  assert (Hc : n / 16 / 16 / 16 < 16).
  { rewrite <- H4096. apply N.Div0.div_lt_upper_bound. exact Hn. }
  rewrite (N.mod_small _ _ Hc).
  specialize (E1 ltac:(discriminate)). specialize (E2 ltac:(discriminate)).
  specialize (E3 ltac:(discriminate)).
  remember (n / 16) as a. remember (a / 16) as b. remember (b / 16) as c.
  remember (n mod 16) as r1. remember (a mod 16) as r2. remember (b mod 16) as r3.
  lia.
Qed.

Lemma hex_val_hex_char (d : N) : d < 16 -> hex_val (hex_char d) = Some d.
Proof.
  intros Hd. unfold hex_char, hex_val. destruct (N.ltb_spec d 10) as [H|H].
  - assert ((48 <=? 48 + d) && (48 + d <=? 57) = true) as ->
      by (apply andb_true_iff; split; apply N.leb_le; lia).
    f_equal. lia.
  - assert ((48 <=? 87 + d) && (87 + d <=? 57) = false) as ->
      by (apply andb_false_iff; right; apply N.leb_gt; lia).
    assert ((97 <=? 87 + d) && (87 + d <=? 102) = true) as ->
      by (apply andb_true_iff; split; apply N.leb_le; lia).
    f_equal. lia.
Qed.

Lemma hex_digits_u_escape (n : N) (t : pystr) :
  n < 65536 ->
  hex_digits 4 0 (hex_char (N.shiftr n 12 mod 16) :: hex_char (N.shiftr n 8 mod 16)
                  :: hex_char (N.shiftr n 4 mod 16) :: hex_char (n mod 16) :: t)
  = Some n.
Proof.
  intros Hn. cbn [hex_digits].
  rewrite !hex_val_hex_char by (apply N.mod_lt; discriminate).
  rewrite !N.shiftl_mul_pow2, !N.shiftr_div_pow2.
  change (2 ^ 4) with 16. change (2 ^ 8) with 256. change (2 ^ 12) with 4096.
  rewrite N.mul_0_l, N.add_0_l. f_equal. apply hex_digits_value, Hn.
Qed.

Lemma surrogate_units_bounds (n : N) :
  is_high_surrogate (N.lor 55296 (N.land (N.shiftr n 10) 1023)) = true
  /\ is_low_surrogate (N.lor 56320 (N.land n 1023)) = true
  /\ is_low_surrogate (N.lor 55296 (N.land (N.shiftr n 10) 1023)) = false
  /\ N.lor 55296 (N.land (N.shiftr n 10) 1023) < 65536
  /\ N.lor 56320 (N.land n 1023) < 65536.
Proof.
  rewrite high_unit, low_unit. unfold is_high_surrogate, is_low_surrogate.
  pose proof (mod_1024_lt (n / 1024)) as H1. pose proof (mod_1024_lt n) as H2.
  remember (n / 1024 mod 1024) as a. remember (n mod 1024) as b.
  split; [apply andb_true_iff; split; apply N.leb_le; lia|].
  split; [apply andb_true_iff; split; apply N.leb_le; lia|].
  split; [apply andb_false_iff; left; apply N.leb_gt; lia|].
  split; lia.
Qed.

Section DecodeDumps.
Variable g : list N -> option N.

Lemma unicode_escape_u_escape (n : N) (t : list N) :
  n < 65536 ->
  unicode_escape_from g UNormal (u_escape n ++ t)
  = rcons n (unicode_escape_from g UNormal t).
Proof.
  intros Hn. unfold u_escape. cbn [app].
  match goal with
  | |- unicode_escape_from g UNormal (BACKSLASH :: 117 :: ?r) = _ =>
      change (unicode_escape_from g UNormal (BACKSLASH :: 117 :: r))
        with (match hex_digits 4 0 r with
              | Some ch =>
                  if ch <=? MAX_UNICODE
                  then rcons ch (unicode_escape_from g (USkip 4) r)
                  else Raise UnicodeDecodeError
              | None => Raise UnicodeDecodeError
              end)
  end.
  rewrite (hex_digits_u_escape n t Hn).
  assert ((n <=? MAX_UNICODE) = true) as -> by (unfold MAX_UNICODE; bool_to_prop; lia).
  cbn [unicode_escape_from]. rewrite unicode_escape_skip_done. reflexivity.
Qed.

Lemma unicode_escape_char (c : N) (t : list N) :
  unicode_escape_from g UNormal (escape_ascii_char c ++ t)
  = (fun y => utf16_units c ++ y) <$> unicode_escape_from g UNormal t.
Proof.
  unfold escape_ascii_char.
  destruct (N.eqb_spec c DQUOTE) as [->|Hq]; [reflexivity|].
  destruct (N.eqb_spec c BACKSLASH) as [->|Hb]; [reflexivity|].
  destruct (N.eqb_spec c LF) as [->|?]; [reflexivity|].
  destruct (N.eqb_spec c CR) as [->|?]; [reflexivity|].
  destruct (N.eqb_spec c 9) as [->|?]; [reflexivity|].
  destruct (N.eqb_spec c 12) as [->|?]; [reflexivity|].
  destruct (N.eqb_spec c 8) as [->|?]; [reflexivity|].
  destruct ((32 <=? c) && (c <=? 126)) eqn:E.
  { cbn [app]. rewrite unicode_escape_verbatim by (apply N.eqb_neq, Hb).
    unfold utf16_units.
    assert ((c <? 65536) = true) as -> by (bool_to_prop; lia). reflexivity. }
  unfold utf16_units. destruct (N.ltb_spec c 65536) as [Hc|Hc].
  { rewrite unicode_escape_u_escape by exact Hc. reflexivity. }
  destruct (surrogate_units_bounds (c - 65536)) as (_ & _ & _ & Hh & Hl).
  rewrite <- app_assoc, !unicode_escape_u_escape by assumption.
  destruct (unicode_escape_from g UNormal t); reflexivity.
Qed.

Lemma unicode_escape_flat_map (raw t : list N) :
  unicode_escape_from g UNormal (flat_map escape_ascii_char raw ++ t)
  = (fun y => flat_map utf16_units raw ++ y) <$> unicode_escape_from g UNormal t.
Proof.
  induction raw as [|c r IH]; cbn [flat_map app].
  - destruct (unicode_escape_from g UNormal t); reflexivity.
  - rewrite <- app_assoc, unicode_escape_char, IH.
    destruct (unicode_escape_from g UNormal t); cbn [fmap result_fmap];
      [rewrite app_assoc|]; reflexivity.
Qed.
End DecodeDumps.

(** Replacements and a character that is not part of the pattern. *)
Lemma startswith_snoc (c : N) (p s : pystr) :
  ~ In c p -> p <> [] -> startswith p (s ++ [c]) = startswith p s.
Proof.
  revert s; induction p as [|a p IH]; intros s Hc Hp; [congruence|].
  destruct s as [|x s]; cbn [app startswith].
  - destruct (N.eqb_spec a c) as [->|_]; [|reflexivity].
    exfalso. apply Hc. left; reflexivity.
  - destruct p as [|b p'].
    + destruct (a =? x); reflexivity.
    + rewrite IH; [reflexivity | | discriminate].
      intros H. apply Hc. right; exact H.
Qed.

Lemma startswith_length (p s : pystr) :
  startswith p s = true -> (length p <= length s)%nat.
Proof.
  revert s; induction p as [|a p IH]; intros [|x s]; cbn [startswith length];
    try lia; try discriminate.
  intros H. apply andb_true_iff in H as [_ H]. apply IH in H. lia.
Qed.

Lemma replace_from_snoc (old new : pystr) (c : N) (s : pystr) (k : nat) :
  ~ In c old -> old <> [] -> (k <= length s)%nat ->
  replace_from old new k (s ++ [c]) = replace_from old new k s ++ [c].
Proof.
  intros Hc Hold. revert k. induction s as [|x s IH]; intros k Hk.
  - assert (k = 0%nat) as -> by (cbn in Hk; lia).
    cbn [app replace_from].
    pose proof (startswith_snoc c old [] Hc Hold) as E. cbn [app] in E. rewrite E.
    destruct old; [congruence | reflexivity].
  - cbn [app replace_from]. destruct k as [|k].
    + change (x :: s ++ [c]) with ((x :: s) ++ [c]).
      rewrite (startswith_snoc c old (x :: s) Hc Hold).
      destruct (startswith old (x :: s)) eqn:E.
      * apply startswith_length in E. cbn [length] in E.
        rewrite IH by lia. rewrite app_assoc. reflexivity.
      * rewrite IH by lia. reflexivity.
    + apply IH. cbn [length] in Hk. lia.
Qed.

Lemma replace_between (old new : pystr) (c : N) (s : pystr) :
  ~ In c old -> old <> [] ->
  replace old new (c :: s ++ [c]) = c :: replace old new s ++ [c].
Proof.
  intros Hc Hold. unfold replace. destruct old as [|o old']; [congruence|].
  cbn [replace_from startswith].
  destruct (N.eqb_spec o c) as [->|_]; [exfalso; apply Hc; left; reflexivity|].
  cbn [andb]. rewrite replace_from_snoc; [reflexivity | exact Hc | discriminate | lia].
Qed.

Lemma placeholders_rewritten_quoted (s : pystr) :
  placeholders_rewritten (DQUOTE :: s ++ [DQUOTE])
  = DQUOTE :: placeholders_rewritten s ++ [DQUOTE].
Proof.
  unfold placeholders_rewritten.
  rewrite !replace_between; [reflexivity| | | | | |]; try discriminate;
    unfold DQUOTE, CR, LF; cbn; intros H; repeat destruct H as [H|H]; try discriminate H;
    try contradiction.
Qed.

Lemma slice_quoted (s : pystr) : slice_1_m1 (DQUOTE :: s ++ [DQUOTE]) = s.
Proof. unfold slice_1_m1. cbn [tl]. apply removelast_last. Qed.

Lemma endswith_quoted (s : pystr) : endswith [DQUOTE] (DQUOTE :: s ++ [DQUOTE]) = true.
Proof.
  unfold endswith. change (DQUOTE :: s ++ [DQUOTE]) with ((DQUOTE :: s) ++ [DQUOTE]).
  rewrite rev_app_distr. reflexivity.
Qed.

Lemma clean_dumps_value (g : list N -> option N) (raw : pystr) :
  clean g (encode_basestring_ascii raw)
  = Ok (placeholders_rewritten (flat_map utf16_units raw)).
Proof.
  unfold encode_basestring_ascii, clean.
  assert (Hl : encode_latin1 (DQUOTE :: flat_map escape_ascii_char raw ++ [DQUOTE])
               = Ok (DQUOTE :: flat_map escape_ascii_char raw ++ [DQUOTE])).
  { unfold encode_latin1. cbn [forallb]. rewrite forallb_app.
    rewrite (escaped_ascii _ (escaped_flat_map raw)). reflexivity. }
  rewrite Hl. cbn [mbind result_bind]. unfold decode_unicode_escape.
  rewrite unicode_escape_verbatim by reflexivity.
  rewrite unicode_escape_flat_map.
  change (unicode_escape_from g UNormal [DQUOTE]) with (@Ok pystr [DQUOTE]).
  cbn [rcons fmap result_fmap mbind result_bind].
  fold (placeholders_rewritten (DQUOTE :: flat_map utf16_units raw ++ [DQUOTE])).
  rewrite placeholders_rewritten_quoted, endswith_quoted.
  cbn [startswith]. rewrite N.eqb_refl. cbn [andb].
  rewrite slice_quoted. reflexivity.
Qed.

(** [json.loads] on what [json.dumps] prints for a string *)
Lemma scan_u_escape (n : N) (s : pystr) :
  n < 65536 ->
  scanstring_from 0 (u_escape n ++ s)
  = if is_high_surrogate n && startswith [BACKSLASH; 117] s
    then match hex_digits 4 0 (skipn 2 s) with
         | None => Raise JSONDecodeError
         | Some uni2 =>
             if is_low_surrogate uni2
             then push_char (join_surrogates n uni2) (scanstring_from 6 s)
             else push_char n (scanstring_from 0 s)
         end
    else push_char n (scanstring_from 0 s).
Proof.
  intros Hn. unfold u_escape. cbn [app scanstring_from].
  change (BACKSLASH =? DQUOTE) with false. change (BACKSLASH =? BACKSLASH) with true.
  change (117 =? 117) with true. cbv iota.
  rewrite (hex_digits_u_escape n s Hn). cbn [skipn]. reflexivity.
Qed.

Lemma skip_u_escape (n : N) (s : pystr) :
  scanstring_from 6 (u_escape n ++ s) = scanstring_from 0 s
  /\ startswith [BACKSLASH; 117] (u_escape n ++ s) = true
  /\ (n < 65536 -> hex_digits 4 0 (skipn 2 (u_escape n ++ s)) = Some n).
Proof.
  split; [reflexivity|]. split; [reflexivity|].
  intros Hn. unfold u_escape. cbn [app skipn]. apply hex_digits_u_escape, Hn.
Qed.

Lemma escape_ascii_char_cases (c : N) :
  ((forall s, scanstring_from 0 (escape_ascii_char c ++ s)
              = push_char c (scanstring_from 0 s))
   /\ (forall s, startswith [BACKSLASH; 117] (escape_ascii_char c ++ s) = false))
  \/ (c < 65536 /\ escape_ascii_char c = u_escape c)
  \/ (65536 <= c
      /\ escape_ascii_char c
         = u_escape (N.lor 55296 (N.land (N.shiftr (c - 65536) 10) 1023))
           ++ u_escape (N.lor 56320 (N.land (c - 65536) 1023))).
Proof.
  unfold escape_ascii_char.
  destruct (N.eqb_spec c DQUOTE) as [->|Hq]; [left; split; reflexivity|].
  destruct (N.eqb_spec c BACKSLASH) as [->|Hb]; [left; split; reflexivity|].
  destruct (N.eqb_spec c LF) as [->|?]; [left; split; reflexivity|].
  destruct (N.eqb_spec c CR) as [->|?]; [left; split; reflexivity|].
  destruct (N.eqb_spec c 9) as [->|?]; [left; split; reflexivity|].
  destruct (N.eqb_spec c 12) as [->|?]; [left; split; reflexivity|].
  destruct (N.eqb_spec c 8) as [->|?]; [left; split; reflexivity|].
  destruct ((32 <=? c) && (c <=? 126)) eqn:E.
  { left. apply andb_true_iff in E as [E1 E2]. apply N.leb_le in E1, E2.
    split; intros s; cbn [app scanstring_from startswith].
    - apply N.eqb_neq in Hq, Hb. rewrite Hq, Hb.
      assert ((c <=? 31) = false) as -> by (apply N.leb_gt; lia). reflexivity.
    - destruct (N.eqb_spec BACKSLASH c) as [Hc|_]; [congruence | reflexivity]. }
  destruct (N.ltb_spec c 65536) as [Hc|Hc]; [right; left | right; right]; auto.
Qed.

Lemma escape_join (hi lo : N) :
  is_high_surrogate hi = true -> is_low_surrogate lo = true ->
  escape_ascii_char (join_surrogates hi lo) = u_escape hi ++ u_escape lo.
Proof.
  intros Hh Hl. rewrite (join_surrogates_value hi lo Hh Hl).
  unfold is_high_surrogate, is_low_surrogate in *.
  apply andb_true_iff in Hh as [Hh1 Hh2]. apply andb_true_iff in Hl as [Hl1 Hl2].
  apply N.leb_le in Hh1, Hh2, Hl1, Hl2.
  remember (hi - 55296) as a. remember (lo - 56320) as b.
  assert (Ha : a < 1024) by lia. assert (Hb : b < 1024) by lia.
  unfold escape_ascii_char, DQUOTE, BACKSLASH, LF, CR.
  repeat match goal with
         | |- context [?x =? ?y] =>
             destruct (N.eqb_spec x y) as [Hbad|_]; [exfalso; lia|]
         end.
  assert ((32 <=? 65536 + (a * 1024 + b)) && (65536 + (a * 1024 + b) <=? 126) = false)
    as -> by (apply andb_false_iff; right; apply N.leb_gt; lia).
  assert ((65536 + (a * 1024 + b) <? 65536) = false) as -> by (apply N.ltb_ge; lia).
  cbv zeta.
  replace (65536 + (a * 1024 + b) - 65536) with (a * 1024 + b) by lia.
  rewrite high_unit, low_unit.
  assert (Hdiv : (a * 1024 + b) / 1024 = a).
  { symmetry. apply (N.div_unique _ _ a b); [exact Hb | lia]. }
  assert (Hmod : (a * 1024 + b) mod 1024 = b).
  { symmetry. apply (N.mod_unique _ _ a b); [exact Hb | lia]. }
  rewrite Hdiv, Hmod, (N.mod_small a 1024 Ha).
  replace (55296 + a) with hi by lia. replace (56320 + b) with lo by lia.
  reflexivity.
Qed.

Lemma escaped_head (r rest : pystr) :
  startswith [BACKSLASH; 117] (flat_map escape_ascii_char r ++ DQUOTE :: rest) = true ->
  exists x tail,
    x < 65536
    /\ flat_map escape_ascii_char r ++ DQUOTE :: rest = u_escape x ++ tail
    /\ ((exists r2, r = x :: r2 /\ escape_ascii_char x = u_escape x
                    /\ tail = flat_map escape_ascii_char r2 ++ DQUOTE :: rest)
        \/ is_low_surrogate x = false).
Proof.
  destruct r as [|c2 r2]; [discriminate|].
  cbn [flat_map]. rewrite <- app_assoc.
  destruct (escape_ascii_char_cases c2) as [[_ Hs]|[[Hc He]|[Hc He]]].
  - rewrite Hs. discriminate.
  - intros _. exists c2, (flat_map escape_ascii_char r2 ++ DQUOTE :: rest).
    split; [exact Hc|]. split; [rewrite He; reflexivity|].
    left. exists r2. auto.
  - intros _. destruct (surrogate_units_bounds (c2 - 65536)) as (_ & _ & Hnl & Hh & _).
    eexists _, _. split; [exact Hh|]. split; [rewrite He, <- app_assoc; reflexivity|].
    right. exact Hnl.
Qed.

Lemma scanstring_dumps_aux (n : nat) (raw rest : pystr) :
  (length raw < n)%nat ->
  exists d, scanstring_from 0 (flat_map escape_ascii_char raw ++ DQUOTE :: rest)
            = Ok (d, rest)
            /\ flat_map escape_ascii_char d = flat_map escape_ascii_char raw.
Proof.
  revert raw. induction n as [|n IH]; intros raw Hlen; [lia|].
  destruct raw as [|c r]; [exists []; split; reflexivity|].
  cbn [length] in Hlen.
  assert (Hr : exists d, push_char c (scanstring_from 0
                 (flat_map escape_ascii_char r ++ DQUOTE :: rest))
               = Ok (d, rest)
               /\ flat_map escape_ascii_char d
                  = escape_ascii_char c ++ flat_map escape_ascii_char r).
  { destruct (IH r) as (d & Hd & Hd'); [lia|]. exists (c :: d). rewrite Hd.
    split; [reflexivity|]. cbn [flat_map]. rewrite Hd'. reflexivity. }
  cbn [flat_map]. rewrite <- app_assoc.
  destruct (escape_ascii_char_cases c) as [[Hs _]|[[Hc He]|[Hc He]]].
  - rewrite Hs. exact Hr.
  - rewrite He in Hr |- *. rewrite (scan_u_escape c _ Hc).
    destruct (is_high_surrogate c
              && startswith [BACKSLASH; 117]
                   (flat_map escape_ascii_char r ++ DQUOTE :: rest)) eqn:Eh;
      [|exact Hr].
    apply andb_true_iff in Eh as [Hhigh Hst].
    destruct (escaped_head r rest Hst) as (x & tail & Hx & Htail & Hcase).
    rewrite Htail. destruct (skip_u_escape x tail) as (Hsix & _ & Hhex).
    rewrite (Hhex Hx), Hsix.
    destruct (is_low_surrogate x) eqn:Elow; [|rewrite <- Htail; exact Hr].
    destruct Hcase as [(r2 & -> & Hex & ->)|Hno]; [|congruence].
    cbn [length] in Hlen. destruct (IH r2) as (d & Hd & Hd'); [lia|].
    exists (join_surrogates c x :: d). rewrite Hd. split; [reflexivity|].
    cbn [flat_map]. rewrite Hd', (escape_join c x Hhigh Elow), Hex, <- app_assoc.
    reflexivity.
  - destruct (surrogate_units_bounds (c - 65536)) as (Hhigh & Hlow & _ & Hh & Hl).
    rewrite He, <- app_assoc. rewrite (scan_u_escape _ _ Hh), Hhigh.
    match goal with
    | |- context [u_escape ?lo ++ ?tail] =>
        destruct (skip_u_escape lo tail) as (Hsix & Hst & Hhex)
    end.
    rewrite Hst, (Hhex Hl), Hlow, Hsix. cbn [andb].
    destruct (IH r) as (d & Hd & Hd'); [lia|].
    eexists (_ :: d). rewrite Hd. split; [reflexivity|].
    cbn [flat_map]. rewrite Hd', (escape_join _ _ Hhigh Hlow), <- app_assoc.
    reflexivity.
Qed.

Lemma json_loads_dumps_value (py : Interpreter) (raw : pystr) :
  exists d, json_loads py (encode_basestring_ascii raw) = Ok (JStr d)
            /\ encode_basestring_ascii d = encode_basestring_ascii raw.
Proof.
  destruct (scanstring_dumps_aux (S (length raw)) raw [] (Nat.lt_succ_diag_r _))
    as (d & Hd & Hd').
  exists d. split.
  - unfold json_loads, encode_basestring_ascii.
    change (startswith [65279] (DQUOTE :: flat_map escape_ascii_char raw ++ [DQUOTE]))
      with false.
    cbv iota. cbn [skip_ws]. change (is_json_ws DQUOTE) with false. cbv iota.
    rewrite scan_once_str. unfold scanstring. rewrite Hd. reflexivity.
  - unfold encode_basestring_ascii. rewrite Hd'. reflexivity.
Qed.

Lemma payload_try_value (g : list N -> option N) (py : Interpreter)
    (raw : pystr) :
  payload_try g py raw
  = Ok (match placeholders_rewritten (flat_map utf16_units raw) with
        | [] => (py:"json", EMPTY_OBJECT)
        | _ :: _ =>
            format_raw_data py (placeholders_rewritten (flat_map utf16_units raw))
        end).
Proof.
  unfold payload_try. cbv zeta. rewrite json_dumps_str. cbn [mbind result_bind].
  destruct (json_loads_dumps_value py raw) as (d & -> & Hd).
  cbn [mbind result_bind]. rewrite json_dumps_str. cbn [mbind result_bind].
  rewrite Hd, clean_dumps_value. cbn [mbind result_bind].
  destruct (placeholders_rewritten (flat_map utf16_units raw)); reflexivity.
Qed.

(** ** Text without backslashes *)

Lemma unicode_escape_no_backslash (g : list N -> option N) (s : pystr) :
  no_backslash s -> unicode_escape_from g UNormal s = Ok s.
Proof.
  induction 1 as [|c s Hc _ IH]; [reflexivity|].
  rewrite (unicode_escape_verbatim g c s Hc), IH. reflexivity.
Qed.

Lemma clean_no_backslash (g : list N -> option N) (s : pystr) :
  no_backslash s ->
  clean g s = if forallb (fun c => c <=? 255) s
              then Ok (strip_quotes (placeholders_rewritten s))
              else Raise UnicodeEncodeError.
Proof.
  intros H. unfold clean, encode_latin1.
  destruct (forallb (fun c => c <=? 255) s); [|reflexivity].
  cbn [mbind result_bind]. unfold decode_unicode_escape.
  rewrite (unicode_escape_no_backslash g s H). cbn [mbind result_bind].
  unfold strip_quotes, quoted. fold (placeholders_rewritten s).
  destruct (startswith [DQUOTE] (placeholders_rewritten s)
            && endswith [DQUOTE] (placeholders_rewritten s)); reflexivity.
Qed.

Lemma split_on_nonempty (sep : N) (s : pystr) : split_on sep s <> [].
Proof.
  destruct s as [|c r]; [discriminate|]. cbn [split_on].
  destruct (c =? sep); [discriminate|]. destruct (split_on sep r); discriminate.
Qed.

Lemma join_split_on (sep : N) (s : pystr) : join [sep] (split_on sep s) = s.
Proof.
  induction s as [|c r IH]; [reflexivity|]. cbn [split_on].
  pose proof (split_on_nonempty sep r) as Hne.
  destruct (N.eqb_spec c sep) as [->|_].
  - destruct (split_on sep r) as [|p ps]; [congruence|].
    cbn [join app] in *. rewrite IH. reflexivity.
  - destruct (split_on sep r) as [|p ps]; [congruence|].
    destruct ps as [|q ps]; cbn [join app] in *; rewrite IH; reflexivity.
Qed.

Lemma split_on_length (sep : N) (s : pystr) :
  length (split_on sep s) = S (length (List.filter (fun c => c =? sep) s)).
Proof.
  induction s as [|c r IH]; [reflexivity|]. cbn [split_on List.filter].
  pose proof (split_on_nonempty sep r) as Hne.
  destruct (c =? sep); cbn [length]; [rewrite IH; reflexivity|].
  destruct (split_on sep r) as [|p ps]; [congruence|]. exact IH.
Qed.

Lemma split_on_Forall (P : N -> Prop) (sep : N) (s : pystr) :
  Forall P s -> Forall (Forall P) (split_on sep s).
Proof.
  induction 1 as [|c r Hc _ IH]; [repeat constructor|]. cbn [split_on].
  destruct (c =? sep); [constructor; [constructor | exact IH]|].
  destruct (split_on sep r) as [|p ps]; [repeat constructor; exact Hc|].
  inversion IH; subst. constructor; [constructor|]; assumption.
Qed.

Lemma split_on_forallb (f : N -> bool) (sep : N) (s : pystr) :
  f sep = true ->
  forallb (forallb f) (split_on sep s) = forallb f s.
Proof.
  intros Hsep. induction s as [|c r IH]; [reflexivity|]. cbn [split_on forallb].
  pose proof (split_on_nonempty sep r) as Hne.
  destruct (N.eqb_spec c sep) as [->|_].
  - cbn [forallb]. rewrite IH, Hsep. reflexivity.
  - destruct (split_on sep r) as [|p ps]; [congruence|].
    cbn [forallb] in *. rewrite <- IH, andb_assoc. reflexivity.
Qed.

Lemma clean_list_no_backslash (g : list N -> option N) (s : pystr) :
  no_backslash s ->
  clean_list g s
  = if forallb (fun c => c <=? 255) s
    then Ok (List.map (fun p => strip_quotes (placeholders_rewritten p))
                      (split_on 44 s))
    else Raise UnicodeEncodeError.
Proof.
  intros H. unfold clean_list.
  pose proof (split_on_Forall _ 44 s H) as Hp.
  rewrite <- (split_on_forallb (fun c => c <=? 255) 44 s eq_refl).
  induction Hp as [|p ps Hp1 _ IH]; [reflexivity|].
  cbn [mapM forallb List.map]. rewrite (clean_no_backslash g p Hp1).
  destruct (forallb (fun c => c <=? 255) p); [|reflexivity].
  cbn [andb mbind result_bind]. rewrite IH.
  destruct (forallb (forallb (fun c => c <=? 255)) ps); reflexivity.
Qed.

(** ** What the encoder prints *)

Lemma plain_text_app (a b : pystr) : plain_text (a ++ b) = plain_text a && plain_text b.
Proof. apply forallb_app. Qed.

Lemma plain_text_uint (d : Decimal.uint) : plain_text (s2p (NilEmpty.string_of_uint d)) = true.
Proof. induction d; cbn [NilEmpty.string_of_uint s2p]; [reflexivity | exact IHd ..]. Qed.

Lemma plain_text_uint0 (d : Decimal.uint) :
  plain_text (s2p (NilZero.string_of_uint d)) = true.
Proof.
  unfold NilZero.string_of_uint. destruct d; try reflexivity;
    apply (plain_text_uint (_ _)).
Qed.

Lemma plain_text_repr_int (z : Z) : plain_text (repr_int z) = true.
Proof.
  unfold repr_int, NilZero.string_of_int.
  destruct (Z.to_int z) as [d|d]; [apply plain_text_uint0|].
  cbn [s2p]. change (plain_text (?c :: ?r)) with (is_plain_text c && plain_text r).
  rewrite plain_text_uint0. reflexivity.
Qed.

Lemma plain_text_repeat (n : nat) : plain_text (repeat SPACE n) = true.
Proof. induction n; [reflexivity | exact IHn]. Qed.

Lemma plain_text_hex_char (d : N) : d < 16 -> is_plain_text (hex_char d) = true.
Proof.
  intros Hd. unfold hex_char, is_plain_text. apply orb_true_iff. left.
  destruct (d <? 10); apply andb_true_iff; split; apply N.leb_le; lia.
Qed.

Lemma plain_text_u_escape (n : N) : plain_text (u_escape n) = true.
Proof.
  unfold u_escape, plain_text. cbn [forallb].
  rewrite !plain_text_hex_char by (apply N.mod_lt; discriminate). reflexivity.
Qed.

Lemma plain_text_escape_ascii_char (c : N) : plain_text (escape_ascii_char c) = true.
Proof.
  unfold escape_ascii_char.
  repeat match goal with
         | |- context [if ?x =? ?y then _ else _] => destruct (x =? y); [reflexivity|]
         end.
  destruct ((32 <=? c) && (c <=? 126)) eqn:E.
  { unfold plain_text, is_plain_text. cbn [forallb]. rewrite E. reflexivity. }
  destruct (c <? 65536); [apply plain_text_u_escape|].
  cbv zeta. rewrite plain_text_app, !plain_text_u_escape. reflexivity.
Qed.

Lemma plain_text_basestring (s : pystr) : plain_text (encode_basestring_ascii s) = true.
Proof.
  unfold encode_basestring_ascii.
  change (plain_text (DQUOTE :: ?r)) with (is_plain_text DQUOTE && plain_text r).
  rewrite plain_text_app. cbn [andb]. rewrite andb_true_r.
  change (is_plain_text DQUOTE) with true. cbn [andb].
  induction s as [|c s IH]; [reflexivity|]. cbn [flat_map].
  rewrite plain_text_app, plain_text_escape_ascii_char, IH. reflexivity.
Qed.

Lemma plain_text_join (sep : pystr) (parts : list pystr) :
  plain_text sep = true -> forallb plain_text parts = true ->
  plain_text (join sep parts) = true.
Proof.
  intros Hsep. induction parts as [|p ps IH]; [reflexivity|].
  cbn [forallb]. intros H. apply andb_true_iff in H as [Hp Hps].
  cbn [join]. destruct ps as [|q ps]; [exact Hp|].
  rewrite !plain_text_app, Hp, Hsep, (IH Hps). reflexivity.
Qed.

Lemma mapM_Forall {A B} (f : A -> result B) (P : B -> Prop) (l : list A) :
  Forall (fun x => forall y, f x = Ok y -> P y) l ->
  forall parts, mapM f l = Ok parts -> Forall P parts.
Proof.
  induction 1 as [|x l Hx _ IH]; intros parts; cbn [mapM].
  - intros [= <-]. constructor.
  - intros H. apply bind_Ok in H as (y & Hy & H).
    apply bind_Ok in H as (ys & Hys & H). injection H as <-.
    constructor; auto.
Qed.

Lemma forallb_Forall {A} (f : A -> bool) (l : list A) :
  Forall (fun x => f x = true) l -> forallb f l = true.
Proof.
  induction 1 as [|x l Hx _ IH]; [reflexivity|]. cbn [forallb].
  rewrite Hx, IH. reflexivity.
Qed.

Section EncoderText.
Variable py : Interpreter.
Variable indent : option nat.
Hypothesis floatstr_plain : forall lit, plain_text (floatstr_of_literal py lit) = true.

Lemma plain_text_newline_indent (level : nat) :
  plain_text (newline_indent indent level) = true.
Proof.
  unfold newline_indent. destruct indent; [|reflexivity].
  change (plain_text (LF :: ?r)) with (is_plain_text LF && plain_text r).
  rewrite plain_text_repeat. reflexivity.
Qed.

Lemma plain_text_item_separator : plain_text (item_separator indent) = true.
Proof. unfold item_separator. destruct indent; reflexivity. Qed.

Lemma plain_text_iterencode (o : json) :
  forall depth level text,
    iterencode py indent depth level o = Ok text -> plain_text text = true.
Proof.
  revert o. fix IH 1. intros o depth level text.
  destruct o as [|b|z|lit|s|items|members]; cbn [iterencode].
  - intros [= <-]. reflexivity.
  - destruct b; intros [= <-]; reflexivity.
  - unfold int_repr. destruct (int_too_long py _); [discriminate|].
    intros [= <-]. apply plain_text_repr_int.
  - intros [= <-]. apply floatstr_plain.
  - intros [= <-]. apply plain_text_basestring.
  - destruct depth as [|d]; [discriminate|].
    destruct items as [|x xs]; [intros [= <-]; reflexivity|].
    intros H. apply bind_Ok in H as (parts & Hparts & H).
    apply Ok_inj in H. rewrite <- H. clear H.
    assert (Hall : Forall (fun p => plain_text p = true) parts).
    { revert Hparts. apply mapM_Forall. generalize (x :: xs). intros l.
      induction l as [|y l IHl]; constructor; [intros t; apply IH | exact IHl]. }
    rewrite !plain_text_app, !plain_text_newline_indent.
    rewrite plain_text_join.
    + reflexivity.
    + rewrite plain_text_app, plain_text_item_separator, plain_text_newline_indent.
      reflexivity.
    + apply forallb_Forall, Hall.
  - destruct depth as [|d]; [discriminate|].
    destruct members as [|x xs]; [intros [= <-]; reflexivity|].
    intros H. apply bind_Ok in H as (parts & Hparts & H).
    apply Ok_inj in H. rewrite <- H. clear H.
    assert (Hall : Forall (fun p => plain_text p = true) parts).
    { revert Hparts. apply mapM_Forall. generalize (x :: xs). intros l.
      induction l as [|[k v] l IHl]; constructor; [|exact IHl].
      cbn [fst snd]. intros t Ht. apply bind_Ok in Ht as (tv & Hv & Ht).
      apply Ok_inj in Ht. rewrite <- Ht.
      rewrite !plain_text_app, plain_text_basestring.
      rewrite (IH v _ _ _ Hv). reflexivity. }
    rewrite !plain_text_app, !plain_text_newline_indent.
    rewrite plain_text_join.
    + reflexivity.
    + rewrite plain_text_app, plain_text_item_separator, plain_text_newline_indent.
      reflexivity.
    + apply forallb_Forall, Hall.
Qed.
End EncoderText.

(** ** The request payload and the end of a run *)

Lemma app_suffix (a b c d e t t' : pystr) :
  t = t' -> exists prefix, a ++ b ++ c ++ d ++ e ++ t = prefix ++ t'.
Proof.
  intros <-. exists (a ++ b ++ c ++ d ++ e). rewrite <- !app_assoc. reflexivity.
Qed.




(** ** The properties *)

(** X1: [escape_markup] only adds backslashes, one before each of the four
    brackets: dropping them gives the value back, so two values with the
    same escaped form are equal; in the result every bracket stands right
    after a backslash; the result is longer by the number of brackets; and
    escaping distributes over concatenation. *)
Theorem escape_markup_reversible :
  (forall s, unescape_markup (escape_markup s) = s)
  /\ (forall s t, escape_markup s = escape_markup t -> s = t)
  /\ (forall s, brackets_guarded false (escape_markup s) = true)
  /\ (forall s, length (escape_markup s)
                = (length s + length (List.filter is_markup_bracket s))%nat)
  /\ (forall s t, escape_markup (s ++ t) = escape_markup s ++ escape_markup t).
Proof.
  split; [apply unescape_escape_markup|].
  split.
  { intros s t H. rewrite <- (unescape_escape_markup s), H. apply unescape_escape_markup. }
  split; [apply escape_markup_guarded|].
  split; [apply escape_markup_length|].
  intros s t. unfold escape_markup. apply flat_map_app.
Qed.

(** X2: the file-safe name holds none of the nine characters of line 195;
    it is the name itself exactly when the name holds none of them;
    sanitizing twice is sanitizing once; the result is never longer than the
    name; and sanitizing distributes over concatenation. *)
Theorem safe_name_sanitizes (name : pystr) :
  Forall (fun c => is_unsafe_char c = false) (safe_name name)
  /\ (safe_name name = name <-> Forall (fun c => is_unsafe_char c = false) name)
  /\ safe_name (safe_name name) = safe_name name
  /\ (length (safe_name name) <= length name)%nat
  /\ (forall a b, safe_name (a ++ b) = safe_name a ++ safe_name b).
Proof.
  split; [apply safe_name_safe|].
  split.
  { split; [|apply safe_name_fixed]. intros H. rewrite <- H. apply safe_name_safe. }
  split; [apply safe_name_fixed, safe_name_safe|].
  split; [apply safe_name_length|].
  intros a b. rewrite !safe_name_charwise. apply flat_map_app.
Qed.

(** X3: the path of an artifact is the output directory, a slash and the
    file name, whatever the working directory and the names are; the method
    is put into the file name as it is, so the file name holds a slash
    exactly when the method does; with an empty working directory the path
    is [generated/] followed by the file name. *)
Theorem artifact_path_shape (wd name : pystr) (it : Item) :
  output_path wd name it = generated_dir wd ++ py:"/" ++ file_name name it
  /\ (In 47 (file_name name it) <-> In 47 (req_method (item_request it)))
  /\ output_path [] name it = py:"generated/" ++ file_name name it.
Proof.
  split; [apply output_path_shape|]. split; [apply In_file_name_slash|].
  rewrite output_path_shape. reflexivity.
Qed.

(** X4: [encode_full_url] leaves a URL as it is exactly when the URL holds
    no white space, none of the six reserved characters and no percent sign;
    encoding an encoded URL again changes it exactly when it holds a percent
    sign, which is then encoded a second time. *)
Theorem encode_full_url_fixed_points (url : pystr) :
  (encode_full_url url = url <-> Forall (fun c => is_url_special c = false) url)
  /\ (encode_full_url (encode_full_url url) = encode_full_url url
      <-> Forall (fun c => (c =? 37) = false) (encode_full_url url)).
Proof.
  split.
  - split; [apply encode_full_url_fixed_only | apply encode_full_url_fixed].
  - split.
    + intros H. apply encode_full_url_fixed_only in H. revert H.
      apply List.Forall_impl. unfold is_url_special. intros c Hc.
      apply orb_false_iff in Hc as [_ Hc]. exact Hc.
    + intros H. apply encode_full_url_fixed.
      pose proof (encode_full_url_clean url) as Hc.
      apply List.Forall_forall. intros c Hin.
      apply (proj1 (List.Forall_forall _ _) Hc) in Hin as Hcc.
      apply (proj1 (List.Forall_forall _ _) H) in Hin as Hc37.
      unfold is_url_special. destruct Hcc as [-> ->]. rewrite Hc37. reflexivity.
Qed.

(** X5: [gen_variables_section] raises exactly when some variable lacks its
    [key] or its [value]; when a [key] is missing the error is
    [KeyError('key')], wherever the variable stands and whatever else is
    missing, because the keys are read first, for the sort. *)
Theorem gen_variables_section_failures (vs : list Variable_) :
  raises (gen_variables_section vs) = negb (forallb complete_variable vs)
  /\ (Exists (fun v => var_key v = None) vs ->
      gen_variables_section vs = Raise (KeyError py:"key")).
Proof.
  split; [apply gen_variables_section_raises|].
  intros H. unfold gen_variables_section, sorted_partial.
  rewrite (keys_raise vs H). reflexivity.
Qed.

Lemma gen_variables_section_rows (kvs : list (pystr * pystr)) :
  gen_variables_section (List.map full_variable kvs)
  = Ok (variables_heading ++ concat (List.map table_row (sorted str_ltb fst kvs))).
Proof.
  unfold gen_variables_section, sorted_partial.
  rewrite mapM_keys_full. cbn [mbind result_bind]. rewrite sort_keyed_map.
  assert (E : forall d : list (pystr * (pystr * pystr)),
             List.map snd (List.map (fun p => (fst p, full_variable (snd p))) d)
             = List.map full_variable (List.map snd d)).
  { intros d. rewrite !List.map_map. reflexivity. }
  rewrite E. fold (sorted str_ltb fst kvs). rewrite mapM_rows_full.
  reflexivity.
Qed.

(** X6: the sort of the variables is stable: the rows of variables that
    share a key come in the order the document lists them. *)
Theorem gen_variables_section_duplicates (kvs : list (pystr * pystr)) :
  gen_variables_section (List.map full_variable kvs)
  = Ok (variables_heading ++ concat (List.map table_row (sorted str_ltb fst kvs)))
  /\ (forall k : pystr,
        List.filter (fun kv => str_eqb (fst kv) k) (sorted str_ltb fst kvs)
        = List.filter (fun kv => str_eqb (fst kv) k) kvs).
Proof.
  split; [apply gen_variables_section_rows|].
  intros k. apply (sorted_stable str_ltb fst (fun a => str_eqb a k)).
  intros a b Ha Hb. apply str_eqb_eq in Ha, Hb. subst. apply str_ltb_irrefl.
Qed.

(** X7: a run that ends normally returns the title, the variables table and
    the fragments of all items in the sorted order, one after the other; it
    adds the number of items to the serial counter; and it creates the output
    directory exactly when there is an item and nothing exists at that
    path. *)
Theorem run_document_and_counter
    (g : list N -> option N) (py : Interpreter) (wd : pystr)
    (input : Collection) (w : World) (doc : pystr) (w' : World) :
  run g py wd input w = Ok (doc, w') ->
  exists v, gen_variables_section (variable input) = Ok v
  /\ doc = py:"# API Documentation" ++ NL ++ NL ++ v ++ NL
           ++ concat (List.map (fragment g py) (sorted_items (item input)))
  /\ serial_num w' = (serial_num w + Z.of_nat (length (item input)))%Z
  /\ dirs w' = (match item input with
                | [] => dirs w
                | _ :: _ => if path_exists w (generated_dir wd) then dirs w
                            else {[generated_dir wd]} ∪ dirs w
                end).
Proof. apply run_parts. Qed.

Lemma run_document_and_counter_witness :
  exists doc w',
    run (fun _ => None) sample_interpreter [] two_users empty_world = Ok (doc, w')
    /\ serial_num w' = 3%Z.
Proof.
  destruct (run (fun _ => None) sample_interpreter [] two_users empty_world)
    as [[doc w']|e] eqn:Hrun; [|vm_compute in Hrun; discriminate Hrun].
  exists doc, w'. split; [reflexivity|].
  destruct (run_document_and_counter (fun _ => None) sample_interpreter []
              two_users empty_world doc w' Hrun) as (v & _ & _ & Hs & _).
  exact Hs.
Defined.

(** X8: a run that ends normally changes no file other than the artifacts
    of its items, and removes no file. *)
Theorem run_other_files_untouched
    (g : list N -> option N) (py : Interpreter) (wd : pystr)
    (input : Collection) (w : World) (doc : pystr) (w' : World) :
  run g py wd input w = Ok (doc, w') ->
  (forall p, (forall it, In it (item input) -> path_of wd it <> p) ->
             files w' !! p = files w !! p)
  /\ (forall p, is_Some (files w !! p) -> is_Some (files w' !! p)).
Proof.
  intros Hrun. split.
  - intros p. apply (run_other_files g py wd input w doc w' p Hrun).
  - intros p. apply (run_keeps_files g py wd input w doc w' p Hrun).
Qed.

Lemma run_other_files_untouched_witness :
  exists doc w',
    run (fun _ => None) sample_interpreter [] two_users empty_world = Ok (doc, w')
    /\ files w' !! py:"notes.txt" = None.
Proof.
  destruct (run (fun _ => None) sample_interpreter [] two_users empty_world)
    as [[doc w']|e] eqn:Hrun; [|vm_compute in Hrun; discriminate Hrun].
  exists doc, w'. split; [reflexivity|].
  refine (proj1 (run_other_files_untouched (fun _ => None) sample_interpreter []
                   two_users empty_world doc w' Hrun) py:"notes.txt" _).
  intros it [<-|[<-|[]]]; vm_compute; discriminate.
Defined.

(** X9: the document and the storage after a run depend on the input and on
    the storage before only: neither the serial counter nor what was printed
    before has any effect on them. *)
Theorem run_same_storage_same_result
    (g : list N -> option N) (py : Interpreter) (wd : pystr)
    (input : Collection) (w1 w2 : World) (doc : pystr) (w1' : World) :
  files w1 = files w2 -> dirs w1 = dirs w2 ->
  run g py wd input w1 = Ok (doc, w1') ->
  exists w2', run g py wd input w2 = Ok (doc, w2')
              /\ files w2' = files w1' /\ dirs w2' = dirs w1'.
Proof. apply run_same_storage. Qed.

Lemma run_same_storage_same_result_witness :
  exists doc w1' w2',
    run (fun _ => None) sample_interpreter [] two_users empty_world = Ok (doc, w1')
    /\ run (fun _ => None) sample_interpreter [] two_users (next_serial empty_world)
       = Ok (doc, w2')
    /\ files w2' = files w1'.
Proof.
  destruct (run (fun _ => None) sample_interpreter [] two_users empty_world)
    as [[doc w1']|e] eqn:Hrun; [|vm_compute in Hrun; discriminate Hrun].
  destruct (run_same_storage_same_result (fun _ => None) sample_interpreter []
              two_users empty_world (next_serial empty_world) doc w1'
              eq_refl eq_refl Hrun) as (w2' & H2 & Hf & _).
  exists doc, w1', w2'. split; [reflexivity|]. split; [exact H2 | exact Hf].
Defined.

(** X10: for every raw body the [try] block of the request payload returns:
    the payload is the body with its placeholders rewritten (code points
    above U+FFFF as their two UTF-16 units), passed through
    [format_raw_data], or [{}] when nothing is left; so a body of the Basic
    Multilingual Plane without placeholder delimiters and without a
    carriage-return/line-feed pair is formatted as it is. *)
Theorem request_payload_value
    (g : list N -> option N) (py : Interpreter) (raw : pystr) :
  payload_try g py raw
  = Ok (match placeholders_rewritten (flat_map utf16_units raw) with
        | [] => (py:"json", EMPTY_OBJECT)
        | _ :: _ =>
            format_raw_data py (placeholders_rewritten (flat_map utf16_units raw))
        end)
  /\ (Forall (fun c => c < 65536) raw -> flat_map utf16_units raw = raw)
  /\ (Forall (fun c => c < 65536) raw ->
      contains py:"{{" raw = false -> contains py:"}}" raw = false ->
      contains [CR; LF] raw = false -> raw <> [] ->
      request_payload g py (Present {| body_raw := Some raw |})
      = format_raw_data py raw).
Proof.
  assert (Hbmp : Forall (fun c => c < 65536) raw -> flat_map utf16_units raw = raw).
  { intros H. apply flat_map_fixed. revert H. apply List.Forall_impl.
    intros c Hc. unfold utf16_units. apply N.ltb_lt in Hc. rewrite Hc. reflexivity. }
  split; [apply payload_try_value|]. split; [exact Hbmp|].
  intros H1 H2 H3 H4 Hne. cbn [request_payload body_raw]. unfold payload_or_raw.
  rewrite payload_try_value, (Hbmp H1). cbn [try_except].
  unfold placeholders_rewritten.
  rewrite (replace_absent py:"{{" py:"$" raw) by (discriminate || exact H2).
  rewrite (replace_absent py:"}}" [] raw) by (discriminate || exact H3).
  rewrite (replace_absent [CR; LF] [] raw) by (discriminate || exact H4).
  destruct raw; [congruence | reflexivity].
Qed.

(** X11: what [json.dumps] prints for a string is read back by
    [json.loads] as a string that [json.dumps] prints the same way, so the
    round trip of line 126 gives the text of line 125 again; and [clean]
    turns that text into the string with its placeholders rewritten. *)
Theorem dumps_loads_round_trip
    (g : list N -> option N) (py : Interpreter) (raw : pystr) :
  exists p,
    json_dumps py None (JStr raw) = Ok p
    /\ (exists d, json_loads py p = Ok (JStr d) /\ json_dumps py None (JStr d) = Ok p)
    /\ clean g p = Ok (placeholders_rewritten (flat_map utf16_units raw)).
Proof.
  exists (encode_basestring_ascii raw). split; [reflexivity|]. split.
  - destruct (json_loads_dumps_value py raw) as (d & Hd & Hd').
    exists d. split; [exact Hd|]. rewrite json_dumps_str, Hd'. reflexivity.
  - apply clean_dumps_value.
Qed.

(** X12: on a string without a backslash [clean] decodes nothing: it
    rewrites the placeholders, deletes the carriage-return/line-feed pairs and
    strips one pair of quotes, and it raises, with [UnicodeEncodeError],
    exactly when a character lies outside Latin-1. *)
Theorem clean_without_backslash (g : list N -> option N) (s : pystr) :
  no_backslash s ->
  clean g s = (if forallb (fun c => c <=? 255) s
               then Ok (strip_quotes (placeholders_rewritten s))
               else Raise UnicodeEncodeError)
  /\ raises (clean g s) = negb (forallb (fun c => c <=? 255) s).
Proof.
  intros H. rewrite (clean_no_backslash g s H).
  split; [reflexivity|]. destruct (forallb (fun c => c <=? 255) s); reflexivity.
Qed.

Lemma clean_without_backslash_witness :
  clean (fun _ => None) py:"{{host}}/users" = Ok py:"$host/users".
Proof.
  refine (proj1 (clean_without_backslash (fun _ => None) py:"{{host}}/users" _)).
  repeat constructor.
Defined.

(** X13: [clean_list] on a string cleans the pieces between the commas:
    joining the pieces with commas gives the string back, there is one piece
    more than there are commas, and on a string without a backslash the
    result is the list of the cleaned pieces, or [UnicodeEncodeError] when a
    character lies outside Latin-1. *)
Theorem clean_list_pieces (g : list N -> option N) (s : pystr) :
  join [44] (split_on 44 s) = s
  /\ length (split_on 44 s) = S (length (List.filter (fun c => c =? 44) s))
  /\ (forall l, clean_list g s = Ok l -> length l = length (split_on 44 s))
  /\ (no_backslash s ->
      clean_list g s
      = if forallb (fun c => c <=? 255) s
        then Ok (List.map (fun p => strip_quotes (placeholders_rewritten p))
                          (split_on 44 s))
        else Raise UnicodeEncodeError).
Proof.
  split; [apply join_split_on|]. split; [apply split_on_length|].
  split; [|apply clean_list_no_backslash].
  unfold clean_list. generalize (split_on 44 s). intros ps.
  induction ps as [|p ps IH]; intros l.
  - intros [= <-]. reflexivity.
  - cbn [mapM]. destruct (clean g p) as [x|e]; [|discriminate].
    cbn [mbind result_bind]. destruct (mapM (clean g) ps) as [xs|e]; [|discriminate].
    intros [= <-]. cbn [length]. rewrite (IH xs eq_refl). reflexivity.
Qed.

(** X14: when [format_raw_data] answers with the tag [json], the payload
    holds printable ASCII characters and line feeds only, provided floats are
    printed that way: everything else is written as an escape. *)
Theorem format_raw_data_plain (py : Interpreter) (data : pystr) :
  (forall lit, plain_text (floatstr_of_literal py lit) = true) ->
  fst (format_raw_data py data) = py:"json" ->
  plain_text (snd (format_raw_data py data)) = true.
Proof.
  intros Hf. unfold format_raw_data, try_except.
  destruct (json_loads py data) as [v|e]; cbn [mbind result_bind fst snd].
  - destruct (json_dumps py (Some 2%nat) v) as [text|e] eqn:E;
      cbn [mbind result_bind fst snd].
    + intros _. unfold json_dumps in E.
      apply (plain_text_iterencode py (Some 2%nat) Hf v _ _ _ E).
    + intros H. discriminate H.
  - intros H. discriminate H.
Qed.

Lemma format_raw_data_plain_witness :
  plain_text (snd (format_raw_data half_interpreter py:"[1, 0.5]")) = true.
Proof.
  apply (format_raw_data_plain half_interpreter py:"[1, 0.5]").
  - intros lit. reflexivity.
  - vm_compute. reflexivity.
Defined.

Lemma path_of_eq_iff (wd : pystr) (a b : Item) :
  path_of wd a = path_of wd b
  <-> file_name (item_name a) a = file_name (item_name b) b.
Proof.
  unfold path_of. rewrite !output_path_shape. split.
  - intros H. apply app_inv_head in H. apply app_inv_head in H. exact H.
  - intros ->. reflexivity.
Qed.

(** X15: two items are written to the same path exactly when their file
    names are equal, and the file name does not keep the resource name and
    the method apart: a resource [n-m1] with the method [m2] and a resource
    [n] with the method [s-m2], where [s] is the file-safe form of [m1],
    share one artifact ([s] is [m1] itself when [m1] holds none of the nine
    characters of line 195), and so do two resources whose names differ only
    in characters that line 195 replaces. *)
Theorem artifact_path_collisions (wd : pystr) :
  (forall a b : Item,
      path_of wd a = path_of wd b
      <-> file_name (item_name a) a = file_name (item_name b) b)
  /\ (forall n m1 m2 : pystr,
         path_of wd (bare_item (n ++ py:"-" ++ m1) m2)
         = path_of wd (bare_item n (safe_name m1 ++ py:"-" ++ m2)))
  /\ (forall m1 : pystr,
         Forall (fun c => is_unsafe_char c = false) m1 -> safe_name m1 = m1)
  /\ (forall n1 n2 m : pystr,
         safe_name n1 = safe_name n2 ->
         path_of wd (bare_item n1 m) = path_of wd (bare_item n2 m))
  /\ path_of wd (bare_item py:"A:B" py:"GET") = path_of wd (bare_item py:"A*B" py:"GET").
Proof.
  split; [apply path_of_eq_iff|]. split; [|split; [|split]].
  - intros n m1 m2. apply path_of_eq_iff. unfold file_name, bare_item.
    cbn [item_name item_request req_method].
    rewrite (safe_name_charwise (n ++ py:"-" ++ m1)), !flat_map_app.
    rewrite <- !safe_name_charwise.
    change (safe_name py:"-") with (py:"-"). rewrite <- !app_assoc. reflexivity.
  - intros m1 Hm. apply safe_name_fixed, Hm.
  - intros n1 n2 m H. apply path_of_eq_iff. unfold file_name, bare_item.
    cbn [item_name item_request req_method]. rewrite H. reflexivity.
  - apply path_of_eq_iff. reflexivity.
Qed.
